(** * Datafile: the variable registry and checkpoint driver of BOUT++

    A shallow embedding of [src/fileio/datafile.cxx].  The [Datafile] object
    keeps six vectors of [VarStr] records (one per kind of variable), a
    pointer [file] to a [DataFormat] backend, and shares two static members
    ([enabled], [wtime]) with every other instance.  The drivers [read] and
    [write] walk the six vectors in a fixed order and move every registered
    variable between the caller's memory and the backend.

    What the file does not define is taken as an interface:
    - [DataFormat] (the abstract backend class) is a type class over the
      backend's state, one method per primitive the drivers call;
    - [Field2D]/[Field3D] are abstract types with the operations the file
      invokes ([FieldOps]); [Vector2D]/[Vector3D] are records of three
      fields and the [covariant] flag, with abstract basis conversions;
    - [BoutReal] is an abstract type with a zero, [+] and [-];
    - [vsprintf], [MPI_Wtime] and the mesh extents come from [Runtime].

    Every call of a backend primitive is also appended to a ghost list
    [calls], so that "the backend is not touched" is a statement about the
    model.

    Assumed throughout: [file] points to a backend (the drivers dereference
    it without a check), every registered pointer is still valid, and
    copying a vector object copies its value. *)

From Stdlib Require Import ZArith Ascii String List Bool Lia.
From stdpp Require Import base tactics functions strings list.
Import ListNotations.

Local Open Scope Z_scope.

(** ** Collaborators *)

(** [BoutReal]: the drivers only store [0], and add a difference of two
    clock readings to [wtime]. *)
Class RealOps (R : Type) := {
  real_zero : R;
  real_add : R -> R -> R;
  real_sub : R -> R -> R }.

(** The operations of a field object that the file invokes.  [getData] is
    the raw buffer handed to the backend; [setData] is the effect on the
    field of the backend storing through that raw pointer; [assign r] is
    [operator=(BoutReal)]. *)
Class FieldOps (R F : Type) := {
  isAllocated : F -> bool;
  allocate : F -> F;
  getData : F -> list R;
  setData : list R -> F -> F;
  assign : R -> F -> F }.

(** A vector object: three field members and the basis flag. *)
Record Vector (F : Type) := mkVector {
  x : F;
  y : F;
  z : F;
  covariant : bool }.
Arguments mkVector {F}.
Arguments x {F}.
Arguments y {F}.
Arguments z {F}.
Arguments covariant {F}.

Class VectorOps (F : Type) := {
  toCovariant : Vector F -> Vector F;
  toContravariant : Vector F -> Vector F }.

(** The abstract backend.  A primitive that receives a pointer to the
    caller's storage returns, besides its status, the content it leaves
    there ([read_int name old] gives [(ok, new, backend')]). Array
    primitives take the extents after the name. *)
Class DataFormat (R B : Type) := {
  openr : string -> B -> bool * B;
  openw : string -> bool -> B -> bool * B;
  is_valid : B -> bool * B;
  setRecord : Z -> B -> B;
  close : B -> B;
  setLowPrecision : B -> B;
  read_int : string -> Z -> B -> bool * Z * B;
  read_rec_int : string -> Z -> B -> bool * Z * B;
  read_real : string -> R -> B -> bool * R * B;
  read_rec_real : string -> R -> B -> bool * R * B;
  read_data : string -> list Z -> list R -> B -> bool * list R * B;
  read_rec_data : string -> list Z -> list R -> B -> bool * list R * B;
  write_int : string -> Z -> B -> bool * B;
  write_rec_int : string -> Z -> B -> bool * B;
  write_real : string -> R -> B -> bool * B;
  write_rec_real : string -> R -> B -> bool * B;
  write_data : string -> list Z -> list R -> B -> bool * B;
  write_rec_data : string -> list Z -> list R -> B -> bool * B }.

(** Variadic arguments of the printf-style entry points. *)
Inductive va_arg :=
| va_int (n : Z)
| va_str (s : string).

Record Mesh := { ngx : Z; ngy : Z; ngz : Z }.

(** [MPI_Wtime n] is the reading of the wall clock at its [n]-th query. *)
Class Runtime (R : Type) := {
  vsprintf : string -> list va_arg -> string;
  MPI_Wtime : nat -> R;
  mesh : Mesh }.

(** ** Pointers into the caller's memory *)

Definition addr := N.

Inductive comp := cx | cy | cz.

(** A pointer to [Field2D] or to [Field3D]: a field object of its own, or the member
    [x], [y] or [z] of a vector object. *)
Inductive fptr :=
| FieldAt (a : addr)
| CompAt (a : addr) (c : comp).

(** ** Registration records *)

(** [VarStr<T>].  [covar] is assigned for the two vector kinds only; for the
    other kinds it is never read and is recorded as [false]. *)
Record VarStr (P : Type) := mkVarStr {
  ptr : P;
  name : string;
  grow : bool;
  covar : bool }.
Arguments mkVarStr {P}.
Arguments ptr {P}.
Arguments name {P}.
Arguments grow {P}.
Arguments covar {P}.

(** [BoutException]: the formatted message. *)
Record BoutException := { message : string }.

Section Datafile.

Context {BoutReal Field2D Field3D B : Type}.
Context `{!RealOps BoutReal}.
Context `{!FieldOps BoutReal Field2D} `{!FieldOps BoutReal Field3D}.
Context `{!VectorOps Field2D} `{!VectorOps Field3D}.
Context `{!DataFormat BoutReal B}.
Context `{!Runtime BoutReal}.

Definition Vector2D := Vector Field2D.
Definition Vector3D := Vector Field3D.

(** The object's members. *)
Record Datafile := mkDatafile {
  low_prec : bool;
  file : B;
  def_filename : string;
  int_arr : list (VarStr addr);
  BoutReal_arr : list (VarStr addr);
  f2d_arr : list (VarStr fptr);
  f3d_arr : list (VarStr fptr);
  v2d_arr : list (VarStr addr);
  v3d_arr : list (VarStr addr) }.

(** The caller's objects, by kind and address. *)
Record Memory := mkMemory {
  m_int : addr -> Z;
  m_real : addr -> BoutReal;
  m_f2d : addr -> Field2D;
  m_f3d : addr -> Field3D;
  m_v2d : addr -> Vector2D;
  m_v3d : addr -> Vector3D }.

(** What was passed to a backend write primitive. *)
Inductive Payload :=
| PInt (n : Z)
| PReal (r : BoutReal)
| PData (d : list BoutReal).

Inductive CType := TInt | TReal | TData.

(** One invocation of a backend primitive; [rec] tells the record-indexed
    primitives ([read_rec], [write_rec]) from the plain ones. *)
Inductive Call :=
| Copenr (filename : string)
| Copenw (filename : string) (append : bool)
| Cis_valid
| CsetRecord (n : Z)
| Cclose
| CsetLowPrecision
| Cread (rec : bool) (ty : CType) (name : string) (dims : list Z)
| Cwrite (rec : bool) (name : string) (dims : list Z) (p : Payload).

(** The whole state the file's functions act on: the object [self], the
    caller's memory, the two static members, the number of clock queries so
    far, the lines written to [output], and the backend calls made. *)
Record World := mkWorld {
  self : Datafile;
  mem : Memory;
  enabled : bool;
  wtime : BoutReal;
  clock : nat;
  output : list string;
  calls : list Call }.

(** *** Field updates *)

Definition set_self (d : Datafile) (s : World) : World :=
  mkWorld d (mem s) (enabled s) (wtime s) (clock s) (output s) (calls s).
Definition set_mem (m : Memory) (s : World) : World :=
  mkWorld (self s) m (enabled s) (wtime s) (clock s) (output s) (calls s).
Definition set_enabled (b : bool) (s : World) : World :=
  mkWorld (self s) (mem s) b (wtime s) (clock s) (output s) (calls s).
Definition set_wtime (t : BoutReal) (s : World) : World :=
  mkWorld (self s) (mem s) (enabled s) t (clock s) (output s) (calls s).
Definition set_clock (n : nat) (s : World) : World :=
  mkWorld (self s) (mem s) (enabled s) (wtime s) n (output s) (calls s).
Definition set_output (o : list string) (s : World) : World :=
  mkWorld (self s) (mem s) (enabled s) (wtime s) (clock s) o (calls s).
Definition set_calls (c : list Call) (s : World) : World :=
  mkWorld (self s) (mem s) (enabled s) (wtime s) (clock s) (output s) c.

Definition set_low_prec (b : bool) (d : Datafile) : Datafile :=
  mkDatafile b (file d) (def_filename d) (int_arr d) (BoutReal_arr d)
             (f2d_arr d) (f3d_arr d) (v2d_arr d) (v3d_arr d).
Definition set_file (b : B) (d : Datafile) : Datafile :=
  mkDatafile (low_prec d) b (def_filename d) (int_arr d) (BoutReal_arr d)
             (f2d_arr d) (f3d_arr d) (v2d_arr d) (v3d_arr d).
Definition set_def_filename (f : string) (d : Datafile) : Datafile :=
  mkDatafile (low_prec d) (file d) f (int_arr d) (BoutReal_arr d)
             (f2d_arr d) (f3d_arr d) (v2d_arr d) (v3d_arr d).
Definition set_int_arr (l : list (VarStr addr)) (d : Datafile) : Datafile :=
  mkDatafile (low_prec d) (file d) (def_filename d) l (BoutReal_arr d)
             (f2d_arr d) (f3d_arr d) (v2d_arr d) (v3d_arr d).
Definition set_BoutReal_arr (l : list (VarStr addr)) (d : Datafile) : Datafile :=
  mkDatafile (low_prec d) (file d) (def_filename d) (int_arr d) l
             (f2d_arr d) (f3d_arr d) (v2d_arr d) (v3d_arr d).
Definition set_f2d_arr (l : list (VarStr fptr)) (d : Datafile) : Datafile :=
  mkDatafile (low_prec d) (file d) (def_filename d) (int_arr d) (BoutReal_arr d)
             l (f3d_arr d) (v2d_arr d) (v3d_arr d).
Definition set_f3d_arr (l : list (VarStr fptr)) (d : Datafile) : Datafile :=
  mkDatafile (low_prec d) (file d) (def_filename d) (int_arr d) (BoutReal_arr d)
             (f2d_arr d) l (v2d_arr d) (v3d_arr d).
Definition set_v2d_arr (l : list (VarStr addr)) (d : Datafile) : Datafile :=
  mkDatafile (low_prec d) (file d) (def_filename d) (int_arr d) (BoutReal_arr d)
             (f2d_arr d) (f3d_arr d) l (v3d_arr d).
Definition set_v3d_arr (l : list (VarStr addr)) (d : Datafile) : Datafile :=
  mkDatafile (low_prec d) (file d) (def_filename d) (int_arr d) (BoutReal_arr d)
             (f2d_arr d) (f3d_arr d) (v2d_arr d) l.

Definition set_m_int (f : addr -> Z) (m : Memory) : Memory :=
  mkMemory f (m_real m) (m_f2d m) (m_f3d m) (m_v2d m) (m_v3d m).
Definition set_m_real (f : addr -> BoutReal) (m : Memory) : Memory :=
  mkMemory (m_int m) f (m_f2d m) (m_f3d m) (m_v2d m) (m_v3d m).
Definition set_m_f2d (f : addr -> Field2D) (m : Memory) : Memory :=
  mkMemory (m_int m) (m_real m) f (m_f3d m) (m_v2d m) (m_v3d m).
Definition set_m_f3d (f : addr -> Field3D) (m : Memory) : Memory :=
  mkMemory (m_int m) (m_real m) (m_f2d m) f (m_v2d m) (m_v3d m).
Definition set_m_v2d (f : addr -> Vector2D) (m : Memory) : Memory :=
  mkMemory (m_int m) (m_real m) (m_f2d m) (m_f3d m) f (m_v3d m).
Definition set_m_v3d (f : addr -> Vector3D) (m : Memory) : Memory :=
  mkMemory (m_int m) (m_real m) (m_f2d m) (m_f3d m) (m_v2d m) f.

(** *** Dereferencing *)

Definition get_comp {F} (c : comp) (v : Vector F) : F :=
  match c with cx => x v | cy => y v | cz => z v end.

Definition set_comp {F} (c : comp) (f : F) (v : Vector F) : Vector F :=
  match c with
  | cx => mkVector f (y v) (z v) (covariant v)
  | cy => mkVector (x v) f (z v) (covariant v)
  | cz => mkVector (x v) (y v) f (covariant v)
  end.

Definition set_covariant {F} (b : bool) (v : Vector F) : Vector F :=
  mkVector (x v) (y v) (z v) b.

Definition load_f2d (p : fptr) (m : Memory) : Field2D :=
  match p with
  | FieldAt a => m_f2d m a
  | CompAt a c => get_comp c (m_v2d m a)
  end.

Definition store_f2d (p : fptr) (f : Field2D) (m : Memory) : Memory :=
  match p with
  | FieldAt a => set_m_f2d (<[a := f]> (m_f2d m)) m
  | CompAt a c => set_m_v2d (<[a := set_comp c f (m_v2d m a)]> (m_v2d m)) m
  end.

Definition load_f3d (p : fptr) (m : Memory) : Field3D :=
  match p with
  | FieldAt a => m_f3d m a
  | CompAt a c => get_comp c (m_v3d m a)
  end.

Definition store_f3d (p : fptr) (f : Field3D) (m : Memory) : Memory :=
  match p with
  | FieldAt a => set_m_f3d (<[a := f]> (m_f3d m)) m
  | CompAt a c => set_m_v3d (<[a := set_comp c f (m_v3d m a)]> (m_v3d m)) m
  end.

(** ** The state monad of the drivers *)

Definition M (A : Type) : Type := World -> A * World.

Definition ret {A} (a : A) : M A := fun s => (a, s).

Definition bind {A C} (m : M A) (k : A -> M C) : M C :=
  fun s => let r := m s in k (fst r) (snd r).

Notation "v <- m ;; k" := (bind m (fun v => k))
  (at level 100, m at next level, right associativity).
Notation "m ;; k" := (bind m (fun _ => k))
  (at level 100, right associativity).

(** A loop over a [std::vector] with an iterator; no loop body of the file
    changes the vector it walks. *)
Fixpoint for_each {T} (body : T -> M unit) (l : list T) : M unit :=
  match l with
  | [] => ret tt
  | it :: rest => body it ;; for_each body rest
  end.

Definition gets {A} (f : World -> A) : M A := fun s => (f s, s).
Definition modify (f : World -> World) : M unit := fun s => (tt, f s).

(** *** Elementary effects *)

Definition record_call (c : Call) (s : World) : World :=
  set_calls (calls s ++ [c]) s.

Definition backend (b : B) (s : World) : World :=
  set_self (set_file b (self s)) s.

Definition poke_int (p : addr) (v : Z) (s : World) : World :=
  set_mem (set_m_int (<[p := v]> (m_int (mem s))) (mem s)) s.

Definition poke_real (p : addr) (v : BoutReal) (s : World) : World :=
  set_mem (set_m_real (<[p := v]> (m_real (mem s))) (mem s)) s.

Definition poke_f2d (p : fptr) (f : Field2D) (s : World) : World :=
  set_mem (store_f2d p f (mem s)) s.

Definition poke_f3d (p : fptr) (f : Field3D) (s : World) : World :=
  set_mem (store_f3d p f (mem s)) s.

Definition poke_v2d (p : addr) (v : Vector2D) (s : World) : World :=
  set_mem (set_m_v2d (<[p := v]> (m_v2d (mem s))) (mem s)) s.

Definition poke_v3d (p : addr) (v : Vector3D) (s : World) : World :=
  set_mem (set_m_v3d (<[p := v]> (m_v3d (mem s))) (mem s)) s.

(** [output.write(...)] *)
Definition output_write (line : string) : M unit :=
  modify (fun s => set_output (output s ++ [line]) s).

(** ["\tWARNING: Could not read <kind> %s. Setting to zero\n"] *)
Definition warning (kind nm : string) : string :=
  String "009"%char ("WARNING: Could not read " +:+ kind +:+ " " +:+ nm
    +:+ ". Setting to zero" +:+ String "010"%char EmptyString).

(** [MPI_Wtime()] *)
Definition wall_time : M BoutReal :=
  fun s => (MPI_Wtime (clock s), set_clock (S (clock s)) s).

(** *** The backend primitives, called through [file] *)

Definition file_openr (filename : string) : M bool := fun s =>
  let r := openr filename (file (self s)) in
  (fst r, record_call (Copenr filename) (backend (snd r) s)).

Definition file_openw (filename : string) (append : bool) : M bool := fun s =>
  let r := openw filename append (file (self s)) in
  (fst r, record_call (Copenw filename append) (backend (snd r) s)).

Definition file_is_valid : M bool := fun s =>
  let r := is_valid (file (self s)) in
  (fst r, record_call Cis_valid (backend (snd r) s)).

Definition file_setRecord (n : Z) : M unit := fun s =>
  (tt, record_call (CsetRecord n) (backend (setRecord n (file (self s))) s)).

Definition file_close : M unit := fun s =>
  (tt, record_call Cclose (backend (close (file (self s))) s)).

Definition file_setLowPrecision : M unit := fun s =>
  (tt, record_call CsetLowPrecision
         (backend (setLowPrecision (file (self s))) s)).

(** [file->read(int*, name)] and [file->read_rec(int*, name)] *)
Definition file_read_int (rec : bool) (p : addr) (nm : string) : M bool :=
  fun s =>
  let r := (if rec then read_rec_int else read_int)
             nm (m_int (mem s) p) (file (self s)) in
  (fst (fst r),
   record_call (Cread rec TInt nm []) (backend (snd r) (poke_int p (snd (fst r)) s))).

(** [file->read(BoutReal*, name)] and [file->read_rec(BoutReal*, name)] *)
Definition file_read_real (rec : bool) (p : addr) (nm : string) : M bool :=
  fun s =>
  let r := (if rec then read_rec_real else read_real)
             nm (m_real (mem s) p) (file (self s)) in
  (fst (fst r),
   record_call (Cread rec TReal nm []) (backend (snd r) (poke_real p (snd (fst r)) s))).

(** [file->read] and [file->read_rec] on the raw buffer of the [Field2D]
    that [f] points to, with the extents [dims] *)
Definition file_read_f2d (rec : bool) (f : fptr) (nm : string) (dims : list Z)
  : M bool := fun s =>
  let fld := load_f2d f (mem s) in
  let r := (if rec then read_rec_data else read_data)
             nm dims (getData fld) (file (self s)) in
  (fst (fst r),
   record_call (Cread rec TData nm dims)
     (backend (snd r) (poke_f2d f (setData (snd (fst r)) fld) s))).

(** the same on the raw buffer of the [Field3D] that [f] points to *)
Definition file_read_f3d (rec : bool) (f : fptr) (nm : string) (dims : list Z)
  : M bool := fun s =>
  let fld := load_f3d f (mem s) in
  let r := (if rec then read_rec_data else read_data)
             nm dims (getData fld) (file (self s)) in
  (fst (fst r),
   record_call (Cread rec TData nm dims)
     (backend (snd r) (poke_f3d f (setData (snd (fst r)) fld) s))).

Definition file_write_int (rec : bool) (p : addr) (nm : string) : M bool :=
  fun s =>
  let v := m_int (mem s) p in
  let r := (if rec then write_rec_int else write_int) nm v (file (self s)) in
  (fst r, record_call (Cwrite rec nm [] (PInt v)) (backend (snd r) s)).

Definition file_write_real (rec : bool) (p : addr) (nm : string) : M bool :=
  fun s =>
  let v := m_real (mem s) p in
  let r := (if rec then write_rec_real else write_real) nm v (file (self s)) in
  (fst r, record_call (Cwrite rec nm [] (PReal v)) (backend (snd r) s)).

(** [file->write(buffer, name, extents...)] and its [write_rec] twin; the
    buffer is only read. *)
Definition file_write_data (rec : bool) (buf : list BoutReal) (nm : string)
  (dims : list Z) : M bool := fun s =>
  let r := (if rec then write_rec_data else write_data)
             nm dims buf (file (self s)) in
  (fst r, record_call (Cwrite rec nm dims (PData buf)) (backend (snd r) s)).

(** ** Backend binding *)

(** [Datafile::setFormat], the overload that takes the backend object;
    releasing the previous backend has no effect on the model. *)
Definition setFormat (format : B) : M unit :=
  modify (backend format) ;;
  lp <- gets (fun s => low_prec (self s)) ;;
  if lp then file_setLowPrecision else ret tt.

(** [Datafile::setLowPrecision] *)
Definition setLowPrecision_df : M unit :=
  modify (fun s => set_self (set_low_prec true (self s)) s) ;;
  file_setLowPrecision.

(** ** Registration *)

(** One of the six loops of [varAdded]: [true] at the first record whose
    name equals [nm]. *)
Fixpoint name_in {P} (nm : string) (l : list (VarStr P)) : bool :=
  match l with
  | [] => false
  | it :: rest => if String.eqb nm (name it) then true else name_in nm rest
  end.

(** [Datafile::varAdded] *)
Definition varAdded (nm : string) (d : Datafile) : bool :=
  if name_in nm (int_arr d) then true
  else if name_in nm (BoutReal_arr d) then true
  else if name_in nm (f2d_arr d) then true
  else if name_in nm (f3d_arr d) then true
  else if name_in nm (v2d_arr d) then true
  else if name_in nm (v3d_arr d) then true
  else false.

(** How a call of [add] ends: it returns, or it throws; either way with the
    state it leaves. *)
Inductive Outcome :=
| Returned (s : World)
| Thrown (e : BoutException) (s : World).

(** [BoutException("Variable '%s' already added to Datafile", name)] *)
Definition already_added (nm : string) : BoutException :=
  {| message := "Variable '" +:+ nm +:+ "' already added to Datafile" |}.

(** [(grow > 0) ? true : false] *)
Definition grow_flag (g : Z) : bool := if g >? 0 then true else false.

(** [Datafile::add(int&, ...)] *)
Definition add_int (i : addr) (nm : string) (g : Z) (s : World) : Outcome :=
  if varAdded nm (self s) then Thrown (already_added nm) s
  else
    let d := mkVarStr i nm (grow_flag g) false in
    Returned (set_self (set_int_arr (int_arr (self s) ++ [d]) (self s)) s).

(** [Datafile::add(BoutReal&, ...)] *)
Definition add_BoutReal (r : addr) (nm : string) (g : Z) (s : World) : Outcome :=
  if varAdded nm (self s) then Thrown (already_added nm) s
  else
    let d := mkVarStr r nm (grow_flag g) false in
    Returned (set_self (set_BoutReal_arr (BoutReal_arr (self s) ++ [d]) (self s)) s).

(** [Datafile::add(Field2D&, ...)] *)
Definition add_Field2D (f : fptr) (nm : string) (g : Z) (s : World) : Outcome :=
  if varAdded nm (self s) then Thrown (already_added nm) s
  else
    let d := mkVarStr f nm (grow_flag g) false in
    Returned (set_self (set_f2d_arr (f2d_arr (self s) ++ [d]) (self s)) s).

(** [Datafile::add(Field3D&, ...)] *)
Definition add_Field3D (f : fptr) (nm : string) (g : Z) (s : World) : Outcome :=
  if varAdded nm (self s) then Thrown (already_added nm) s
  else
    let d := mkVarStr f nm (grow_flag g) false in
    Returned (set_self (set_f3d_arr (f3d_arr (self s) ++ [d]) (self s)) s).

(** [Datafile::add(Vector2D&, ...)]: [covar] is the vector's flag now. *)
Definition add_Vector2D (f : addr) (nm : string) (g : Z) (s : World) : Outcome :=
  if varAdded nm (self s) then Thrown (already_added nm) s
  else
    let d := mkVarStr f nm (grow_flag g) (covariant (m_v2d (mem s) f)) in
    Returned (set_self (set_v2d_arr (v2d_arr (self s) ++ [d]) (self s)) s).

(** [Datafile::add(Vector3D&, ...)] *)
Definition add_Vector3D (f : addr) (nm : string) (g : Z) (s : World) : Outcome :=
  if varAdded nm (self s) then Thrown (already_added nm) s
  else
    let d := mkVarStr f nm (grow_flag g) (covariant (m_v3d (mem s) f)) in
    Returned (set_self (set_v3d_arr (v3d_arr (self s) ++ [d]) (self s)) s).

(** ** Field helpers *)

(** [Datafile::read_f2d] *)
Definition read_f2d (nm : string) (f : fptr) (g : bool) : M bool :=
  modify (fun s => poke_f2d f (allocate (load_f2d f (mem s))) s) ;;
  if g then
    ok <- file_read_f2d true f nm [ngx mesh; ngy mesh] ;;
    if negb ok then
      output_write (warning "2D field" nm) ;;
      modify (fun s => poke_f2d f (assign real_zero (load_f2d f (mem s))) s) ;;
      ret false
    else ret true
  else
    ok <- file_read_f2d false f nm [ngx mesh; ngy mesh] ;;
    if negb ok then
      output_write (warning "2D field" nm) ;;
      modify (fun s => poke_f2d f (assign real_zero (load_f2d f (mem s))) s) ;;
      ret false
    else ret true.

(** [Datafile::read_f3d] *)
Definition read_f3d (nm : string) (f : fptr) (g : bool) : M bool :=
  modify (fun s => poke_f3d f (allocate (load_f3d f (mem s))) s) ;;
  if g then
    ok <- file_read_f3d true f nm [ngx mesh; ngy mesh; ngz mesh] ;;
    if negb ok then
      output_write (warning "3D field" nm) ;;
      modify (fun s => poke_f3d f (assign real_zero (load_f3d f (mem s))) s) ;;
      ret false
    else ret true
  else
    ok <- file_read_f3d false f nm [ngx mesh; ngy mesh; ngz mesh] ;;
    if negb ok then
      output_write (warning "3D field" nm) ;;
      modify (fun s => poke_f3d f (assign real_zero (load_f3d f (mem s))) s) ;;
      ret false
    else ret true.

(** [Datafile::write_f2d].  The field is only inspected, so the pointee is
    the argument: a registered field is loaded by the caller, a component of
    the local copy of a vector is passed as it is. *)
Definition write_f2d (nm : string) (f : Field2D) (g : bool) : M bool :=
  if negb (isAllocated f) then ret false
  else if g then file_write_data true (getData f) nm [ngx mesh; ngy mesh]
  else file_write_data false (getData f) nm [ngx mesh; ngy mesh].

(** [Datafile::write_f3d] *)
Definition write_f3d (nm : string) (f : Field3D) (g : bool) : M bool :=
  if negb (isAllocated f) then ret false
  else if g then file_write_data true (getData f) nm [ngx mesh; ngy mesh; ngz mesh]
  else file_write_data false (getData f) nm [ngx mesh; ngy mesh; ngz mesh].

(** ** The read driver *)

(** Body of the loop over [int_arr]. *)
Definition read_int_var (it : VarStr addr) : M unit :=
  if grow it then
    ok <- file_read_int true (ptr it) (name it) ;;
    if negb ok then
      output_write (warning "integer" (name it)) ;;
      modify (poke_int (ptr it) 0)
    else ret tt
  else
    ok <- file_read_int false (ptr it) (name it) ;;
    if negb ok then
      output_write (warning "integer" (name it)) ;;
      modify (poke_int (ptr it) 0)
    else ret tt.

(** Body of the loop over [BoutReal_arr]. *)
Definition read_real_var (it : VarStr addr) : M unit :=
  if grow it then
    ok <- file_read_real true (ptr it) (name it) ;;
    if negb ok then
      output_write (warning "BoutReal" (name it)) ;;
      modify (poke_real (ptr it) real_zero)
    else ret tt
  else
    ok <- file_read_real false (ptr it) (name it) ;;
    if negb ok then
      output_write (warning "BoutReal" (name it)) ;;
      modify (poke_real (ptr it) real_zero)
    else ret tt.

(** Bodies of the loops over [f2d_arr] and [f3d_arr]; the helper's status
    is dropped. *)
Definition read_f2d_var (it : VarStr fptr) : M unit :=
  read_f2d (name it) (ptr it) (grow it) ;; ret tt.

Definition read_f3d_var (it : VarStr fptr) : M unit :=
  read_f3d (name it) (ptr it) (grow it) ;; ret tt.

(** Body of the loop over [v2d_arr]. *)
Definition read_v2d_var (it : VarStr addr) : M unit :=
  (if covar it then
     read_f2d (name it +:+ "_x") (CompAt (ptr it) cx) (grow it) ;;
     read_f2d (name it +:+ "_y") (CompAt (ptr it) cy) (grow it) ;;
     read_f2d (name it +:+ "_z") (CompAt (ptr it) cz) (grow it) ;;
     ret tt
   else
     read_f2d (name it +:+ "x") (CompAt (ptr it) cx) (grow it) ;;
     read_f2d (name it +:+ "y") (CompAt (ptr it) cy) (grow it) ;;
     read_f2d (name it +:+ "z") (CompAt (ptr it) cz) (grow it) ;;
     ret tt) ;;
  modify (fun s =>
    poke_v2d (ptr it) (set_covariant (covar it) (m_v2d (mem s) (ptr it))) s).

(** Body of the loop over [v3d_arr]. *)
Definition read_v3d_var (it : VarStr addr) : M unit :=
  (if covar it then
     read_f3d (name it +:+ "_x") (CompAt (ptr it) cx) (grow it) ;;
     read_f3d (name it +:+ "_y") (CompAt (ptr it) cy) (grow it) ;;
     read_f3d (name it +:+ "_z") (CompAt (ptr it) cz) (grow it) ;;
     ret tt
   else
     read_f3d (name it +:+ "x") (CompAt (ptr it) cx) (grow it) ;;
     read_f3d (name it +:+ "y") (CompAt (ptr it) cy) (grow it) ;;
     read_f3d (name it +:+ "z") (CompAt (ptr it) cz) (grow it) ;;
     ret tt) ;;
  modify (fun s =>
    poke_v3d (ptr it) (set_covariant (covar it) (m_v3d (mem s) (ptr it))) s).

(** The six loops of [read], between [setRecord] and [close]. *)
Definition read_vars : M unit :=
  l <- gets (fun s => int_arr (self s)) ;; for_each read_int_var l ;;
  l <- gets (fun s => BoutReal_arr (self s)) ;; for_each read_real_var l ;;
  l <- gets (fun s => f2d_arr (self s)) ;; for_each read_f2d_var l ;;
  l <- gets (fun s => f3d_arr (self s)) ;; for_each read_f3d_var l ;;
  l <- gets (fun s => v2d_arr (self s)) ;; for_each read_v2d_var l ;;
  l <- gets (fun s => v3d_arr (self s)) ;; for_each read_v3d_var l.

(** [wtime += MPI_Wtime() - tstart] *)
Definition add_elapsed (tstart : BoutReal) : M unit :=
  tend <- wall_time ;;
  modify (fun s => set_wtime (real_add (wtime s) (real_sub tend tstart)) s).

(** [Datafile::read(const char *format, ...)]; [None] is the null pointer.
    The formatted name is assumed to fit the 512 bytes of [filename]. *)
Definition read (format : option string) (ap : list va_arg) : M Z :=
  match format with
  | None => ret 1
  | Some fmt =>
    let filename := vsprintf fmt ap in
    tstart <- wall_time ;;
    opened <- file_openr filename ;;
    if negb opened then ret 1
    else
      valid <- file_is_valid ;;
      if negb valid then ret 1
      else
        file_setRecord (-1) ;;
        read_vars ;;
        file_close ;;
        add_elapsed tstart ;;
        ret 0
  end.

(** ** The write driver *)

Definition write_int_var (it : VarStr addr) : M unit :=
  if grow it then file_write_int true (ptr it) (name it) ;; ret tt
  else file_write_int false (ptr it) (name it) ;; ret tt.

Definition write_real_var (it : VarStr addr) : M unit :=
  if grow it then file_write_real true (ptr it) (name it) ;; ret tt
  else file_write_real false (ptr it) (name it) ;; ret tt.

Definition write_f2d_var (it : VarStr fptr) : M unit :=
  f <- gets (fun s => load_f2d (ptr it) (mem s)) ;;
  write_f2d (name it) f (grow it) ;; ret tt.

Definition write_f3d_var (it : VarStr fptr) : M unit :=
  f <- gets (fun s => load_f3d (ptr it) (mem s)) ;;
  write_f3d (name it) f (grow it) ;; ret tt.

(** Body of the loop over [v2d_arr]: the local [v] is a copy of the
    caller's vector, converted in place. *)
Definition write_v2d_var (it : VarStr addr) : M unit :=
  if covar it then
    v <- gets (fun s => m_v2d (mem s) (ptr it)) ;;
    let v := toCovariant v in
    write_f2d (name it +:+ "_x") (x v) (grow it) ;;
    write_f2d (name it +:+ "_y") (y v) (grow it) ;;
    write_f2d (name it +:+ "_z") (z v) (grow it) ;;
    ret tt
  else
    v <- gets (fun s => m_v2d (mem s) (ptr it)) ;;
    let v := toContravariant v in
    write_f2d (name it +:+ "x") (x v) (grow it) ;;
    write_f2d (name it +:+ "y") (y v) (grow it) ;;
    write_f2d (name it +:+ "z") (z v) (grow it) ;;
    ret tt.

(** Body of the loop over [v3d_arr]. *)
Definition write_v3d_var (it : VarStr addr) : M unit :=
  if covar it then
    v <- gets (fun s => m_v3d (mem s) (ptr it)) ;;
    let v := toCovariant v in
    write_f3d (name it +:+ "_x") (x v) (grow it) ;;
    write_f3d (name it +:+ "_y") (y v) (grow it) ;;
    write_f3d (name it +:+ "_z") (z v) (grow it) ;;
    ret tt
  else
    v <- gets (fun s => m_v3d (mem s) (ptr it)) ;;
    let v := toContravariant v in
    write_f3d (name it +:+ "x") (x v) (grow it) ;;
    write_f3d (name it +:+ "y") (y v) (grow it) ;;
    write_f3d (name it +:+ "z") (z v) (grow it) ;;
    ret tt.

(** The six loops of [write], between [setRecord] and [close]. *)
Definition write_vars : M unit :=
  l <- gets (fun s => int_arr (self s)) ;; for_each write_int_var l ;;
  l <- gets (fun s => BoutReal_arr (self s)) ;; for_each write_real_var l ;;
  l <- gets (fun s => f2d_arr (self s)) ;; for_each write_f2d_var l ;;
  l <- gets (fun s => f3d_arr (self s)) ;; for_each write_f3d_var l ;;
  l <- gets (fun s => v2d_arr (self s)) ;; for_each write_v2d_var l ;;
  l <- gets (fun s => v3d_arr (self s)) ;; for_each write_v3d_var l.

(** [Datafile::write(const string &filename, bool append)] *)
Definition write (filename : string) (append : bool) : M bool :=
  en <- gets enabled ;;
  if negb en then ret true
  else
    tstart <- wall_time ;;
    opened <- file_openw filename append ;;
    if negb opened then ret false
    else
      valid <- file_is_valid ;;
      if negb valid then ret false
      else
        file_setRecord (-1) ;;
        write_vars ;;
        file_close ;;
        add_elapsed tstart ;;
        ret true.

(** [Datafile::write(const char *format, ...)] *)
Definition write_fmt (format : option string) (ap : list va_arg) : M Z :=
  match format with
  | None => ret 1
  | Some fmt =>
    let filename := vsprintf fmt ap in
    ok <- write filename false ;;
    if ok then ret 0 else ret 1
  end.

(** [Datafile::append(const char *format, ...)] *)
Definition append (format : option string) (ap : list va_arg) : M Z :=
  match format with
  | None => ret 1
  | Some fmt =>
    let filename := vsprintf fmt ap in
    ok <- write filename true ;;
    if ok then ret 0 else ret 1
  end.

(** Modelled from the spec: [setFilename(const string&)] is defined in the
    class declaration, which is not part of the file; as a filename setter
    it stores its argument in [def_filename]. *)
Definition setFilename_string (filename : string) : M unit :=
  modify (fun s => set_self (set_def_filename filename (self s)) s).

(** [Datafile::setFilename(const char *format, ...)]; it returns nothing. *)
Definition setFilename (format : option string) (ap : list va_arg) : M unit :=
  match format with
  | None => modify (fun s => set_self (set_def_filename EmptyString (self s)) s)
  | Some fmt =>
    let filename := vsprintf fmt ap in
    setFilename_string filename
  end.

End Datafile.

Arguments Datafile : clear implicits.
Arguments Memory : clear implicits.
Arguments Payload : clear implicits.
Arguments Call : clear implicits.
Arguments World : clear implicits.
Arguments Outcome : clear implicits.
Arguments M : clear implicits.

(** ** Observations used in the statements *)

Section Observations.

Context {BoutReal Field2D Field3D B : Type}.
Context `{!RealOps BoutReal}.
Context `{!FieldOps BoutReal Field2D} `{!FieldOps BoutReal Field3D}.
Context `{!VectorOps Field2D} `{!VectorOps Field3D}.
Context `{!DataFormat BoutReal B}.
Context `{!Runtime BoutReal}.

Local Abbreviation World := (World BoutReal Field2D Field3D B).
Local Abbreviation Datafile := (Datafile B).

Local Notation "v <- m ;; k" := (bind m (fun v => k))
  (at level 100, m at next level, right associativity).
Local Notation "m ;; k" := (bind m (fun _ => k))
  (at level 100, right associativity).

(** Every registered name, kind by kind. *)
Definition names {P} (l : list (VarStr P)) : list string := map name l.

Definition registered_names (d : Datafile) : list string :=
  names (int_arr d) ++ names (BoutReal_arr d) ++ names (f2d_arr d)
  ++ names (f3d_arr d) ++ names (v2d_arr d) ++ names (v3d_arr d).

(** The component names the specification gives for a vector: the name
    with [_x], [_y], [_z] in the covariant basis, with [x], [y], [z] in the
    contravariant one. *)
Definition suffix (covariant_basis : bool) (c : comp) : string :=
  match covariant_basis, c with
  | true, cx => "_x"
  | true, cy => "_y"
  | true, cz => "_z"
  | false, cx => "x"
  | false, cy => "y"
  | false, cz => "z"
  end.

Definition component_name (covariant_basis : bool) (nm : string) (c : comp)
  : string :=
  nm +:+ suffix covariant_basis c.

Definition component_names (covariant_basis : bool) (nm : string) : list string :=
  map (component_name covariant_basis nm) [cx; cy; cz].

(** The scalar read primitives selected by [grow]. *)
Definition backend_read_int (rec : bool) := if rec then read_rec_int else read_int.
Definition backend_read_real (rec : bool) := if rec then read_rec_real else read_real.

(** The array read primitive selected by [grow]. *)
Definition backend_read_data (rec : bool) :=
  if rec then read_rec_data else read_data.

(** What a field is after [allocate], a backend read of its buffer with
    status [ok] that leaves [buf] there, and the zero assignment when the
    read failed. *)
Definition field_after_read {F} `{!FieldOps BoutReal F}
  (f : F) (ok : bool) (buf : list BoutReal) : F :=
  if ok then setData buf (allocate f)
  else assign real_zero (setData buf (allocate f)).

(** The same, with the answer of the array primitive selected by [g] on
    backend [b]; [dims] are the extents. *)
Definition member_after_read {F} `{!FieldOps BoutReal F}
  (g : bool) (nm : string) (dims : list Z) (f : F) (b : B) : F :=
  let r := backend_read_data g nm dims (getData (allocate f)) b in
  field_after_read f (fst (fst r)) (snd (fst r)).

(** The backend call that writes a field, nothing when the field is not
    allocated. *)
Definition field_write_calls {F} `{!FieldOps BoutReal F}
  (rec : bool) (dims : list Z) (nm : string) (f : F) : list (Call BoutReal) :=
  if isAllocated f then [Cwrite rec nm dims (PData (getData f))] else [].

(** The copy of a vector that [write] converts to the binding's basis. *)
Definition converted_copy {F} `{!VectorOps F} (cov : bool) (v : Vector F) : Vector F :=
  if cov then toCovariant v else toContravariant v.

(** The backend calls that write the three components of a vector. *)
Definition vector_write_calls {F} `{!FieldOps BoutReal F}
  (rec : bool) (dims : list Z) (cov : bool) (nm : string) (v : Vector F)
  : list (Call BoutReal) :=
  field_write_calls rec dims (component_name cov nm cx) (x v)
  ++ field_write_calls rec dims (component_name cov nm cy) (y v)
  ++ field_write_calls rec dims (component_name cov nm cz) (z v).

(** [keeps R m]: the states before and after [m] are related by [R]. *)
Definition keeps {A} (R : World -> World -> Prop) (m : M BoutReal Field2D Field3D B A)
  : Prop :=
  forall s, R s (snd (m s)).

(** The caller's memory is what it was. *)
Definition same_mem (s s' : World) : Prop := mem s' = mem s.

(** The backend calls so far are still there, with the new ones after. *)
Definition more_calls (s s' : World) : Prop :=
  exists t, calls s' = calls s ++ t.

(** [m] never looks at [enabled]: running it with the flag forced to [b]
    gives the same result and the same state, but for the flag. *)
Definition ignores_enabled {A} (m : M BoutReal Field2D Field3D B A) : Prop :=
  forall b s, m (set_enabled b s) = (fst (m s), set_enabled b (snd (m s))).

(** What is left of [read] once the backend has answered the open. *)
Definition read_after_open (tstart : BoutReal) (opened : bool) : M BoutReal Field2D Field3D B Z :=
  if negb opened then ret 1
  else
    valid <- file_is_valid ;;
    if negb valid then ret 1
    else
      file_setRecord (-1) ;;
      read_vars ;;
      file_close ;;
      add_elapsed tstart ;;
      ret 0.

(** The six sequences of an object. *)
Definition registry (d : Datafile) :=
  (int_arr d, BoutReal_arr d, f2d_arr d, f3d_arr d, v2d_arr d, v3d_arr d).

(** *** Sequences of registrations *)

(** The state a call of [add] leaves, returned or thrown. *)
Definition outcome_state (o : Outcome BoutReal Field2D Field3D B) : World :=
  match o with Returned s => s | Thrown _ s => s end.

(** One call of [add]: the overload and its arguments. *)
Inductive AddCall :=
| AddInt (i : addr) (nm : string) (g : Z)
| AddBoutReal (r : addr) (nm : string) (g : Z)
| AddField2D (f : fptr) (nm : string) (g : Z)
| AddField3D (f : fptr) (nm : string) (g : Z)
| AddVector2D (v : addr) (nm : string) (g : Z)
| AddVector3D (v : addr) (nm : string) (g : Z).

Definition add (c : AddCall) (s : World) : Outcome BoutReal Field2D Field3D B :=
  match c with
  | AddInt i nm g => add_int i nm g s
  | AddBoutReal r nm g => add_BoutReal r nm g s
  | AddField2D f nm g => add_Field2D f nm g s
  | AddField3D f nm g => add_Field3D f nm g s
  | AddVector2D v nm g => add_Vector2D v nm g s
  | AddVector3D v nm g => add_Vector3D v nm g s
  end.

Definition add_name (c : AddCall) : string :=
  match c with
  | AddInt _ nm _ | AddBoutReal _ nm _ | AddField2D _ nm _
  | AddField3D _ nm _ | AddVector2D _ nm _ | AddVector3D _ nm _ => nm
  end.

(** A caller that makes the calls one after the other and goes on after an
    exception. *)
Fixpoint add_all (cs : list AddCall) (s : World) : World :=
  match cs with
  | [] => s
  | c :: rest => add_all rest (outcome_state (add c s))
  end.

(** *** More relations between the states before and after *)

(** The object is what it was, the backend apart. *)
Definition same_object (s s' : World) : Prop :=
  set_file (file (self s)) (self s') = self s.

(** The clock has not been read and [wtime] is what it was. *)
Definition same_time (s s' : World) : Prop :=
  wtime s' = wtime s /\ clock s' = clock s.

Definition same_output (s s' : World) : Prop := output s' = output s.

Definition same_enabled (s s' : World) : Prop := enabled s' = enabled s.

(** The integer, or the real, at address [a] is what it was. *)
Definition keeps_int (a : addr) (s s' : World) : Prop :=
  m_int (mem s') a = m_int (mem s) a.

Definition keeps_real (a : addr) (s s' : World) : Prop :=
  m_real (mem s') a = m_real (mem s) a.

(** The basis flag of the 2D, or the 3D, vector at address [a] is what it
    was. *)
Definition keeps_flag2 (a : addr) (s s' : World) : Prop :=
  covariant (m_v2d (mem s') a) = covariant (m_v2d (mem s) a).

Definition keeps_flag3 (a : addr) (s s' : World) : Prop :=
  covariant (m_v3d (mem s') a) = covariant (m_v3d (mem s) a).

(** The field that [p] points to, or the whole 2D or 3D vector at address
    [a], is what it was; the log has only grown. *)
Definition keeps_f2d (p : fptr) (s s' : World) : Prop :=
  load_f2d p (mem s') = load_f2d p (mem s).

Definition keeps_f3d (p : fptr) (s s' : World) : Prop :=
  load_f3d p (mem s') = load_f3d p (mem s).

Definition keeps_vec2 (a : addr) (s s' : World) : Prop :=
  m_v2d (mem s') a = m_v2d (mem s) a.

Definition keeps_vec3 (a : addr) (s s' : World) : Prop :=
  m_v3d (mem s') a = m_v3d (mem s) a.


(** *** The states [read] goes through *)

(** The state in which the six loops of [read] start: the clock has been
    read, the backend has opened the formatted name, has been asked whether
    it is valid and for its latest record. *)
Definition opened_for_read (fmt : string) (ap : list va_arg) (s : World) : World :=
  snd (file_setRecord (-1)
    (snd (file_is_valid
      (snd (file_openr (vsprintf fmt ap) (snd (wall_time s))))))).

(** The states after the first, second, ... fifth loop, started in [s]. *)
Definition ints_read (s : World) : World :=
  snd (for_each read_int_var (int_arr (self s)) s).

Definition reals_read (s : World) : World :=
  snd (for_each read_real_var (BoutReal_arr (self s)) (ints_read s)).

Definition f2d_read (s : World) : World :=
  snd (for_each read_f2d_var (f2d_arr (self s)) (reals_read s)).

Definition f3d_read (s : World) : World :=
  snd (for_each read_f3d_var (f3d_arr (self s)) (f2d_read s)).

Definition v2d_read (s : World) : World :=
  snd (for_each read_v2d_var (v2d_arr (self s)) (f3d_read s)).

(** *** The backend calls of the six loops *)

(** The calls the loops of [read] make for the records of an object. *)
Definition read_vars_calls (d : Datafile) : list (Call BoutReal) :=
  map (fun it => Cread (grow it) TInt (name it) []) (int_arr d)
  ++ map (fun it => Cread (grow it) TReal (name it) []) (BoutReal_arr d)
  ++ map (fun it => Cread (grow it) TData (name it) [ngx mesh; ngy mesh])
         (f2d_arr d)
  ++ map (fun it => Cread (grow it) TData (name it)
                      [ngx mesh; ngy mesh; ngz mesh])
         (f3d_arr d)
  ++ flat_map (fun it =>
       map (fun n => Cread (grow it) TData n [ngx mesh; ngy mesh])
           (component_names (covar it) (name it)))
       (v2d_arr d)
  ++ flat_map (fun it =>
       map (fun n => Cread (grow it) TData n [ngx mesh; ngy mesh; ngz mesh])
           (component_names (covar it) (name it)))
       (v3d_arr d).

(** The calls the loops of [write] make for the records of an object, with
    the caller's memory [m]. *)
Definition write_vars_calls (d : Datafile) (m : Memory BoutReal Field2D Field3D)
  : list (Call BoutReal) :=
  map (fun it => Cwrite (grow it) (name it) [] (PInt (m_int m (ptr it))))
      (int_arr d)
  ++ map (fun it => Cwrite (grow it) (name it) [] (PReal (m_real m (ptr it))))
         (BoutReal_arr d)
  ++ flat_map (fun it =>
       field_write_calls (grow it) [ngx mesh; ngy mesh] (name it)
         (load_f2d (ptr it) m))
       (f2d_arr d)
  ++ flat_map (fun it =>
       field_write_calls (grow it) [ngx mesh; ngy mesh; ngz mesh] (name it)
         (load_f3d (ptr it) m))
       (f3d_arr d)
  ++ flat_map (fun it =>
       vector_write_calls (grow it) [ngx mesh; ngy mesh] (covar it) (name it)
         (converted_copy (covar it) (m_v2d m (ptr it))))
       (v2d_arr d)
  ++ flat_map (fun it =>
       vector_write_calls (grow it) [ngx mesh; ngy mesh; ngz mesh] (covar it)
         (name it) (converted_copy (covar it) (m_v3d m (ptr it))))
       (v3d_arr d).

End Observations.

(** ** A test double

    Concrete collaborators on which the drivers run: numbers are integers, a
    field is an optional buffer, the basis conversions only flip the flag,
    and the backend is one file kept as a list of named buffers whose open
    always succeeds and whose reads fail on a missing name. *)

Module Double.

Definition store := list (string * list Z).

Fixpoint find (nm : string) (b : store) : option (list Z) :=
  match b with
  | [] => None
  | (k, v) :: rest => if String.eqb nm k then Some v else find nm rest
  end.

#[global] Instance real_ops : RealOps Z :=
  {| real_zero := 0; real_add := Z.add; real_sub := Z.sub |}.

Definition field := option (list Z).

Definition buffer (f : field) : list Z :=
  match f with Some d => d | None => [] end.

#[global] Instance field_ops : FieldOps Z field :=
  {| isAllocated f := match f with Some _ => true | None => false end;
     allocate f := match f with Some _ => f | None => Some [9; 9] end;
     getData := buffer;
     setData d _ := Some d;
     assign r f := Some (map (fun _ => r) (buffer f)) |}.

#[global] Instance vector_ops : VectorOps field :=
  {| toCovariant := set_covariant true;
     toContravariant := set_covariant false |}.

Definition get_scalar (nm : string) (old : Z) (b : store) : bool * Z * store :=
  match find nm b with
  | Some (v :: _) => (true, v, b)
  | _ => (false, old, b)
  end.

Definition get_data (nm : string) (dims : list Z) (old : list Z) (b : store)
  : bool * list Z * store :=
  match find nm b with
  | Some d => (true, d, b)
  | None => (false, old, b)
  end.

Definition put_scalar (nm : string) (v : Z) (b : store) : bool * store :=
  (true, (nm, [v]) :: b).

Definition put_data (nm : string) (dims : list Z) (d : list Z) (b : store)
  : bool * store :=
  (true, (nm, d) :: b).

#[global] Instance data_format : DataFormat Z store :=
  {| openr _ b := (true, b);
     openw _ app b := (true, if app then b else []);
     is_valid b := (true, b);
     setRecord _ b := b;
     close b := b;
     setLowPrecision b := b;
     read_int := get_scalar;
     read_rec_int := get_scalar;
     read_real := get_scalar;
     read_rec_real := get_scalar;
     read_data := get_data;
     read_rec_data := get_data;
     write_int := put_scalar;
     write_rec_int := put_scalar;
     write_real := put_scalar;
     write_rec_real := put_scalar;
     write_data := put_data;
     write_rec_data := put_data |}.

(** The formatter of templates without directives. *)
#[global] Instance runtime : Runtime Z :=
  {| vsprintf fmt _ := fmt;
     MPI_Wtime n := Z.of_nat n;
     mesh := {| ngx := 2; ngy := 1; ngz := 1 |} |}.

Definition World := World Z field field store.

Definition unallocated : Vector field := mkVector None None None false.

Definition memory0 : Memory Z field field :=
  mkMemory (fun _ => 5) (fun _ => 7) (fun _ => None) (fun _ => None)
           (fun _ => unallocated) (fun _ => unallocated).

Definition empty_datafile (b : store) : Datafile store :=
  mkDatafile false b EmptyString [] [] [] [] [] [].

(** No variable registered, an empty file behind the backend. *)
Definition world0 : World :=
  mkWorld (empty_datafile []) memory0 true 0 0%nat [] [].

(** The state of an [Outcome], however the call ended. *)
Definition state_of (o : Outcome Z field field store) : World :=
  match o with Returned s => s | Thrown _ s => s end.

(** An integer ["n"] at address 1, a field ["f"] at address 2 and a vector
    ["v"] at address 3 are registered; the file holds none of them. *)
Definition world1 : World :=
  state_of (add_Vector2D 3%N "v" 0
    (state_of (add_Field2D (FieldAt 2%N) "f" 1
      (state_of (add_int 1%N "n" 0 world0))))).

End Double.

(** ** A backend that can refuse

    A second backend for the test double's numbers and fields: it opens, and
    reports itself valid, as its state says; it holds no variable and
    accepts every write. *)

Module Gate.

Record gate := { opens : bool; valid : bool }.

#[global] Instance data_format : DataFormat Z gate :=
  {| openr _ b := (opens b, b);
     openw _ _ b := (opens b, b);
     is_valid b := (valid b, b);
     setRecord _ b := b;
     close b := b;
     setLowPrecision b := b;
     read_int _ old b := (false, old, b);
     read_rec_int _ old b := (false, old, b);
     read_real _ old b := (false, old, b);
     read_rec_real _ old b := (false, old, b);
     read_data _ _ old b := (false, old, b);
     read_rec_data _ _ old b := (false, old, b);
     write_int _ _ b := (true, b);
     write_rec_int _ _ b := (true, b);
     write_real _ _ b := (true, b);
     write_rec_data _ _ _ b := (true, b);
     write_data _ _ _ b := (true, b);
     write_rec_real _ _ b := (true, b) |}.

(** Nothing registered, behind a backend in state [b]. *)
Definition world (b : gate) : World Z Double.field Double.field gate :=
  mkWorld (mkDatafile false b EmptyString [] [] [] [] [] [])
          Double.memory0 true 0 0%nat [] [].

End Gate.

(** ** A registry of every kind

    Three integers, a real, three 2D and three 3D fields, three 2D and three
    3D vectors, registered through [add] while the 2D vectors are
    contravariant and the 3D vectors covariant.  The file behind the backend
    holds some of the names only. *)

Module Scenario.

Import Double.

(** The fields that are allocated, by address. *)
Definition allocated_at (l : list (addr * list Z)) (a : addr) : field :=
  match List.find (fun p => N.eqb (fst p) a) l with
  | Some p => Some (snd p)
  | None => None
  end.

(** The caller's memory at registration. *)
Definition memory_reg : Memory Z field field :=
  mkMemory (fun _ => 5) (fun _ => 7)
           (allocated_at [(4%N, [1; 2]); (6%N, [2; 1])])
           (allocated_at [(7%N, [3; 4]); (9%N, [4; 3])])
           (fun _ => mkVector (Some [5; 6]) None (Some [7; 8]) false)
           (fun _ => mkVector None (Some [9; 9]) None true).

Definition file0 : store :=
  [("a", [1]); ("c", [3]); ("f1", [4; 4]); ("f3", [6; 6]);
   ("g1", [1; 2]); ("g3", [3; 4]);
   ("vx", [1; 1]); ("vz", [3; 3]); ("n_x", [1; 0]); ("n_y", [0; 1])].

Definition registrations : list AddCall :=
  [AddInt 1%N "a" 0; AddInt 2%N "b" 0; AddInt 3%N "c" 1;
   AddBoutReal 1%N "r" 0;
   AddField2D (FieldAt 4%N) "f1" 0; AddField2D (FieldAt 5%N) "f2" 1;
   AddField2D (FieldAt 6%N) "f3" 0;
   AddField3D (FieldAt 7%N) "g1" 0; AddField3D (FieldAt 8%N) "g2" 0;
   AddField3D (FieldAt 9%N) "g3" 0;
   AddVector2D 10%N "u" 0; AddVector2D 11%N "v" 0; AddVector2D 12%N "w" 1;
   AddVector3D 20%N "m" 0; AddVector3D 21%N "n" 0; AddVector3D 22%N "o" 0].

Definition registered : World :=
  add_all registrations
    (mkWorld (empty_datafile file0) memory_reg true 0 0%nat [] []).

(** The caller's memory later on: every vector has changed basis since it
    was registered. *)
Definition memory_now : Memory Z field field :=
  mkMemory (fun _ => 5) (fun _ => 7)
           (allocated_at [(4%N, [1; 2]); (6%N, [2; 1])])
           (allocated_at [(7%N, [3; 4]); (9%N, [4; 3])])
           (fun _ => mkVector (Some [5; 6]) None (Some [7; 8]) true)
           (fun _ => mkVector None (Some [9; 9]) None false).

Definition world : World := set_mem memory_now registered.

(** The records the statements are tried on. *)
Definition int_a : VarStr addr := mkVarStr 1%N "a" false false.
Definition int_b : VarStr addr := mkVarStr 2%N "b" false false.
Definition int_c : VarStr addr := mkVarStr 3%N "c" true false.
Definition f2d_1 : VarStr fptr := mkVarStr (FieldAt 4%N) "f1" false false.
Definition f2d_2 : VarStr fptr := mkVarStr (FieldAt 5%N) "f2" true false.
Definition f2d_3 : VarStr fptr := mkVarStr (FieldAt 6%N) "f3" false false.
Definition v2d_u : VarStr addr := mkVarStr 10%N "u" false false.
Definition v2d_v : VarStr addr := mkVarStr 11%N "v" false false.
Definition v2d_w : VarStr addr := mkVarStr 12%N "w" true false.
Definition v3d_m : VarStr addr := mkVarStr 20%N "m" false true.
Definition v3d_n : VarStr addr := mkVarStr 21%N "n" false true.
Definition v3d_o : VarStr addr := mkVarStr 22%N "o" false true.

End Scenario.

(** * Properties *)

Section Properties.

Context {BoutReal Field2D Field3D B : Type}.
Context `{!RealOps BoutReal}.
Context `{!FieldOps BoutReal Field2D} `{!FieldOps BoutReal Field3D}.
Context `{!VectorOps Field2D} `{!VectorOps Field3D}.
Context `{!DataFormat BoutReal B}.
Context `{!Runtime BoutReal}.

Local Abbreviation World := (World BoutReal Field2D Field3D B).
Local Abbreviation Datafile := (Datafile B).
Local Abbreviation M := (M BoutReal Field2D Field3D B).
Local Abbreviation keeps := (@keeps BoutReal Field2D Field3D B).
Local Abbreviation ignores_enabled := (@ignores_enabled BoutReal Field2D Field3D B).

(** ** Registration *)

Lemma name_in_spec {P} (nm : string) (l : list (VarStr P)) :
  name_in nm l = true <-> In nm (names l).
Proof.
  induction l as [|it rest IH]; simpl.
  - split; [discriminate | tauto].
  - destruct (String.eqb_spec nm (name it)) as [E|E].
    + split; auto.
    + rewrite IH. split; [tauto | intros [E'|H]; [congruence | exact H]].
Qed.

Lemma varAdded_spec (nm : string) (d : Datafile) :
  varAdded nm d = true <-> In nm (registered_names d).
Proof.
  unfold varAdded, registered_names.
  rewrite !in_app_iff, <- !name_in_spec.
  destruct (name_in nm (int_arr d)), (name_in nm (BoutReal_arr d)),
    (name_in nm (f2d_arr d)), (name_in nm (f3d_arr d)),
    (name_in nm (v2d_arr d)), (name_in nm (v3d_arr d));
    intuition congruence.
Qed.

Lemma varAdded_fresh (nm : string) (d : Datafile) :
  ~ In nm (registered_names d) -> varAdded nm d = false.
Proof.
  intros H. destruct (varAdded nm d) eqn:E; [|reflexivity].
  apply varAdded_spec in E. contradiction.
Qed.

Lemma grow_flag_spec (g : Z) : grow_flag g = true <-> 0 < g.
Proof.
  unfold grow_flag. destruct (Z.gtb_spec g 0) as [Hg|Hg]; split;
    intros; try lia; try reflexivity; discriminate.
Qed.

Ltac unfold_add :=
  unfold add_int, add_BoutReal, add_Field2D, add_Field3D, add_Vector2D,
    add_Vector3D.

(** C2. An [add] whose name is already in one of the six sequences throws
    the exception whose message quotes that name, and leaves the state (so
    the six sequences) as it was; an [add] with a fresh name returns, and
    the registry it leaves is the old one with one record, for that pointer
    and name, appended to the sequence of the kind. *)
Theorem add_duplicate_throws_fresh_appends
    (s : World) (nm : string) (g : Z) (i r : addr) (f2 f3 : fptr) (v2 v3 : addr) :
  (In nm (registered_names (self s)) ->
     message (already_added nm) = "Variable '" +:+ nm +:+ "' already added to Datafile"
     /\ add_int i nm g s = Thrown (already_added nm) s
     /\ add_BoutReal r nm g s = Thrown (already_added nm) s
     /\ add_Field2D f2 nm g s = Thrown (already_added nm) s
     /\ add_Field3D f3 nm g s = Thrown (already_added nm) s
     /\ add_Vector2D v2 nm g s = Thrown (already_added nm) s
     /\ add_Vector3D v3 nm g s = Thrown (already_added nm) s)
  /\
  (~ In nm (registered_names (self s)) ->
     (exists s' d, add_int i nm g s = Returned s' /\ ptr d = i /\ name d = nm
        /\ registry (self s') =
           (int_arr (self s) ++ [d], BoutReal_arr (self s), f2d_arr (self s),
            f3d_arr (self s), v2d_arr (self s), v3d_arr (self s)))
     /\
     (exists s' d, add_BoutReal r nm g s = Returned s' /\ ptr d = r /\ name d = nm
        /\ registry (self s') =
           (int_arr (self s), BoutReal_arr (self s) ++ [d], f2d_arr (self s),
            f3d_arr (self s), v2d_arr (self s), v3d_arr (self s)))
     /\
     (exists s' d, add_Field2D f2 nm g s = Returned s' /\ ptr d = f2 /\ name d = nm
        /\ registry (self s') =
           (int_arr (self s), BoutReal_arr (self s), f2d_arr (self s) ++ [d],
            f3d_arr (self s), v2d_arr (self s), v3d_arr (self s)))
     /\
     (exists s' d, add_Field3D f3 nm g s = Returned s' /\ ptr d = f3 /\ name d = nm
        /\ registry (self s') =
           (int_arr (self s), BoutReal_arr (self s), f2d_arr (self s),
            f3d_arr (self s) ++ [d], v2d_arr (self s), v3d_arr (self s)))
     /\
     (exists s' d, add_Vector2D v2 nm g s = Returned s' /\ ptr d = v2 /\ name d = nm
        /\ covar d = covariant (m_v2d (mem s) v2)
        /\ registry (self s') =
           (int_arr (self s), BoutReal_arr (self s), f2d_arr (self s),
            f3d_arr (self s), v2d_arr (self s) ++ [d], v3d_arr (self s)))
     /\
     (exists s' d, add_Vector3D v3 nm g s = Returned s' /\ ptr d = v3 /\ name d = nm
        /\ covar d = covariant (m_v3d (mem s) v3)
        /\ registry (self s') =
           (int_arr (self s), BoutReal_arr (self s), f2d_arr (self s),
            f3d_arr (self s), v2d_arr (self s), v3d_arr (self s) ++ [d]))).
Proof.
  split.
  - intros Hin. apply varAdded_spec in Hin.
    unfold_add. rewrite Hin. repeat split.
  - intros Hfresh. apply varAdded_fresh in Hfresh.
    unfold_add. rewrite Hfresh.
    repeat apply conj; eexists _, _; repeat apply conj;
      try reflexivity; reflexivity.
Qed.

(** C10. Whenever an [add] returns, the record it appended has [grow] set
    exactly when the integer argument is strictly positive. *)
Theorem grow_recorded_iff_positive
    (s s' : World) (nm : string) (g : Z) (i r : addr) (f2 f3 : fptr) (v2 v3 : addr) :
  (add_int i nm g s = Returned s' ->
     exists d, int_arr (self s') = int_arr (self s) ++ [d]
               /\ (grow d = true <-> 0 < g))
  /\ (add_BoutReal r nm g s = Returned s' ->
     exists d, BoutReal_arr (self s') = BoutReal_arr (self s) ++ [d]
               /\ (grow d = true <-> 0 < g))
  /\ (add_Field2D f2 nm g s = Returned s' ->
     exists d, f2d_arr (self s') = f2d_arr (self s) ++ [d]
               /\ (grow d = true <-> 0 < g))
  /\ (add_Field3D f3 nm g s = Returned s' ->
     exists d, f3d_arr (self s') = f3d_arr (self s) ++ [d]
               /\ (grow d = true <-> 0 < g))
  /\ (add_Vector2D v2 nm g s = Returned s' ->
     exists d, v2d_arr (self s') = v2d_arr (self s) ++ [d]
               /\ (grow d = true <-> 0 < g))
  /\ (add_Vector3D v3 nm g s = Returned s' ->
     exists d, v3d_arr (self s') = v3d_arr (self s) ++ [d]
               /\ (grow d = true <-> 0 < g)).
Proof.
  unfold_add.
  repeat apply conj; destruct (varAdded nm (self s)); try discriminate;
    intros [= <-]; eexists; (split; [reflexivity | apply grow_flag_spec]).
Qed.

(** ** The monad *)

Lemma bind_eq {A C} (m : M A) (k : A -> M C) (s : World) :
  bind m k s = k (fst (m s)) (snd (m s)).
Proof. reflexivity. Qed.

Lemma for_each_cons {T} (body : T -> M unit) (it : T) (rest : list T) (s : World) :
  for_each body (it :: rest) s = for_each body rest (snd (body it s)).
Proof. reflexivity. Qed.

Lemma for_each_app {T} (body : T -> M unit) (l1 l2 : list T) (s : World) :
  for_each body (l1 ++ l2) s = for_each body l2 (snd (for_each body l1 s)).
Proof.
  revert s. induction l1 as [|it rest IH]; intros s.
  - reflexivity.
  - simpl app. rewrite !for_each_cons. apply IH.
Qed.

(** The loop reaches the record in the middle of the sequence with the
    state the records before it leave, and goes on with the records after
    it from the state the body leaves. *)
Lemma for_each_middle {T} (body : T -> M unit) (pre : list T) (it : T)
    (post : list T) (s : World) :
  for_each body (pre ++ it :: post) s =
  for_each body post (snd (body it (snd (for_each body pre s)))).
Proof. rewrite for_each_app, for_each_cons. reflexivity. Qed.

(** ** The entry points with a null template, and the disabled write *)

Lemma write_disabled (filename : string) (app : bool) (s : World) :
  enabled s = false -> write filename app s = (true, s).
Proof.
  intros Hen. unfold write. rewrite bind_eq. unfold gets. simpl.
  rewrite Hen. reflexivity.
Qed.

(** C3. With [enabled] false, [write] returns [true] and the state, the
    list of backend calls included, is the one it started from. *)
Theorem write_disabled_touches_nothing
    (filename : string) (app : bool) (s : World) :
  enabled s = false ->
  fst (write filename app s) = true
  /\ snd (write filename app s) = s
  /\ calls (snd (write filename app s)) = calls s.
Proof.
  intros Hen. rewrite (write_disabled filename app s Hen). repeat split.
Qed.

(** ** Relations kept by a computation *)

Section Keeps.

Variable R : World -> World -> Prop.
Hypothesis R_refl : forall s, R s s.
Hypothesis R_trans : forall a b c, R a b -> R b c -> R a c.

Lemma keeps_ret {A} (a : A) : keeps R (ret a).
Proof. intros s. apply R_refl. Qed.

Lemma keeps_gets {A} (f : World -> A) : keeps R (gets f).
Proof. intros s. apply R_refl. Qed.

Lemma keeps_bind {A C} (m : M A) (k : A -> M C) :
  keeps R m -> (forall a, keeps R (k a)) -> keeps R (bind m k).
Proof.
  intros Hm Hk s. rewrite bind_eq.
  apply R_trans with (snd (m s)); [apply Hm | apply Hk].
Qed.

Lemma keeps_for_each {T} (body : T -> M unit) (l : list T) :
  (forall it, keeps R (body it)) -> keeps R (for_each body l).
Proof.
  intros Hbody. induction l as [|it rest IH]; intros s.
  - apply R_refl.
  - rewrite for_each_cons.
    apply R_trans with (snd (body it s)); [apply Hbody | apply IH].
Qed.

End Keeps.

Lemma same_mem_refl (s : World) : same_mem s s.
Proof. reflexivity. Qed.

Lemma same_mem_trans (a b c : World) : same_mem a b -> same_mem b c -> same_mem a c.
Proof. unfold same_mem. congruence. Qed.

Lemma more_calls_refl (s : World) : more_calls s s.
Proof. exists []. symmetry. apply app_nil_r. Qed.

Lemma more_calls_trans (a b c : World) :
  more_calls a b -> more_calls b c -> more_calls a c.
Proof.
  intros [t1 H1] [t2 H2]. exists (t1 ++ t2).
  rewrite H2, H1. symmetry. apply app_assoc.
Qed.

(** Walks down a computation built from [bind], [ret], [gets], [for_each]
    and branches, and hands the elementary effects to [leaf]. *)
Ltac keeps_walk refl trans leaf :=
  repeat first
    [ match goal with
      | |- keeps _ (ret _) => apply keeps_ret; exact refl
      | |- keeps _ (gets _) => apply keeps_gets; exact refl
      | |- keeps _ (bind _ _) => apply keeps_bind; [exact trans | | intros ?]
      | |- keeps _ (for_each _ _) =>
          apply keeps_for_each; [exact refl | exact trans | intros ?; cbv beta]
      | |- keeps _ (if ?b then _ else _) => destruct b
      | |- keeps _ (match ?o with Some _ => _ | None => _ end) => destruct o
      | |- keeps _ (let _ := _ in _) => cbv zeta
      end
    | leaf ].

Ltac unfold_drivers :=
  unfold read, read_vars, read_int_var, read_real_var, read_f2d_var,
    read_f3d_var, read_v2d_var, read_v3d_var, read_f2d, read_f3d,
    write_fmt, append, write, write_vars, write_int_var, write_real_var,
    write_f2d_var, write_f3d_var, write_v2d_var, write_v3d_var, write_f2d,
    write_f3d, add_elapsed, output_write.

Ltac calls_leaf :=
  intros ?;
  first [ exists []; symmetry; apply app_nil_r
        | eexists [_]; reflexivity ].

Ltac mem_leaf := intros ?; reflexivity.

(** No entry point ever removes a backend call from the list. *)
Lemma read_more_calls (format : option string) (ap : list va_arg) :
  keeps more_calls (read format ap).
Proof.
  unfold_drivers.
  keeps_walk more_calls_refl more_calls_trans calls_leaf.
Qed.

Lemma write_more_calls (filename : string) (app : bool) :
  keeps more_calls (write filename app).
Proof.
  unfold_drivers.
  keeps_walk more_calls_refl more_calls_trans calls_leaf.
Qed.

(** [write] stores nothing in the caller's memory. *)
Lemma write_same_mem (filename : string) (app : bool) :
  keeps same_mem (write filename app).
Proof.
  unfold_drivers.
  keeps_walk same_mem_refl same_mem_trans mem_leaf.
Qed.

Lemma write_v2d_var_same_mem (it : VarStr addr) : keeps same_mem (write_v2d_var it).
Proof.
  unfold_drivers.
  keeps_walk same_mem_refl same_mem_trans mem_leaf.
Qed.

Lemma write_v3d_var_same_mem (it : VarStr addr) : keeps same_mem (write_v3d_var it).
Proof.
  unfold_drivers.
  keeps_walk same_mem_refl same_mem_trans mem_leaf.
Qed.

(** ** [read] and the [enabled] flag *)

Lemma ignores_enabled_ret {A} (a : A) : ignores_enabled (ret a).
Proof. intros b s. reflexivity. Qed.

Lemma ignores_enabled_bind {A C} (m : M A) (k : A -> M C) :
  ignores_enabled m -> (forall a, ignores_enabled (k a)) ->
  ignores_enabled (bind m k).
Proof.
  intros Hm Hk b s. rewrite !bind_eq, Hm. cbn [fst snd]. apply Hk.
Qed.

Lemma ignores_enabled_for_each {T} (body : T -> M unit) (l : list T) :
  (forall it, ignores_enabled (body it)) -> ignores_enabled (for_each body l).
Proof.
  intros Hbody. induction l as [|it rest IH]; intros b s.
  - reflexivity.
  - rewrite !for_each_cons, Hbody. cbn [fst snd]. apply IH.
Qed.

Ltac ignores_walk :=
  repeat first
    [ match goal with
      | |- ignores_enabled (ret _) => apply ignores_enabled_ret
      | |- ignores_enabled (bind _ _) =>
          apply ignores_enabled_bind; [ | intros ?]
      | |- ignores_enabled (for_each _ _) =>
          apply ignores_enabled_for_each; intros ?; cbv beta
      | |- ignores_enabled (if ?b then _ else _) => destruct b
      | |- ignores_enabled (match ?o with Some _ => _ | None => _ end) =>
          destruct o
      | |- ignores_enabled (let _ := _ in _) => cbv zeta
      end
    | intros ? ?; reflexivity ].

Lemma read_ignores_enabled_flag (format : option string) (ap : list va_arg) :
  ignores_enabled (read format ap).
Proof. unfold_drivers. ignores_walk. Qed.

Lemma read_after_open_more_calls (tstart : BoutReal) (opened : bool) :
  keeps more_calls (read_after_open tstart opened).
Proof.
  unfold read_after_open. unfold_drivers.
  keeps_walk more_calls_refl more_calls_trans calls_leaf.
Qed.

(** With a template, the first thing [read] asks of the backend is to open
    the formatted name. *)
Lemma read_opens_first (fmt : string) (ap : list va_arg) (s : World) :
  exists rest,
    calls (snd (read (Some fmt) ap s)) =
    calls s ++ Copenr (vsprintf fmt ap) :: rest.
Proof.
  destruct (read_after_open_more_calls
              (fst (wall_time s))
              (fst (file_openr (vsprintf fmt ap) (snd (wall_time s))))
              (snd (file_openr (vsprintf fmt ap) (snd (wall_time s)))))
    as [rest Hrest].
  exists rest. change (snd (read (Some fmt) ap s)) with
    (snd (read_after_open
            (fst (wall_time s))
            (fst (file_openr (vsprintf fmt ap) (snd (wall_time s))))
            (snd (file_openr (vsprintf fmt ap) (snd (wall_time s)))))).
  rewrite Hrest. cbn [file_openr snd record_call calls set_calls].
  rewrite <- app_assoc. reflexivity.
Qed.

(** ** The status the drivers return *)

Ltac run_bind := repeat (rewrite bind_eq; cbv beta).

(** After a successful open and validity check nothing can change the
    status of [read] any more. *)
Lemma read_status_ok (fmt : string) (ap : list va_arg) (s : World) :
  fst (openr (vsprintf fmt ap) (file (self s))) = true ->
  fst (is_valid (snd (openr (vsprintf fmt ap) (file (self s))))) = true ->
  fst (read (Some fmt) ap s) = 0.
Proof.
  intros Hopen Hvalid. unfold read. cbv zeta.
  rewrite bind_eq. cbv beta. rewrite bind_eq. cbv beta.
  change (fst (file_openr (vsprintf fmt ap) (snd (wall_time s))))
    with (fst (openr (vsprintf fmt ap) (file (self s)))).
  rewrite Hopen. cbn [negb]. rewrite bind_eq. cbv beta.
  change (fst (file_is_valid (snd (file_openr (vsprintf fmt ap) (snd (wall_time s))))))
    with (fst (is_valid (snd (openr (vsprintf fmt ap) (file (self s)))))).
  rewrite Hvalid. cbn [negb]. run_bind. reflexivity.
Qed.

Lemma write_status_ok (filename : string) (app : bool) (s : World) :
  enabled s = true ->
  fst (openw filename app (file (self s))) = true ->
  fst (is_valid (snd (openw filename app (file (self s))))) = true ->
  fst (write filename app s) = true.
Proof.
  intros Hen Hopen Hvalid. unfold write.
  rewrite bind_eq. cbv beta. cbn [gets fst snd]. rewrite Hen. cbn [negb].
  rewrite bind_eq. cbv beta. rewrite bind_eq. cbv beta.
  change (fst (file_openw filename app (snd (wall_time s))))
    with (fst (openw filename app (file (self s)))).
  rewrite Hopen. cbn [negb]. rewrite bind_eq. cbv beta.
  change (fst (file_is_valid (snd (file_openw filename app (snd (wall_time s))))))
    with (fst (is_valid (snd (openw filename app (file (self s)))))).
  rewrite Hvalid. cbn [negb]. run_bind. reflexivity.
Qed.

Lemma wall_time_calls (s : World) : calls (snd (wall_time s)) = calls s.
Proof. reflexivity. Qed.

Lemma file_openr_calls (filename : string) (s : World) :
  calls (snd (file_openr filename s)) = calls s ++ [Copenr filename].
Proof. reflexivity. Qed.

Lemma file_is_valid_calls (s : World) :
  calls (snd (file_is_valid s)) = calls s ++ [Cis_valid].
Proof. reflexivity. Qed.

Lemma file_setRecord_calls (n : Z) (s : World) :
  calls (snd (file_setRecord n s)) = calls s ++ [CsetRecord n].
Proof. reflexivity. Qed.

Lemma file_close_calls (s : World) :
  calls (snd (file_close s)) = calls s ++ [Cclose].
Proof. reflexivity. Qed.

Lemma add_elapsed_calls (tstart : BoutReal) (s : World) :
  calls (snd (add_elapsed tstart s)) = calls s.
Proof. reflexivity. Qed.

(** After a successful open and validity check [read] selects the latest
    record, runs the six loops, closes the backend and accounts the time. *)
Lemma read_transfers (fmt : string) (ap : list va_arg) (s : World) :
  fst (openr (vsprintf fmt ap) (file (self s))) = true ->
  fst (is_valid (snd (openr (vsprintf fmt ap) (file (self s))))) = true ->
  snd (read (Some fmt) ap s) =
  snd (add_elapsed (fst (wall_time s))
    (snd (file_close
      (snd (read_vars
        (snd (file_setRecord (-1)
          (snd (file_is_valid
            (snd (file_openr (vsprintf fmt ap) (snd (wall_time s))))))))))))).
Proof.
  intros Hopen Hvalid. unfold read. cbv zeta.
  rewrite bind_eq. cbv beta. rewrite bind_eq. cbv beta.
  change (fst (file_openr (vsprintf fmt ap) (snd (wall_time s))))
    with (fst (openr (vsprintf fmt ap) (file (self s)))).
  rewrite Hopen. cbn [negb]. rewrite bind_eq. cbv beta.
  change (fst (file_is_valid (snd (file_openr (vsprintf fmt ap) (snd (wall_time s))))))
    with (fst (is_valid (snd (openr (vsprintf fmt ap) (file (self s)))))).
  rewrite Hvalid. cbn [negb]. run_bind. reflexivity.
Qed.

(** ** Loads and stores through field pointers *)

Lemma get_set_comp {F} (c : comp) (f : F) (v : Vector F) :
  get_comp c (set_comp c f v) = f.
Proof. destruct c; reflexivity. Qed.

Lemma get_set_comp_ne {F} (c c' : comp) (f : F) (v : Vector F) :
  c <> c' -> get_comp c' (set_comp c f v) = get_comp c' v.
Proof. destruct c, c'; intros Hne; try reflexivity; contradiction. Qed.

Lemma covariant_set_comp {F} (c : comp) (f : F) (v : Vector F) :
  covariant (set_comp c f v) = covariant v.
Proof. destruct c; reflexivity. Qed.

Lemma load_store_f2d (p : fptr) (f : Field2D) (m : Memory BoutReal Field2D Field3D) :
  load_f2d p (store_f2d p f m) = f.
Proof.
  destruct p as [a|a c]; cbn; rewrite fn_lookup_insert;
    [reflexivity | apply get_set_comp].
Qed.

Lemma load_store_f3d (p : fptr) (f : Field3D) (m : Memory BoutReal Field2D Field3D) :
  load_f3d p (store_f3d p f m) = f.
Proof.
  destruct p as [a|a c]; cbn; rewrite fn_lookup_insert;
    [reflexivity | apply get_set_comp].
Qed.

Ltac load_store_ne Hne :=
  match goal with
  | |- context [ <[?a := _]> _ ?a' ] =>
      destruct (decide (a = a')) as [->|Ha];
      [ rewrite fn_lookup_insert | rewrite (fn_lookup_insert_ne _ _ _ _ Ha) ]
  end;
  try reflexivity;
  try (apply get_set_comp_ne; intros ->; apply Hne; reflexivity);
  try (exfalso; apply Hne; reflexivity).

Lemma load_store_f2d_ne (p p' : fptr) (f : Field2D)
    (m : Memory BoutReal Field2D Field3D) :
  p <> p' -> load_f2d p' (store_f2d p f m) = load_f2d p' m.
Proof.
  intros Hne. destruct p as [a|a c], p' as [a'|a' c']; cbn;
    try reflexivity; load_store_ne Hne.
Qed.

Lemma load_store_f3d_ne (p p' : fptr) (f : Field3D)
    (m : Memory BoutReal Field2D Field3D) :
  p <> p' -> load_f3d p' (store_f3d p f m) = load_f3d p' m.
Proof.
  intros Hne. destruct p as [a|a c], p' as [a'|a' c']; cbn;
    try reflexivity; load_store_ne Hne.
Qed.

Lemma covariant_store_f2d (p : fptr) (f : Field2D)
    (m : Memory BoutReal Field2D Field3D) (a : addr) :
  covariant (m_v2d (store_f2d p f m) a) = covariant (m_v2d m a).
Proof.
  destruct p as [a0|a0 c]; cbn; [reflexivity|].
  destruct (decide (a0 = a)) as [->|Ha].
  - rewrite fn_lookup_insert. apply covariant_set_comp.
  - rewrite fn_lookup_insert_ne by exact Ha. reflexivity.
Qed.

Lemma covariant_store_f3d (p : fptr) (f : Field3D)
    (m : Memory BoutReal Field2D Field3D) (a : addr) :
  covariant (m_v3d (store_f3d p f m) a) = covariant (m_v3d m a).
Proof.
  destruct p as [a0|a0 c]; cbn; [reflexivity|].
  destruct (decide (a0 = a)) as [->|Ha].
  - rewrite fn_lookup_insert. apply covariant_set_comp.
  - rewrite fn_lookup_insert_ne by exact Ha. reflexivity.
Qed.

(** ** What [read_f2d] and [read_f3d] do *)

Ltac world_cbn :=
  cbn [modify ret gets fst snd negb
       file_read_f2d file_read_f3d file_write_data
       poke_f2d poke_f3d poke_v2d poke_v3d poke_int poke_real
       backend record_call
       set_self set_mem set_calls set_output set_file
       self mem calls output file enabled wtime clock].

Ltac read_field_prelude g :=
  unfold read_f2d, read_f3d, output_write, backend_read_data, field_after_read;
  destruct g; run_bind; world_cbn;
  rewrite ?load_store_f2d, ?load_store_f3d;
  match goal with |- context [negb ?b] => destruct b end;
  world_cbn; run_bind; world_cbn;
  rewrite ?load_store_f2d, ?load_store_f3d.

Section ReadField2D.

Variables (nm : string) (f : fptr) (g : bool) (s : World).

Let f0 := load_f2d f (mem s).
Let r := backend_read_data g nm [ngx mesh; ngy mesh]
           (getData (allocate f0)) (file (self s)).

Lemma read_f2d_status : fst (read_f2d nm f g s) = fst (fst r).
Proof. subst r f0. read_field_prelude g; reflexivity. Qed.

Lemma read_f2d_calls :
  calls (snd (read_f2d nm f g s)) =
  calls s ++ [Cread g TData nm [ngx mesh; ngy mesh]].
Proof. subst r f0. read_field_prelude g; reflexivity. Qed.


Lemma read_f2d_target :
  load_f2d f (mem (snd (read_f2d nm f g s))) =
  field_after_read f0 (fst (fst r)) (snd (fst r)).
Proof. subst r f0. read_field_prelude g; reflexivity. Qed.

Lemma read_f2d_elsewhere (f' : fptr) :
  f <> f' ->
  load_f2d f' (mem (snd (read_f2d nm f g s))) = load_f2d f' (mem s).
Proof.
  intros Hne. read_field_prelude g;
    rewrite !load_store_f2d_ne by exact Hne; reflexivity.
Qed.

Lemma read_f2d_covariant (a : addr) :
  covariant (m_v2d (mem (snd (read_f2d nm f g s))) a) =
  covariant (m_v2d (mem s) a).
Proof.
  read_field_prelude g; rewrite !covariant_store_f2d; reflexivity.
Qed.

End ReadField2D.

Section ReadField3D.

Variables (nm : string) (f : fptr) (g : bool) (s : World).

Let f0 := load_f3d f (mem s).
Let r := backend_read_data g nm [ngx mesh; ngy mesh; ngz mesh]
           (getData (allocate f0)) (file (self s)).

Lemma read_f3d_status : fst (read_f3d nm f g s) = fst (fst r).
Proof. subst r f0. read_field_prelude g; reflexivity. Qed.

Lemma read_f3d_calls :
  calls (snd (read_f3d nm f g s)) =
  calls s ++ [Cread g TData nm [ngx mesh; ngy mesh; ngz mesh]].
Proof. subst r f0. read_field_prelude g; reflexivity. Qed.


Lemma read_f3d_target :
  load_f3d f (mem (snd (read_f3d nm f g s))) =
  field_after_read f0 (fst (fst r)) (snd (fst r)).
Proof. subst r f0. read_field_prelude g; reflexivity. Qed.

Lemma read_f3d_elsewhere (f' : fptr) :
  f <> f' ->
  load_f3d f' (mem (snd (read_f3d nm f g s))) = load_f3d f' (mem s).
Proof.
  intros Hne. read_field_prelude g;
    rewrite !load_store_f3d_ne by exact Hne; reflexivity.
Qed.

Lemma read_f3d_covariant (a : addr) :
  covariant (m_v3d (mem (snd (read_f3d nm f g s))) a) =
  covariant (m_v3d (mem s) a).
Proof.
  read_field_prelude g; rewrite !covariant_store_f3d; reflexivity.
Qed.

End ReadField3D.

(** ** Failed reads of scalars *)



Lemma read_f2d_var_state (it : VarStr fptr) (s : World) :
  snd (read_f2d_var it s) = snd (read_f2d (name it) (ptr it) (grow it) s).
Proof. reflexivity. Qed.

Lemma read_f3d_var_state (it : VarStr fptr) (s : World) :
  snd (read_f3d_var it s) = snd (read_f3d (name it) (ptr it) (grow it) s).
Proof. reflexivity. Qed.

(** ** Vectors on read *)

Ltac unfold_names := unfold component_names, component_name, suffix.

Lemma read_v2d_var_calls (it : VarStr addr) (s : World) :
  calls (snd (read_v2d_var it s)) =
  calls s ++ map (fun n => Cread (grow it) TData n [ngx mesh; ngy mesh])
                 (component_names (covar it) (name it)).
Proof.
  unfold read_v2d_var. unfold_names.
  destruct (covar it); run_bind; world_cbn;
    rewrite !read_f2d_calls, <- !app_assoc; reflexivity.
Qed.

Lemma read_v3d_var_calls (it : VarStr addr) (s : World) :
  calls (snd (read_v3d_var it s)) =
  calls s ++ map (fun n => Cread (grow it) TData n [ngx mesh; ngy mesh; ngz mesh])
                 (component_names (covar it) (name it)).
Proof.
  unfold read_v3d_var. unfold_names.
  destruct (covar it); run_bind; world_cbn;
    rewrite !read_f3d_calls, <- !app_assoc; reflexivity.
Qed.

Section ReadVector2D.

Variables (it : VarStr addr) (s : World).

Let n (c : comp) := component_name (covar it) (name it) c.
Let s1 := snd (read_f2d (n cx) (CompAt (ptr it) cx) (grow it) s).
Let s2 := snd (read_f2d (n cy) (CompAt (ptr it) cy) (grow it) s1).
Let s3 := snd (read_f2d (n cz) (CompAt (ptr it) cz) (grow it) s2).

Lemma read_v2d_var_target :
  m_v2d (mem (snd (read_v2d_var it s))) (ptr it) =
  set_covariant (covar it) (m_v2d (mem s3) (ptr it)).
Proof.
  subst s3 s2 s1 n. unfold read_v2d_var. unfold_names.
  destruct (covar it); run_bind; world_cbn; cbn [m_v2d set_m_v2d];
    rewrite fn_lookup_insert; reflexivity.
Qed.

Lemma read_v2d_var_members :
  let v0 := m_v2d (mem s) (ptr it) in
  let v' := m_v2d (mem (snd (read_v2d_var it s))) (ptr it) in
  let dims := [ngx mesh; ngy mesh] in
  x v' = member_after_read (grow it) (n cx) dims (x v0) (file (self s))
  /\ y v' = member_after_read (grow it) (n cy) dims (y v0) (file (self s1))
  /\ z v' = member_after_read (grow it) (n cz) dims (z v0) (file (self s2)).
Proof.
  intros v0 v' dims. subst v'. rewrite read_v2d_var_target.
  unfold member_after_read. repeat apply conj.
  - change (x (set_covariant (covar it) (m_v2d (mem s3) (ptr it))))
      with (load_f2d (CompAt (ptr it) cx) (mem s3)).
    subst s3. rewrite read_f2d_elsewhere by discriminate.
    subst s2. rewrite read_f2d_elsewhere by discriminate.
    subst s1. rewrite read_f2d_target. reflexivity.
  - change (y (set_covariant (covar it) (m_v2d (mem s3) (ptr it))))
      with (load_f2d (CompAt (ptr it) cy) (mem s3)).
    subst s3. rewrite read_f2d_elsewhere by discriminate.
    subst s2. rewrite read_f2d_target.
    subst s1. rewrite read_f2d_elsewhere by discriminate. reflexivity.
  - change (z (set_covariant (covar it) (m_v2d (mem s3) (ptr it))))
      with (load_f2d (CompAt (ptr it) cz) (mem s3)).
    subst s3. rewrite read_f2d_target.
    subst s2. rewrite read_f2d_elsewhere by discriminate.
    subst s1. rewrite read_f2d_elsewhere by discriminate. reflexivity.
Qed.

End ReadVector2D.

Section ReadVector3D.

Variables (it : VarStr addr) (s : World).

Let n (c : comp) := component_name (covar it) (name it) c.
Let s1 := snd (read_f3d (n cx) (CompAt (ptr it) cx) (grow it) s).
Let s2 := snd (read_f3d (n cy) (CompAt (ptr it) cy) (grow it) s1).
Let s3 := snd (read_f3d (n cz) (CompAt (ptr it) cz) (grow it) s2).

Lemma read_v3d_var_target :
  m_v3d (mem (snd (read_v3d_var it s))) (ptr it) =
  set_covariant (covar it) (m_v3d (mem s3) (ptr it)).
Proof.
  subst s3 s2 s1 n. unfold read_v3d_var. unfold_names.
  destruct (covar it); run_bind; world_cbn; cbn [m_v3d set_m_v3d];
    rewrite fn_lookup_insert; reflexivity.
Qed.

Lemma read_v3d_var_members :
  let v0 := m_v3d (mem s) (ptr it) in
  let v' := m_v3d (mem (snd (read_v3d_var it s))) (ptr it) in
  let dims := [ngx mesh; ngy mesh; ngz mesh] in
  x v' = member_after_read (grow it) (n cx) dims (x v0) (file (self s))
  /\ y v' = member_after_read (grow it) (n cy) dims (y v0) (file (self s1))
  /\ z v' = member_after_read (grow it) (n cz) dims (z v0) (file (self s2)).
Proof.
  intros v0 v' dims. subst v'. rewrite read_v3d_var_target.
  unfold member_after_read. repeat apply conj.
  - change (x (set_covariant (covar it) (m_v3d (mem s3) (ptr it))))
      with (load_f3d (CompAt (ptr it) cx) (mem s3)).
    subst s3. rewrite read_f3d_elsewhere by discriminate.
    subst s2. rewrite read_f3d_elsewhere by discriminate.
    subst s1. rewrite read_f3d_target. reflexivity.
  - change (y (set_covariant (covar it) (m_v3d (mem s3) (ptr it))))
      with (load_f3d (CompAt (ptr it) cy) (mem s3)).
    subst s3. rewrite read_f3d_elsewhere by discriminate.
    subst s2. rewrite read_f3d_target.
    subst s1. rewrite read_f3d_elsewhere by discriminate. reflexivity.
  - change (z (set_covariant (covar it) (m_v3d (mem s3) (ptr it))))
      with (load_f3d (CompAt (ptr it) cz) (mem s3)).
    subst s3. rewrite read_f3d_target.
    subst s2. rewrite read_f3d_elsewhere by discriminate.
    subst s1. rewrite read_f3d_elsewhere by discriminate. reflexivity.
Qed.

End ReadVector3D.

(** ** Fields and vectors on write *)

Lemma write_f2d_unallocated (nm : string) (f : Field2D) (g : bool) (s : World) :
  isAllocated f = false -> write_f2d nm f g s = (false, s).
Proof. intros Hf. unfold write_f2d. rewrite Hf. reflexivity. Qed.

Lemma write_f3d_unallocated (nm : string) (f : Field3D) (g : bool) (s : World) :
  isAllocated f = false -> write_f3d nm f g s = (false, s).
Proof. intros Hf. unfold write_f3d. rewrite Hf. reflexivity. Qed.

Lemma write_f2d_calls (nm : string) (f : Field2D) (g : bool) (s : World) :
  calls (snd (write_f2d nm f g s)) =
  calls s ++ field_write_calls g [ngx mesh; ngy mesh] nm f.
Proof.
  unfold write_f2d, field_write_calls.
  destruct (isAllocated f), g; world_cbn;
    first [reflexivity | symmetry; apply app_nil_r].
Qed.

Lemma write_f3d_calls (nm : string) (f : Field3D) (g : bool) (s : World) :
  calls (snd (write_f3d nm f g s)) =
  calls s ++ field_write_calls g [ngx mesh; ngy mesh; ngz mesh] nm f.
Proof.
  unfold write_f3d, field_write_calls.
  destruct (isAllocated f), g; world_cbn;
    first [reflexivity | symmetry; apply app_nil_r].
Qed.

Lemma write_v2d_var_calls (it : VarStr addr) (s : World) :
  calls (snd (write_v2d_var it s)) =
  calls s ++ vector_write_calls (grow it) [ngx mesh; ngy mesh] (covar it)
               (name it) (converted_copy (covar it) (m_v2d (mem s) (ptr it))).
Proof.
  unfold write_v2d_var, vector_write_calls, converted_copy. unfold_names.
  destruct (covar it); run_bind; world_cbn;
    rewrite !write_f2d_calls, <- !app_assoc; reflexivity.
Qed.

Lemma write_v3d_var_calls (it : VarStr addr) (s : World) :
  calls (snd (write_v3d_var it s)) =
  calls s ++ vector_write_calls (grow it) [ngx mesh; ngy mesh; ngz mesh]
               (covar it) (name it)
               (converted_copy (covar it) (m_v3d (mem s) (ptr it))).
Proof.
  unfold write_v3d_var, vector_write_calls, converted_copy. unfold_names.
  destruct (covar it); run_bind; world_cbn;
    rewrite !write_f3d_calls, <- !app_assoc; reflexivity.
Qed.

Lemma write_f2d_var_unallocated (it : VarStr fptr) (s : World) :
  isAllocated (load_f2d (ptr it) (mem s)) = false ->
  snd (write_f2d_var it s) = s.
Proof.
  intros Hf. unfold write_f2d_var. run_bind. world_cbn.
  rewrite (write_f2d_unallocated _ _ _ _ Hf). reflexivity.
Qed.

Lemma write_f3d_var_unallocated (it : VarStr fptr) (s : World) :
  isAllocated (load_f3d (ptr it) (mem s)) = false ->
  snd (write_f3d_var it s) = s.
Proof.
  intros Hf. unfold write_f3d_var. run_bind. world_cbn.
  rewrite (write_f3d_unallocated _ _ _ _ Hf). reflexivity.
Qed.

(** ** Sequences of registrations *)

(** A call of [add] either finds its name registered and throws, leaving
    the state as it was, or returns with that one name more. *)
Lemma add_cases (c : AddCall) (s : World) :
  (In (add_name c) (registered_names (self s))
   /\ add c s = Thrown (already_added (add_name c)) s)
  \/
  (~ In (add_name c) (registered_names (self s))
   /\ exists s', add c s = Returned s'
        /\ Permutation (registered_names (self s'))
                       (add_name c :: registered_names (self s))).
Proof.
  destruct (varAdded (add_name c) (self s)) eqn:E.
  - left. split; [apply varAdded_spec; exact E|].
    destruct c; cbn [add add_name] in *; unfold_add; rewrite E; reflexivity.
  - right. split.
    { intros Hin. apply varAdded_spec in Hin. congruence. }
    destruct c; cbn [add add_name] in *; unfold_add; rewrite E;
      eexists; (split; [reflexivity|]);
      unfold registered_names, names; cbn; rewrite map_app; cbn;
      rewrite (Permutation_app_comm _ [nm]); cbn;
      rewrite <- ?Permutation_middle; reflexivity.
Qed.

Lemma add_keeps_names_unique (c : AddCall) (s : World) :
  List.NoDup (registered_names (self s)) ->
  List.NoDup (registered_names (self (outcome_state (add c s)))).
Proof.
  intros Hnd.
  destruct (add_cases c s) as [[_ ->]|[Hfresh (s' & -> & Hperm)]]; cbn.
  - exact Hnd.
  - apply (Permutation_NoDup (Permutation_sym Hperm)).
    constructor; assumption.
Qed.

Lemma add_keeps_names (c : AddCall) (s : World) (nm : string) :
  In nm (registered_names (self s)) ->
  In nm (registered_names (self (outcome_state (add c s)))).
Proof.
  intros Hin.
  destruct (add_cases c s) as [[_ ->]|[_ (s' & -> & Hperm)]]; cbn.
  - exact Hin.
  - apply (Permutation_in _ (Permutation_sym Hperm)). right. exact Hin.
Qed.

Lemma add_registers (c : AddCall) (s : World) :
  In (add_name c) (registered_names (self (outcome_state (add c s)))).
Proof.
  destruct (add_cases c s) as [[Hin ->]|[_ (s' & -> & Hperm)]]; cbn.
  - exact Hin.
  - apply (Permutation_in _ (Permutation_sym Hperm)). left. reflexivity.
Qed.

Lemma add_all_keeps_names (cs : list AddCall) (s : World) (nm : string) :
  In nm (registered_names (self s)) ->
  In nm (registered_names (self (add_all cs s))).
Proof.
  revert s. induction cs as [|c rest IH]; intros s Hin; cbn [add_all].
  - exact Hin.
  - apply IH, add_keeps_names, Hin.
Qed.

(** X1. Whatever calls of [add] are made, in whatever order and whether
    they return or throw, names that were pairwise distinct across the six
    sequences stay so, and the name of every call is registered at the end. *)
Theorem add_all_keeps_names_unique (cs : list AddCall) (s : World) :
  List.NoDup (registered_names (self s)) ->
  List.NoDup (registered_names (self (add_all cs s)))
  /\ forall c, In c cs -> In (add_name c) (registered_names (self (add_all cs s))).
Proof.
  revert s. induction cs as [|c rest IH]; intros s Hnd; cbn [add_all].
  - split; [exact Hnd | intros c []].
  - destruct (IH _ (add_keeps_names_unique c s Hnd)) as [Hnd' Hin'].
    split; [exact Hnd'|].
    intros c' [<-|Hc'].
    + apply add_all_keeps_names, add_registers.
    + apply Hin', Hc'.
Qed.

Lemma bool_eq_of_iff (a b : bool) : (a = true <-> b = true) -> a = b.
Proof. destruct a, b; intros [H1 H2]; auto; symmetry; auto. Qed.

(** X2. Once a call of [add] has returned, [varAdded] answers [true] for
    its name and as before for every other name, and any further [add] with
    that name, of whatever kind, throws and changes nothing. *)
Theorem add_then_varAdded (c : AddCall) (s s' : World) :
  add c s = Returned s' ->
  varAdded (add_name c) (self s') = true
  /\ (forall nm, nm <> add_name c ->
        varAdded nm (self s') = varAdded nm (self s))
  /\ (forall c', add_name c' = add_name c ->
        add c' s' = Thrown (already_added (add_name c)) s').
Proof.
  intros Hadd.
  destruct (add_cases c s) as [[_ Hthrown]|[_ (s'' & Hret & Hperm)]];
    [congruence|].
  assert (s'' = s') as -> by congruence.
  assert (Hin : In (add_name c) (registered_names (self s'))).
  { apply (Permutation_in _ (Permutation_sym Hperm)). left. reflexivity. }
  repeat apply conj.
  - apply varAdded_spec, Hin.
  - intros nm Hne. apply bool_eq_of_iff. rewrite !varAdded_spec. split.
    + intros H. apply (Permutation_in _ Hperm) in H.
      destruct H as [H|H]; [congruence | exact H].
    + intros H. apply (Permutation_in _ (Permutation_sym Hperm)).
      right. exact H.
  - intros c' Hname.
    destruct (add_cases c' s') as [[_ Hthrown]|[Hfresh _]].
    + rewrite Hthrown, Hname. reflexivity.
    + rewrite Hname in Hfresh. contradiction.
Qed.

(** ** What the drivers leave alone *)

Lemma same_object_refl (s : World) : same_object s s.
Proof. unfold same_object. destruct (self s). reflexivity. Qed.

Lemma same_object_trans (a b c : World) :
  same_object a b -> same_object b c -> same_object a c.
Proof.
  unfold same_object. intros Hab Hbc.
  rewrite <- Hab at 2. rewrite <- Hbc. reflexivity.
Qed.

Lemma same_time_refl (s : World) : same_time s s.
Proof. split; reflexivity. Qed.

Lemma same_time_trans (a b c : World) :
  same_time a b -> same_time b c -> same_time a c.
Proof. unfold same_time. intros [] []. split; congruence. Qed.

Lemma same_output_refl (s : World) : same_output s s.
Proof. reflexivity. Qed.

Lemma same_output_trans (a b c : World) :
  same_output a b -> same_output b c -> same_output a c.
Proof. unfold same_output. congruence. Qed.

Lemma same_enabled_refl (s : World) : same_enabled s s.
Proof. reflexivity. Qed.

Lemma same_enabled_trans (a b c : World) :
  same_enabled a b -> same_enabled b c -> same_enabled a c.
Proof. unfold same_enabled. congruence. Qed.

Ltac object_leaf :=
  intros ?; unfold same_object; cbn;
  match goal with |- context [self ?w] => destruct (self w) end;
  reflexivity.
Ltac time_leaf := intros ?; split; reflexivity.

Lemma read_same_object (format : option string) (ap : list va_arg) :
  keeps same_object (read format ap).
Proof.
  unfold_drivers. keeps_walk same_object_refl same_object_trans object_leaf.
Qed.

Lemma write_same_object (filename : string) (app : bool) :
  keeps same_object (write filename app).
Proof.
  unfold_drivers. keeps_walk same_object_refl same_object_trans object_leaf.
Qed.

Lemma read_vars_same_object : keeps same_object read_vars.
Proof.
  unfold_drivers. keeps_walk same_object_refl same_object_trans object_leaf.
Qed.

Lemma write_vars_same_object : keeps same_object write_vars.
Proof.
  unfold_drivers. keeps_walk same_object_refl same_object_trans object_leaf.
Qed.

Lemma read_same_enabled (format : option string) (ap : list va_arg) :
  keeps same_enabled (read format ap).
Proof.
  unfold_drivers. keeps_walk same_enabled_refl same_enabled_trans mem_leaf.
Qed.

Lemma write_same_enabled (filename : string) (app : bool) :
  keeps same_enabled (write filename app).
Proof.
  unfold_drivers. keeps_walk same_enabled_refl same_enabled_trans mem_leaf.
Qed.

Lemma write_same_output (filename : string) (app : bool) :
  keeps same_output (write filename app).
Proof.
  unfold_drivers. keeps_walk same_output_refl same_output_trans mem_leaf.
Qed.

Lemma read_vars_same_time : keeps same_time read_vars.
Proof.
  unfold_drivers. keeps_walk same_time_refl same_time_trans time_leaf.
Qed.

Lemma write_vars_same_time : keeps same_time write_vars.
Proof.
  unfold_drivers. keeps_walk same_time_refl same_time_trans time_leaf.
Qed.

Lemma same_object_registry (s s' : World) :
  same_object s s' ->
  registry (self s') = registry (self s)
  /\ low_prec (self s') = low_prec (self s)
  /\ def_filename (self s') = def_filename (self s).
Proof.
  unfold same_object. intros H. rewrite <- H. repeat split.
Qed.

(** X5. Neither [read] nor [write] (so neither of the printf-style entry
    points) changes the six sequences, [low_prec], [def_filename] or the
    [enabled] flag, whatever the arguments and whatever the backend answers;
    [write] moreover writes nothing to [output]. *)
Theorem drivers_keep_the_object
    (format : option string) (ap : list va_arg) (filename : string)
    (app : bool) (s : World) :
  (registry (self (snd (read format ap s))) = registry (self s)
   /\ low_prec (self (snd (read format ap s))) = low_prec (self s)
   /\ def_filename (self (snd (read format ap s))) = def_filename (self s)
   /\ enabled (snd (read format ap s)) = enabled s)
  /\
  (registry (self (snd (write filename app s))) = registry (self s)
   /\ low_prec (self (snd (write filename app s))) = low_prec (self s)
   /\ def_filename (self (snd (write filename app s))) = def_filename (self s)
   /\ enabled (snd (write filename app s)) = enabled s
   /\ output (snd (write filename app s)) = output s).
Proof.
  destruct (same_object_registry _ _ (read_same_object format ap s))
    as (Hr1 & Hr2 & Hr3).
  destruct (same_object_registry _ _ (write_same_object filename app s))
    as (Hw1 & Hw2 & Hw3).
  repeat apply conj; try assumption.
  - apply (read_same_enabled format ap s).
  - apply (write_same_enabled filename app s).
  - apply (write_same_output filename app s).
Qed.

(** ** Failed opens, statuses and the time account *)

Lemma read_open_failed (fmt : string) (ap : list va_arg) (s : World) :
  fst (openr (vsprintf fmt ap) (file (self s))) = false ->
  read (Some fmt) ap s =
  (1, snd (file_openr (vsprintf fmt ap) (snd (wall_time s)))).
Proof.
  intros Hopen. unfold read. cbv zeta.
  rewrite bind_eq. cbv beta. rewrite bind_eq. cbv beta.
  change (fst (file_openr (vsprintf fmt ap) (snd (wall_time s))))
    with (fst (openr (vsprintf fmt ap) (file (self s)))).
  rewrite Hopen. reflexivity.
Qed.

Lemma read_invalid (fmt : string) (ap : list va_arg) (s : World) :
  fst (openr (vsprintf fmt ap) (file (self s))) = true ->
  fst (is_valid (snd (openr (vsprintf fmt ap) (file (self s))))) = false ->
  read (Some fmt) ap s =
  (1, snd (file_is_valid
             (snd (file_openr (vsprintf fmt ap) (snd (wall_time s)))))).
Proof.
  intros Hopen Hvalid. unfold read. cbv zeta.
  rewrite bind_eq. cbv beta. rewrite bind_eq. cbv beta.
  change (fst (file_openr (vsprintf fmt ap) (snd (wall_time s))))
    with (fst (openr (vsprintf fmt ap) (file (self s)))).
  rewrite Hopen. cbn [negb]. rewrite bind_eq. cbv beta.
  change (fst (file_is_valid (snd (file_openr (vsprintf fmt ap) (snd (wall_time s))))))
    with (fst (is_valid (snd (openr (vsprintf fmt ap) (file (self s)))))).
  rewrite Hvalid. reflexivity.
Qed.

(** X3. [read] with a template returns 0 exactly when the backend opens the
    formatted name and then reports itself valid, and 1 otherwise.  When
    the open fails [openr] is the only backend call; when the validity check
    fails the calls are [openr] and [is_valid], and the backend is not
    closed.  In both cases the caller's memory, [output] and [wtime] are
    left as they were. *)
Theorem read_fails_before_any_transfer
    (fmt : string) (ap : list va_arg) (s : World) :
  let o := openr (vsprintf fmt ap) (file (self s)) in
  let r := read (Some fmt) ap s in
  (fst r = 0 <-> fst o = true /\ fst (is_valid (snd o)) = true)
  /\ (fst r = 0 \/ fst r = 1)
  /\ (fst o = false ->
        fst r = 1
        /\ calls (snd r) = calls s ++ [Copenr (vsprintf fmt ap)]
        /\ mem (snd r) = mem s /\ output (snd r) = output s
        /\ wtime (snd r) = wtime s)
  /\ (fst o = true -> fst (is_valid (snd o)) = false ->
        fst r = 1
        /\ calls (snd r) = calls s ++ [Copenr (vsprintf fmt ap); Cis_valid]
        /\ mem (snd r) = mem s /\ output (snd r) = output s
        /\ wtime (snd r) = wtime s).
Proof.
  intros o r. subst o r.
  assert (Hfail1 :
    fst (openr (vsprintf fmt ap) (file (self s))) = false ->
    fst (read (Some fmt) ap s) = 1
    /\ calls (snd (read (Some fmt) ap s)) = calls s ++ [Copenr (vsprintf fmt ap)]
    /\ mem (snd (read (Some fmt) ap s)) = mem s
    /\ output (snd (read (Some fmt) ap s)) = output s
    /\ wtime (snd (read (Some fmt) ap s)) = wtime s).
  { intros Hopen. rewrite (read_open_failed fmt ap s Hopen). repeat split. }
  assert (Hfail2 :
    fst (openr (vsprintf fmt ap) (file (self s))) = true ->
    fst (is_valid (snd (openr (vsprintf fmt ap) (file (self s))))) = false ->
    fst (read (Some fmt) ap s) = 1
    /\ calls (snd (read (Some fmt) ap s)) =
       calls s ++ [Copenr (vsprintf fmt ap); Cis_valid]
    /\ mem (snd (read (Some fmt) ap s)) = mem s
    /\ output (snd (read (Some fmt) ap s)) = output s
    /\ wtime (snd (read (Some fmt) ap s)) = wtime s).
  { intros Hopen Hvalid. rewrite (read_invalid fmt ap s Hopen Hvalid).
    repeat split. cbn [snd]. rewrite file_is_valid_calls, file_openr_calls,
      wall_time_calls, <- app_assoc. reflexivity. }
  repeat apply conj; try assumption.
  - intros Hstatus.
    destruct (fst (openr (vsprintf fmt ap) (file (self s)))) eqn:Hopen.
    + destruct (fst (is_valid (snd (openr (vsprintf fmt ap) (file (self s))))))
        eqn:Hvalid; [split; reflexivity|].
      destruct (Hfail2 eq_refl eq_refl) as [H1 _]. rewrite H1 in Hstatus.
      discriminate.
    + destruct (Hfail1 eq_refl) as [H1 _]. rewrite H1 in Hstatus.
      discriminate.
  - intros [Hopen Hvalid]. apply read_status_ok; assumption.
  - destruct (fst (openr (vsprintf fmt ap) (file (self s)))) eqn:Hopen.
    + destruct (fst (is_valid (snd (openr (vsprintf fmt ap) (file (self s))))))
        eqn:Hvalid.
      * left. apply read_status_ok; assumption.
      * right. apply (Hfail2 eq_refl eq_refl).
    + right. apply (Hfail1 eq_refl).
Qed.

Lemma write_open_failed (filename : string) (app : bool) (s : World) :
  enabled s = true ->
  fst (openw filename app (file (self s))) = false ->
  write filename app s = (false, snd (file_openw filename app (snd (wall_time s)))).
Proof.
  intros Hen Hopen. unfold write.
  rewrite bind_eq. cbv beta. cbn [gets fst snd]. rewrite Hen. cbn [negb].
  rewrite bind_eq. cbv beta. rewrite bind_eq. cbv beta.
  change (fst (file_openw filename app (snd (wall_time s))))
    with (fst (openw filename app (file (self s)))).
  rewrite Hopen. reflexivity.
Qed.

Lemma write_invalid (filename : string) (app : bool) (s : World) :
  enabled s = true ->
  fst (openw filename app (file (self s))) = true ->
  fst (is_valid (snd (openw filename app (file (self s))))) = false ->
  write filename app s =
  (false, snd (file_is_valid (snd (file_openw filename app (snd (wall_time s)))))).
Proof.
  intros Hen Hopen Hvalid. unfold write.
  rewrite bind_eq. cbv beta. cbn [gets fst snd]. rewrite Hen. cbn [negb].
  rewrite bind_eq. cbv beta. rewrite bind_eq. cbv beta.
  change (fst (file_openw filename app (snd (wall_time s))))
    with (fst (openw filename app (file (self s)))).
  rewrite Hopen. cbn [negb]. rewrite bind_eq. cbv beta.
  change (fst (file_is_valid (snd (file_openw filename app (snd (wall_time s))))))
    with (fst (is_valid (snd (openw filename app (file (self s)))))).
  rewrite Hvalid. reflexivity.
Qed.

Lemma write_transfers (filename : string) (app : bool) (s : World) :
  enabled s = true ->
  fst (openw filename app (file (self s))) = true ->
  fst (is_valid (snd (openw filename app (file (self s))))) = true ->
  snd (write filename app s) =
  snd (add_elapsed (fst (wall_time s))
    (snd (file_close
      (snd (write_vars
        (snd (file_setRecord (-1)
          (snd (file_is_valid
            (snd (file_openw filename app (snd (wall_time s))))))))))))).
Proof.
  intros Hen Hopen Hvalid. unfold write.
  rewrite bind_eq. cbv beta. cbn [gets fst snd]. rewrite Hen. cbn [negb].
  rewrite bind_eq. cbv beta. rewrite bind_eq. cbv beta.
  change (fst (file_openw filename app (snd (wall_time s))))
    with (fst (openw filename app (file (self s)))).
  rewrite Hopen. cbn [negb]. rewrite bind_eq. cbv beta.
  change (fst (file_is_valid (snd (file_openw filename app (snd (wall_time s))))))
    with (fst (is_valid (snd (openw filename app (file (self s)))))).
  rewrite Hvalid. cbn [negb]. run_bind. reflexivity.
Qed.

Lemma file_openw_calls (filename : string) (app : bool) (s : World) :
  calls (snd (file_openw filename app s)) = calls s ++ [Copenw filename app].
Proof. reflexivity. Qed.

(** X4. [write] returns [true] exactly when [enabled] is false or the
    backend opens the name and then reports itself valid; the printf-style
    [write] and [append] turn that into 0 or 1, and differ only in the flag
    they pass on.  A failed open is the only backend call of its [write]; a
    failed validity check follows [openw] and is followed by no close. *)
Theorem write_status_and_failures
    (filename : string) (app : bool) (fmt : string) (ap : list va_arg)
    (s : World) :
  let o := openw filename app (file (self s)) in
  let r := write filename app s in
  (fst r = true <->
     enabled s = false \/ (fst o = true /\ fst (is_valid (snd o)) = true))
  /\ (enabled s = true -> fst o = false ->
        calls (snd r) = calls s ++ [Copenw filename app] /\ mem (snd r) = mem s)
  /\ (enabled s = true -> fst o = true -> fst (is_valid (snd o)) = false ->
        calls (snd r) = calls s ++ [Copenw filename app; Cis_valid]
        /\ mem (snd r) = mem s)
  /\ fst (write_fmt (Some fmt) ap s) =
     (if fst (write (vsprintf fmt ap) false s) then 0 else 1)
  /\ fst (append (Some fmt) ap s) =
     (if fst (write (vsprintf fmt ap) true s) then 0 else 1).
Proof.
  intros o r. subst o r. repeat apply conj.
  - intros Hstatus. destruct (enabled s) eqn:Hen; [right | left; reflexivity].
    destruct (fst (openw filename app (file (self s)))) eqn:Hopen.
    + destruct (fst (is_valid (snd (openw filename app (file (self s))))))
        eqn:Hvalid; [split; reflexivity|].
      rewrite (write_invalid filename app s Hen Hopen Hvalid) in Hstatus.
      discriminate.
    + rewrite (write_open_failed filename app s Hen Hopen) in Hstatus.
      discriminate.
  - intros [Hen|[Hopen Hvalid]].
    + rewrite (write_disabled filename app s Hen). reflexivity.
    + destruct (enabled s) eqn:Hen.
      * apply write_status_ok; assumption.
      * rewrite (write_disabled filename app s Hen). reflexivity.
  - intros Hen Hopen. rewrite (write_open_failed filename app s Hen Hopen).
    repeat split.
  - intros Hen Hopen Hvalid.
    rewrite (write_invalid filename app s Hen Hopen Hvalid).
    repeat split. cbn [snd]. rewrite file_is_valid_calls, file_openw_calls,
      wall_time_calls, <- app_assoc. reflexivity.
  - unfold write_fmt. cbv zeta. rewrite bind_eq. cbv beta.
    destruct (fst (write (vsprintf fmt ap) false s)); reflexivity.
  - unfold append. cbv zeta. rewrite bind_eq. cbv beta.
    destruct (fst (write (vsprintf fmt ap) true s)); reflexivity.
Qed.

(** X8. A [read] or an enabled [write] that gets past the open and the
    validity check reads the clock twice, at its start and after the close,
    and adds the difference of the two readings to [wtime]; nothing in
    between touches either. *)
Theorem io_time_is_accounted
    (fmt : string) (ap : list va_arg) (filename : string) (app : bool)
    (s : World) :
  (fst (openr (vsprintf fmt ap) (file (self s))) = true ->
   fst (is_valid (snd (openr (vsprintf fmt ap) (file (self s))))) = true ->
   wtime (snd (read (Some fmt) ap s)) =
     real_add (wtime s)
       (real_sub (MPI_Wtime (S (clock s))) (MPI_Wtime (clock s)))
   /\ clock (snd (read (Some fmt) ap s)) = S (S (clock s)))
  /\
  (enabled s = true ->
   fst (openw filename app (file (self s))) = true ->
   fst (is_valid (snd (openw filename app (file (self s))))) = true ->
   wtime (snd (write filename app s)) =
     real_add (wtime s)
       (real_sub (MPI_Wtime (S (clock s))) (MPI_Wtime (clock s)))
   /\ clock (snd (write filename app s)) = S (S (clock s))).
Proof.
  split.
  - intros Hopen Hvalid. rewrite (read_transfers fmt ap s Hopen Hvalid).
    match goal with |- context [read_vars ?s3] =>
      destruct (read_vars_same_time s3) as [Hw Hc];
      generalize dependent (snd (read_vars s3)) end.
    intros s4 Hw Hc. cbn in Hw, Hc.
    unfold add_elapsed. run_bind.
    cbn [modify wall_time file_close snd fst wtime clock set_wtime set_clock
         record_call backend set_calls set_self].
    rewrite Hw, Hc. split; reflexivity.
  - intros Hen Hopen Hvalid.
    rewrite (write_transfers filename app s Hen Hopen Hvalid).
    match goal with |- context [write_vars ?s3] =>
      destruct (write_vars_same_time s3) as [Hw Hc];
      generalize dependent (snd (write_vars s3)) end.
    intros s4 Hw Hc. cbn in Hw, Hc.
    unfold add_elapsed. run_bind.
    cbn [modify wall_time file_close snd fst wtime clock set_wtime set_clock
         record_call backend set_calls set_self].
    rewrite Hw, Hc. split; reflexivity.
Qed.

(** ** The complete sequence of backend calls *)

Lemma for_each_calls_const {T} (body : T -> M unit)
    (f : T -> list (Call BoutReal)) (l : list T) (s : World) :
  (forall it s, calls (snd (body it s)) = calls s ++ f it) ->
  calls (snd (for_each body l s)) = calls s ++ flat_map f l.
Proof.
  intros Hbody. revert s. induction l as [|it rest IH]; intros s.
  - symmetry. apply app_nil_r.
  - rewrite for_each_cons, IH, Hbody. cbn [flat_map].
    rewrite <- app_assoc. reflexivity.
Qed.

Lemma for_each_calls_mem {T} (body : T -> M unit)
    (f : T -> Memory BoutReal Field2D Field3D -> list (Call BoutReal))
    (l : list T) (s : World) :
  (forall it s, calls (snd (body it s)) = calls s ++ f it (mem s)) ->
  (forall it, keeps same_mem (body it)) ->
  calls (snd (for_each body l s)) =
  calls s ++ flat_map (fun it => f it (mem s)) l.
Proof.
  intros Hbody Hmem. revert s. induction l as [|it rest IH]; intros s.
  - symmetry. apply app_nil_r.
  - rewrite for_each_cons, IH, Hbody, (Hmem it s). cbn [flat_map].
    rewrite <- app_assoc. reflexivity.
Qed.

Lemma flat_map_singleton {T U} (f : T -> U) (l : list T) :
  flat_map (fun it => [f it]) l = map f l.
Proof. induction l as [|it rest IH]; cbn; [reflexivity | rewrite IH; reflexivity]. Qed.

Lemma read_int_var_calls (it : VarStr addr) (s : World) :
  calls (snd (read_int_var it s)) =
  calls s ++ [Cread (grow it) TInt (name it) []].
Proof.
  unfold read_int_var, output_write. destruct (grow it); run_bind;
    match goal with |- context [negb ?b] => destruct b end; reflexivity.
Qed.

Lemma read_real_var_calls (it : VarStr addr) (s : World) :
  calls (snd (read_real_var it s)) =
  calls s ++ [Cread (grow it) TReal (name it) []].
Proof.
  unfold read_real_var, output_write. destruct (grow it); run_bind;
    match goal with |- context [negb ?b] => destruct b end; reflexivity.
Qed.

Lemma write_int_var_calls (it : VarStr addr) (s : World) :
  calls (snd (write_int_var it s)) =
  calls s ++ [Cwrite (grow it) (name it) [] (PInt (m_int (mem s) (ptr it)))].
Proof. unfold write_int_var. destruct (grow it); reflexivity. Qed.

Lemma write_real_var_calls (it : VarStr addr) (s : World) :
  calls (snd (write_real_var it s)) =
  calls s ++ [Cwrite (grow it) (name it) [] (PReal (m_real (mem s) (ptr it)))].
Proof. unfold write_real_var. destruct (grow it); reflexivity. Qed.

Lemma write_f2d_var_calls (it : VarStr fptr) (s : World) :
  calls (snd (write_f2d_var it s)) =
  calls s ++ field_write_calls (grow it) [ngx mesh; ngy mesh] (name it)
               (load_f2d (ptr it) (mem s)).
Proof. unfold write_f2d_var. run_bind. world_cbn. apply write_f2d_calls. Qed.

Lemma write_f3d_var_calls (it : VarStr fptr) (s : World) :
  calls (snd (write_f3d_var it s)) =
  calls s ++ field_write_calls (grow it) [ngx mesh; ngy mesh; ngz mesh]
               (name it) (load_f3d (ptr it) (mem s)).
Proof. unfold write_f3d_var. run_bind. world_cbn. apply write_f3d_calls. Qed.

Ltac body_keeps refl trans leaf :=
  intros ?; unfold_drivers; keeps_walk refl trans leaf.

(** The state after one of the six loops, in terms of the state [s0] the
    loops started from: a loop [body] over the sequence [sel] of the object. *)
Lemma read_loop_calls {T} (body : T -> M unit) (f : T -> list (Call BoutReal))
    (sel : Datafile -> list T) (s0 s : World) :
  (forall it s, calls (snd (body it s)) = calls s ++ f it) ->
  same_object s0 s ->
  (forall it, keeps same_object (body it)) ->
  (forall b d, sel (set_file b d) = sel d) ->
  calls (snd (for_each body (sel (self s)) s)) =
    calls s ++ flat_map f (sel (self s0))
  /\ same_object s0 (snd (for_each body (sel (self s)) s)).
Proof.
  intros Hcalls Hs Hobj Hsel. split.
  - rewrite (for_each_calls_const body f _ s Hcalls).
    unfold same_object in Hs. rewrite <- Hs, Hsel. reflexivity.
  - apply same_object_trans with s; [exact Hs|].
    apply (keeps_for_each same_object same_object_refl same_object_trans
             body _ Hobj s).
Qed.

Lemma write_loop_calls {T} (body : T -> M unit)
    (f : T -> Memory BoutReal Field2D Field3D -> list (Call BoutReal))
    (sel : Datafile -> list T) (s0 s : World) :
  (forall it s, calls (snd (body it s)) = calls s ++ f it (mem s)) ->
  same_object s0 s -> mem s = mem s0 ->
  (forall it, keeps same_mem (body it)) ->
  (forall it, keeps same_object (body it)) ->
  (forall b d, sel (set_file b d) = sel d) ->
  calls (snd (for_each body (sel (self s)) s)) =
    calls s ++ flat_map (fun it => f it (mem s0)) (sel (self s0))
  /\ same_object s0 (snd (for_each body (sel (self s)) s))
  /\ mem (snd (for_each body (sel (self s)) s)) = mem s0.
Proof.
  intros Hcalls Hs Hm Hmem Hobj Hsel. repeat apply conj.
  - rewrite (for_each_calls_mem body f _ s Hcalls Hmem), Hm.
    unfold same_object in Hs. rewrite <- Hs, Hsel. reflexivity.
  - apply same_object_trans with s; [exact Hs|].
    apply (keeps_for_each same_object same_object_refl same_object_trans
             body _ Hobj s).
  - rewrite <- Hm.
    apply (keeps_for_each same_mem same_mem_refl same_mem_trans body _ Hmem s).
Qed.

Lemma read_vars_calls_eq (s : World) :
  calls (snd (read_vars s)) = calls s ++ read_vars_calls (self s).
Proof.
  unfold read_vars, read_vars_calls. run_bind. cbn [gets fst snd].
  destruct (read_loop_calls read_int_var _ int_arr s s read_int_var_calls
              (same_object_refl s)) as [C1 O1];
    [body_keeps same_object_refl same_object_trans object_leaf | reflexivity |].
  destruct (read_loop_calls read_real_var _ BoutReal_arr s _
              read_real_var_calls O1) as [C2 O2];
    [body_keeps same_object_refl same_object_trans object_leaf | reflexivity |].
  destruct (read_loop_calls read_f2d_var _ f2d_arr s _
              (fun it s => read_f2d_calls (name it) (ptr it) (grow it) s) O2)
    as [C3 O3];
    [body_keeps same_object_refl same_object_trans object_leaf | reflexivity |].
  destruct (read_loop_calls read_f3d_var _ f3d_arr s _
              (fun it s => read_f3d_calls (name it) (ptr it) (grow it) s) O3)
    as [C4 O4];
    [body_keeps same_object_refl same_object_trans object_leaf | reflexivity |].
  destruct (read_loop_calls read_v2d_var _ v2d_arr s _ read_v2d_var_calls O4)
    as [C5 O5];
    [body_keeps same_object_refl same_object_trans object_leaf | reflexivity |].
  destruct (read_loop_calls read_v3d_var _ v3d_arr s _ read_v3d_var_calls O5)
    as [C6 _];
    [body_keeps same_object_refl same_object_trans object_leaf | reflexivity |].
  rewrite C6, C5, C4, C3, C2, C1, !flat_map_singleton, <- !app_assoc.
  reflexivity.
Qed.

Lemma write_vars_calls_eq (s : World) :
  calls (snd (write_vars s)) = calls s ++ write_vars_calls (self s) (mem s).
Proof.
  unfold write_vars, write_vars_calls. run_bind. cbn [gets fst snd].
  destruct (write_loop_calls write_int_var
              (fun it m => [Cwrite (grow it) (name it) [] (PInt (m_int m (ptr it)))])
              int_arr s s write_int_var_calls
              (same_object_refl s) eq_refl) as (C1 & O1 & M1);
    [body_keeps same_mem_refl same_mem_trans mem_leaf
    | body_keeps same_object_refl same_object_trans object_leaf
    | reflexivity |].
  destruct (write_loop_calls write_real_var
              (fun it m => [Cwrite (grow it) (name it) [] (PReal (m_real m (ptr it)))])
              BoutReal_arr s _
              write_real_var_calls O1 M1) as (C2 & O2 & M2);
    [body_keeps same_mem_refl same_mem_trans mem_leaf
    | body_keeps same_object_refl same_object_trans object_leaf
    | reflexivity |].
  destruct (write_loop_calls write_f2d_var
              (fun it m => field_write_calls (grow it) [ngx mesh; ngy mesh]
                             (name it) (load_f2d (ptr it) m))
              f2d_arr s _
              write_f2d_var_calls O2 M2) as (C3 & O3 & M3);
    [body_keeps same_mem_refl same_mem_trans mem_leaf
    | body_keeps same_object_refl same_object_trans object_leaf
    | reflexivity |].
  destruct (write_loop_calls write_f3d_var
              (fun it m => field_write_calls (grow it)
                             [ngx mesh; ngy mesh; ngz mesh]
                             (name it) (load_f3d (ptr it) m))
              f3d_arr s _
              write_f3d_var_calls O3 M3) as (C4 & O4 & M4);
    [body_keeps same_mem_refl same_mem_trans mem_leaf
    | body_keeps same_object_refl same_object_trans object_leaf
    | reflexivity |].
  destruct (write_loop_calls write_v2d_var
              (fun it m => vector_write_calls (grow it) [ngx mesh; ngy mesh]
                             (covar it) (name it)
                             (converted_copy (covar it) (m_v2d m (ptr it))))
              v2d_arr s _
              write_v2d_var_calls O4 M4) as (C5 & O5 & M5);
    [body_keeps same_mem_refl same_mem_trans mem_leaf
    | body_keeps same_object_refl same_object_trans object_leaf
    | reflexivity |].
  destruct (write_loop_calls write_v3d_var
              (fun it m => vector_write_calls (grow it)
                             [ngx mesh; ngy mesh; ngz mesh]
                             (covar it) (name it)
                             (converted_copy (covar it) (m_v3d m (ptr it))))
              v3d_arr s _
              write_v3d_var_calls O5 M5) as (C6 & _ & _);
    [body_keeps same_mem_refl same_mem_trans mem_leaf
    | body_keeps same_object_refl same_object_trans object_leaf
    | reflexivity |].
  rewrite C6, C5, C4, C3, C2, C1, !flat_map_singleton, <- !app_assoc.
  reflexivity.
Qed.

Lemma read_vars_calls_same_object (s s' : World) :
  same_object s s' -> read_vars_calls (self s') = read_vars_calls (self s).
Proof. unfold same_object. intros H. rewrite <- H. reflexivity. Qed.

Lemma write_vars_calls_same_object (s s' : World)
    (m : Memory BoutReal Field2D Field3D) :
  same_object s s' -> write_vars_calls (self s') m = write_vars_calls (self s) m.
Proof. unfold same_object. intros H. rewrite <- H. reflexivity. Qed.

(** X7. When the open and the validity check succeed, the backend calls of
    [read] are, in this order: the open, the check, the selection of the
    latest record, one read per integer, per real, per 2D field and per 3D
    field, three reads per 2D vector and per 3D vector, each kind in
    registration order, and the close.  The sequence depends on the object
    and the name only, not on what the backend answers to the reads. *)
Theorem read_call_sequence (fmt : string) (ap : list va_arg) (s : World) :
  fst (openr (vsprintf fmt ap) (file (self s))) = true ->
  fst (is_valid (snd (openr (vsprintf fmt ap) (file (self s))))) = true ->
  calls (snd (read (Some fmt) ap s)) =
  calls s ++ [Copenr (vsprintf fmt ap); Cis_valid; CsetRecord (-1)]
  ++ read_vars_calls (self s) ++ [Cclose].
Proof.
  intros Hopen Hvalid. rewrite (read_transfers fmt ap s Hopen Hvalid).
  rewrite add_elapsed_calls, file_close_calls, read_vars_calls_eq.
  rewrite (read_vars_calls_same_object s).
  - rewrite file_setRecord_calls, file_is_valid_calls, file_openr_calls,
      wall_time_calls, <- !app_assoc.
    reflexivity.
  - unfold same_object. cbn. destruct (self s). reflexivity.
Qed.

(** X6. When [enabled] is set and the open and the validity check succeed,
    the backend calls of [write] are, in this order: the open, the check,
    the selection of the latest record, one write per integer and per real
    with the value the caller's variable has, one write per allocated 2D
    and 3D field, the writes of the allocated members of the converted copy
    of each 2D and 3D vector, each kind in registration order, and the
    close. *)
Theorem write_call_sequence (filename : string) (app : bool) (s : World) :
  enabled s = true ->
  fst (openw filename app (file (self s))) = true ->
  fst (is_valid (snd (openw filename app (file (self s))))) = true ->
  calls (snd (write filename app s)) =
  calls s ++ [Copenw filename app; Cis_valid; CsetRecord (-1)]
  ++ write_vars_calls (self s) (mem s) ++ [Cclose].
Proof.
  intros Hen Hopen Hvalid.
  rewrite (write_transfers filename app s Hen Hopen Hvalid).
  rewrite add_elapsed_calls, file_close_calls, write_vars_calls_eq.
  rewrite (write_vars_calls_same_object s).
  - rewrite file_setRecord_calls, file_is_valid_calls, file_openw_calls,
      wall_time_calls, <- !app_assoc.
    reflexivity.
  - unfold same_object. cbn. destruct (self s). reflexivity.
Qed.

(** ** Backend binding *)

(** X11. Low precision, once requested, follows the object to every backend
    it is given: [setLowPrecision] passes the request to the current backend
    and sets [low_prec], [setFormat] keeps [low_prec], installs the new
    backend, and passes the request to it exactly when [low_prec] is set. *)
Theorem low_precision_survives_setFormat (b1 b2 : B) (s : World) :
  (let s' := snd (setFormat b1 s) in
   low_prec (self s') = low_prec (self s)
   /\ file (self s') = (if low_prec (self s) then setLowPrecision b1 else b1)
   /\ calls s' = calls s ++ (if low_prec (self s) then [CsetLowPrecision] else [])
   /\ registry (self s') = registry (self s))
  /\
  (let s1 := snd (setLowPrecision_df s) in
   let s2 := snd (setFormat b2 (snd (setFormat b1 s1))) in
   low_prec (self s1) = true
   /\ file (self s1) = setLowPrecision (file (self s))
   /\ low_prec (self s2) = true
   /\ file (self s2) = setLowPrecision b2
   /\ calls s2 =
      calls s ++ [CsetLowPrecision; CsetLowPrecision; CsetLowPrecision]).
Proof.
  split.
  - cbv zeta. unfold setFormat. run_bind.
    cbn [modify gets fst snd backend set_self self set_file low_prec].
    destruct (low_prec (self s)) eqn:E; cbn; rewrite ?E, ?app_nil_r;
      repeat split.
  - cbv zeta. unfold setFormat, setLowPrecision_df. run_bind. cbn.
    rewrite <- !app_assoc. repeat split.
Qed.

(** ** Scalars after [read] *)

Lemma keeps_int_refl (a : addr) (s : World) : keeps_int a s s.
Proof. reflexivity. Qed.

Lemma keeps_int_trans (a : addr) (s1 s2 s3 : World) :
  keeps_int a s1 s2 -> keeps_int a s2 s3 -> keeps_int a s1 s3.
Proof. unfold keeps_int. congruence. Qed.

Lemma keeps_real_refl (a : addr) (s : World) : keeps_real a s s.
Proof. reflexivity. Qed.

Lemma keeps_real_trans (a : addr) (s1 s2 s3 : World) :
  keeps_real a s1 s2 -> keeps_real a s2 s3 -> keeps_real a s1 s3.
Proof. unfold keeps_real. congruence. Qed.

(** An effect that stores no integer and no real, whatever field pointer it
    goes through. *)
Ltac scalar_leaf :=
  intros ?; unfold keeps_int, keeps_real; cbn;
  repeat match goal with
         | |- context [store_f2d (ptr ?it) _ _] => destruct (ptr it)
         | |- context [store_f3d (ptr ?it) _ _] => destruct (ptr it)
         end;
  reflexivity.

Lemma for_each_keeps_in {T} (R : World -> World -> Prop) (body : T -> M unit)
    (l : list T) (s : World) :
  (forall s, R s s) -> (forall a b c, R a b -> R b c -> R a c) ->
  (forall it, In it l -> keeps R (body it)) ->
  R s (snd (for_each body l s)).
Proof.
  intros Hrefl Htrans. revert s.
  induction l as [|it rest IH]; intros s Hbody.
  - apply Hrefl.
  - rewrite for_each_cons. apply Htrans with (snd (body it s)).
    + apply Hbody. left. reflexivity.
    + apply IH. intros it' Hin. apply Hbody. right. exact Hin.
Qed.

Lemma read_int_var_target (it : VarStr addr) (s : World) :
  let r := backend_read_int (grow it) (name it) (m_int (mem s) (ptr it))
             (file (self s)) in
  m_int (mem (snd (read_int_var it s))) (ptr it) =
  (if fst (fst r) then snd (fst r) else 0).
Proof.
  unfold read_int_var, backend_read_int, output_write.
  destruct (grow it); run_bind; cbn [file_read_int fst snd];
    match goal with |- context [negb ?b] => destruct b end;
    world_cbn; run_bind; world_cbn; cbn [m_int set_m_int];
    rewrite ?fn_lookup_insert; reflexivity.
Qed.

Lemma read_real_var_target (it : VarStr addr) (s : World) :
  let r := backend_read_real (grow it) (name it) (m_real (mem s) (ptr it))
             (file (self s)) in
  m_real (mem (snd (read_real_var it s))) (ptr it) =
  (if fst (fst r) then snd (fst r) else real_zero).
Proof.
  unfold read_real_var, backend_read_real, output_write.
  destruct (grow it); run_bind; cbn [file_read_real fst snd];
    match goal with |- context [negb ?b] => destruct b end;
    world_cbn; run_bind; world_cbn; cbn [m_real set_m_real];
    rewrite ?fn_lookup_insert; reflexivity.
Qed.

Lemma read_int_var_elsewhere (it : VarStr addr) (a : addr) :
  ptr it <> a -> keeps (keeps_int a) (read_int_var it).
Proof.
  intros Hne s. unfold keeps_int, read_int_var, output_write.
  destruct (grow it); run_bind; cbn [file_read_int fst snd];
    match goal with |- context [negb ?b] => destruct b end;
    world_cbn; run_bind; world_cbn; cbn [m_int set_m_int];
    rewrite ?(fn_lookup_insert_ne _ _ _ _ Hne); reflexivity.
Qed.

Lemma read_real_var_elsewhere (it : VarStr addr) (a : addr) :
  ptr it <> a -> keeps (keeps_real a) (read_real_var it).
Proof.
  intros Hne s. unfold keeps_real, read_real_var, output_write.
  destruct (grow it); run_bind; cbn [file_read_real fst snd];
    match goal with |- context [negb ?b] => destruct b end;
    world_cbn; run_bind; world_cbn; cbn [m_real set_m_real];
    rewrite ?(fn_lookup_insert_ne _ _ _ _ Hne); reflexivity.
Qed.

Lemma for_each_keeps_int {T} (body : T -> M unit) (l : list T) (a : addr)
    (s : World) :
  (forall it, keeps (keeps_int a) (body it)) ->
  m_int (mem (snd (for_each body l s))) a = m_int (mem s) a.
Proof.
  intros Hbody.
  exact (keeps_for_each (keeps_int a) (keeps_int_refl a) (keeps_int_trans a)
           body l Hbody s).
Qed.

Lemma for_each_keeps_real {T} (body : T -> M unit) (l : list T) (a : addr)
    (s : World) :
  (forall it, keeps (keeps_real a) (body it)) ->
  m_real (mem (snd (for_each body l s))) a = m_real (mem s) a.
Proof.
  intros Hbody.
  exact (keeps_for_each (keeps_real a) (keeps_real_refl a) (keeps_real_trans a)
           body l Hbody s).
Qed.

Ltac scalar_body a :=
  first [ solve [body_keeps (keeps_int_refl a) (keeps_int_trans a) scalar_leaf]
        | solve [body_keeps (keeps_real_refl a) (keeps_real_trans a) scalar_leaf] ].

(** The loops after the one over [int_arr] store no integer, and only the
    loop over [BoutReal_arr] stores a real. *)
Lemma read_vars_ints (a : addr) (s : World) :
  m_int (mem (snd (read_vars s))) a =
  m_int (mem (snd (for_each read_int_var (int_arr (self s)) s))) a.
Proof.
  unfold read_vars. run_bind. cbn [gets fst snd].
  rewrite (for_each_keeps_int read_v3d_var) by scalar_body a.
  rewrite (for_each_keeps_int read_v2d_var) by scalar_body a.
  rewrite (for_each_keeps_int read_f3d_var) by scalar_body a.
  rewrite (for_each_keeps_int read_f2d_var) by scalar_body a.
  rewrite (for_each_keeps_int read_real_var) by scalar_body a.
  reflexivity.
Qed.

Lemma int_loop_same_object (l : list (VarStr addr)) (s : World) :
  same_object s (snd (for_each read_int_var l s)).
Proof.
  apply (keeps_for_each same_object same_object_refl same_object_trans
           read_int_var l).
  body_keeps same_object_refl same_object_trans object_leaf.
Qed.

Lemma read_vars_reals (a : addr) (s : World) :
  m_real (mem (snd (read_vars s))) a =
  m_real (mem (snd (for_each read_real_var (BoutReal_arr (self s))
                      (snd (for_each read_int_var (int_arr (self s)) s))))) a.
Proof.
  unfold read_vars. run_bind. cbn [gets fst snd].
  rewrite (for_each_keeps_real read_v3d_var) by scalar_body a.
  rewrite (for_each_keeps_real read_v2d_var) by scalar_body a.
  rewrite (for_each_keeps_real read_f3d_var) by scalar_body a.
  rewrite (for_each_keeps_real read_f2d_var) by scalar_body a.
  destruct (same_object_registry s _
              (int_loop_same_object (int_arr (self s)) s)) as [Hreg _].
  injection Hreg as _ Hreal _ _ _ _. rewrite Hreal. reflexivity.
Qed.

Lemma int_loop_keeps_real (a : addr) (l : list (VarStr addr)) (s : World) :
  m_real (mem (snd (for_each read_int_var l s))) a = m_real (mem s) a.
Proof. apply for_each_keeps_real. scalar_body a. Qed.

Lemma int_loop_elsewhere (l : list (VarStr addr)) (a : addr) (s : World) :
  (forall it, In it l -> ptr it <> a) ->
  m_int (mem (snd (for_each read_int_var l s))) a = m_int (mem s) a.
Proof.
  intros Hl.
  apply (for_each_keeps_in (keeps_int a) read_int_var l s
           (keeps_int_refl a) (keeps_int_trans a)).
  intros it Hin. apply read_int_var_elsewhere, Hl, Hin.
Qed.

Lemma real_loop_elsewhere (l : list (VarStr addr)) (a : addr) (s : World) :
  (forall it, In it l -> ptr it <> a) ->
  m_real (mem (snd (for_each read_real_var l s))) a = m_real (mem s) a.
Proof.
  intros Hl.
  apply (for_each_keeps_in (keeps_real a) read_real_var l s
           (keeps_real_refl a) (keeps_real_trans a)).
  intros it Hin. apply read_real_var_elsewhere, Hl, Hin.
Qed.

Lemma add_elapsed_mem (tstart : BoutReal) (s : World) :
  mem (snd (add_elapsed tstart s)) = mem s.
Proof. reflexivity. Qed.

Lemma file_close_mem (s : World) : mem (snd (file_close s)) = mem s.
Proof. reflexivity. Qed.

(** The memory [read] leaves is the one its six loops leave, and the one it
    found when it fails before them. *)
Lemma read_mem_cases (format : option string) (ap : list va_arg) (s : World) :
  mem (snd (read format ap s)) = mem s
  \/ exists fmt, format = Some fmt
       /\ fst (openr (vsprintf fmt ap) (file (self s))) = true
       /\ fst (is_valid (snd (openr (vsprintf fmt ap) (file (self s))))) = true
       /\ mem (snd (read format ap s)) =
          mem (snd (read_vars
            (snd (file_setRecord (-1)
              (snd (file_is_valid
                (snd (file_openr (vsprintf fmt ap) (snd (wall_time s)))))))))).
Proof.
  destruct format as [fmt|]; [|left; reflexivity].
  destruct (fst (openr (vsprintf fmt ap) (file (self s)))) eqn:Hopen.
  - destruct (fst (is_valid (snd (openr (vsprintf fmt ap) (file (self s))))))
      eqn:Hvalid.
    + right. exists fmt.
      split; [reflexivity|]. split; [exact Hopen|]. split; [exact Hvalid|].
      rewrite (read_transfers fmt ap s Hopen Hvalid), add_elapsed_mem,
        file_close_mem.
      reflexivity.
    + left. rewrite (read_invalid fmt ap s Hopen Hvalid). reflexivity.
  - left. rewrite (read_open_failed fmt ap s Hopen). reflexivity.
Qed.

(** X10. [read] stores only through registered pointers: an integer that
    no record of [int_arr] points to, and a real that no record of
    [BoutReal_arr] points to, have after [read] the value they had before,
    whatever the template and whatever the backend answers. *)
Theorem read_leaves_unregistered_scalars
    (format : option string) (ap : list va_arg) (a : addr) (s : World) :
  ((forall it, In it (int_arr (self s)) -> ptr it <> a) ->
   m_int (mem (snd (read format ap s))) a = m_int (mem s) a)
  /\
  ((forall it, In it (BoutReal_arr (self s)) -> ptr it <> a) ->
   m_real (mem (snd (read format ap s))) a = m_real (mem s) a).
Proof.
  split; intros Hreg;
    (destruct (read_mem_cases format ap s)
       as [->|(fmt & _ & _ & _ & ->)]; [reflexivity|]).
  - rewrite read_vars_ints, int_loop_elsewhere by exact Hreg. reflexivity.
  - rewrite read_vars_reals, real_loop_elsewhere by exact Hreg.
    rewrite int_loop_keeps_real. reflexivity.
Qed.

(** X9. After a [read] that got past the open and the validity check, the
    integer of a record of [int_arr] that no later record of [int_arr]
    points to holds what the backend delivered for the record's name, or 0
    if that primitive failed; the primitive saw the backend as the records
    before it left it.  The same holds for a real of [BoutReal_arr], whose
    primitive comes after the whole loop over [int_arr]. *)
Theorem read_scalar_results
    (fmt : string) (ap : list va_arg) (pre : list (VarStr addr))
    (it : VarStr addr) (post : list (VarStr addr)) (s : World) :
  fst (openr (vsprintf fmt ap) (file (self s))) = true ->
  fst (is_valid (snd (openr (vsprintf fmt ap) (file (self s))))) = true ->
  (forall it', In it' post -> ptr it' <> ptr it) ->
  let s3 :=
    snd (file_setRecord (-1)
      (snd (file_is_valid
        (snd (file_openr (vsprintf fmt ap) (snd (wall_time s))))))) in
  (int_arr (self s) = pre ++ it :: post ->
   let s0 := snd (for_each read_int_var pre s3) in
   let r := backend_read_int (grow it) (name it) (m_int (mem s0) (ptr it))
              (file (self s0)) in
   m_int (mem (snd (read (Some fmt) ap s))) (ptr it) =
   (if fst (fst r) then snd (fst r) else 0))
  /\
  (BoutReal_arr (self s) = pre ++ it :: post ->
   let s0 := snd (for_each read_real_var pre
                    (snd (for_each read_int_var (int_arr (self s)) s3))) in
   let r := backend_read_real (grow it) (name it) (m_real (mem s0) (ptr it))
              (file (self s0)) in
   m_real (mem (snd (read (Some fmt) ap s))) (ptr it) =
   (if fst (fst r) then snd (fst r) else real_zero)).
Proof.
  intros Hopen Hvalid Hpost s3.
  assert (Hmem : mem (snd (read (Some fmt) ap s)) = mem (snd (read_vars s3))).
  { rewrite (read_transfers fmt ap s Hopen Hvalid), add_elapsed_mem,
      file_close_mem. reflexivity. }
  split; intros Harr s0 r; rewrite Hmem.
  - rewrite read_vars_ints.
    change (int_arr (self s3)) with (int_arr (self s)).
    rewrite Harr, for_each_middle. fold s0.
    rewrite int_loop_elsewhere by exact Hpost.
    apply (read_int_var_target it s0).
  - rewrite read_vars_reals.
    change (BoutReal_arr (self s3)) with (BoutReal_arr (self s)).
    change (int_arr (self s3)) with (int_arr (self s)).
    rewrite Harr, for_each_middle. fold s0.
    rewrite real_loop_elsewhere by exact Hpost.
    apply (read_real_var_target it s0).
Qed.

(** ** Vectors after [read] *)

Lemma for_each_same_object {T} (body : T -> M unit) (l : list T) (s : World) :
  (forall it, keeps same_object (body it)) ->
  same_object s (snd (for_each body l s)).
Proof.
  intros Hbody.
  exact (keeps_for_each same_object same_object_refl same_object_trans
           body l Hbody s).
Qed.

Ltac object_body := body_keeps same_object_refl same_object_trans object_leaf.

(** The six loops of [read], cut before the two over the vectors. *)
Lemma read_vars_vector_loops (s : World) :
  exists s4,
    same_object s s4
    /\ same_object s (snd (for_each read_v2d_var (v2d_arr (self s)) s4))
    /\ snd (read_vars s) =
       snd (for_each read_v3d_var (v3d_arr (self s))
              (snd (for_each read_v2d_var (v2d_arr (self s)) s4))).
Proof.
  unfold read_vars. run_bind. cbn [gets fst snd].
  match goal with
  | |- context [for_each read_v2d_var (v2d_arr (self ?S4)) ?S4] =>
      assert (H4 : same_object s S4);
      [ repeat (eapply same_object_trans;
                [| apply for_each_same_object; object_body ]);
        apply same_object_refl
      | generalize dependent S4 ]
  end.
  intros s4 H4.
  destruct (same_object_registry s s4 H4) as [Hreg _].
  injection Hreg as _ _ _ _ Hv2 _. rewrite Hv2.
  assert (H5 : same_object s (snd (for_each read_v2d_var (v2d_arr (self s)) s4))).
  { eapply same_object_trans; [exact H4|].
    apply for_each_same_object. object_body. }
  destruct (same_object_registry s _ H5) as [Hreg5 _].
  injection Hreg5 as _ _ _ _ _ Hv3. rewrite Hv3.
  exists s4. repeat split; assumption.
Qed.

Lemma keeps_flag2_refl (a : addr) (s : World) : keeps_flag2 a s s.
Proof. reflexivity. Qed.

Lemma keeps_flag2_trans (a : addr) (s1 s2 s3 : World) :
  keeps_flag2 a s1 s2 -> keeps_flag2 a s2 s3 -> keeps_flag2 a s1 s3.
Proof. unfold keeps_flag2. congruence. Qed.

Lemma keeps_flag3_refl (a : addr) (s : World) : keeps_flag3 a s s.
Proof. reflexivity. Qed.

Lemma keeps_flag3_trans (a : addr) (s1 s2 s3 : World) :
  keeps_flag3 a s1 s2 -> keeps_flag3 a s2 s3 -> keeps_flag3 a s1 s3.
Proof. unfold keeps_flag3. congruence. Qed.

Lemma read_v2d_var_flag_elsewhere (it : VarStr addr) (a : addr) :
  ptr it <> a -> keeps (keeps_flag2 a) (read_v2d_var it).
Proof.
  intros Hne s. unfold keeps_flag2, read_v2d_var.
  destruct (covar it); run_bind; world_cbn; cbn [m_v2d set_m_v2d];
    rewrite (fn_lookup_insert_ne _ _ _ _ Hne), !read_f2d_covariant;
    reflexivity.
Qed.

Lemma read_v3d_var_flag_elsewhere (it : VarStr addr) (a : addr) :
  ptr it <> a -> keeps (keeps_flag3 a) (read_v3d_var it).
Proof.
  intros Hne s. unfold keeps_flag3, read_v3d_var.
  destruct (covar it); run_bind; world_cbn; cbn [m_v3d set_m_v3d];
    rewrite (fn_lookup_insert_ne _ _ _ _ Hne), !read_f3d_covariant;
    reflexivity.
Qed.

Lemma read_v3d_var_keeps_flag2 (it : VarStr addr) (a : addr) :
  keeps (keeps_flag2 a) (read_v3d_var it).
Proof.
  revert it.
  body_keeps (keeps_flag2_refl a) (keeps_flag2_trans a) mem_leaf.
Qed.

Lemma v2d_loop_flag_elsewhere (l : list (VarStr addr)) (a : addr) (s : World) :
  (forall it, In it l -> ptr it <> a) ->
  covariant (m_v2d (mem (snd (for_each read_v2d_var l s))) a) =
  covariant (m_v2d (mem s) a).
Proof.
  intros Hl.
  apply (for_each_keeps_in (keeps_flag2 a) read_v2d_var l s
           (keeps_flag2_refl a) (keeps_flag2_trans a)).
  intros it Hin. apply read_v2d_var_flag_elsewhere, Hl, Hin.
Qed.

Lemma v3d_loop_flag_elsewhere (l : list (VarStr addr)) (a : addr) (s : World) :
  (forall it, In it l -> ptr it <> a) ->
  covariant (m_v3d (mem (snd (for_each read_v3d_var l s))) a) =
  covariant (m_v3d (mem s) a).
Proof.
  intros Hl.
  apply (for_each_keeps_in (keeps_flag3 a) read_v3d_var l s
           (keeps_flag3_refl a) (keeps_flag3_trans a)).
  intros it Hin. apply read_v3d_var_flag_elsewhere, Hl, Hin.
Qed.

Lemma v3d_loop_keeps_flag2 (l : list (VarStr addr)) (a : addr) (s : World) :
  covariant (m_v2d (mem (snd (for_each read_v3d_var l s))) a) =
  covariant (m_v2d (mem s) a).
Proof.
  exact (keeps_for_each (keeps_flag2 a) (keeps_flag2_refl a)
           (keeps_flag2_trans a) read_v3d_var l
           (fun it => read_v3d_var_keeps_flag2 it a) s).
Qed.

(** X12. After a [read] that got past the open and the validity check, the
    basis flag of a registered 2D or 3D vector is the [covar] its record
    took at registration, whatever the flag was before and whatever the
    backend answered, provided no later record of the same sequence points
    to the same vector. *)
Theorem read_vector_flags
    (fmt : string) (ap : list va_arg) (pre : list (VarStr addr))
    (it : VarStr addr) (post : list (VarStr addr)) (s : World) :
  fst (openr (vsprintf fmt ap) (file (self s))) = true ->
  fst (is_valid (snd (openr (vsprintf fmt ap) (file (self s))))) = true ->
  (forall it', In it' post -> ptr it' <> ptr it) ->
  (v2d_arr (self s) = pre ++ it :: post ->
   covariant (m_v2d (mem (snd (read (Some fmt) ap s))) (ptr it)) = covar it)
  /\
  (v3d_arr (self s) = pre ++ it :: post ->
   covariant (m_v3d (mem (snd (read (Some fmt) ap s))) (ptr it)) = covar it).
Proof.
  intros Hopen Hvalid Hpost.
  rewrite (read_transfers fmt ap s Hopen Hvalid), add_elapsed_mem,
    file_close_mem.
  match goal with |- context [read_vars ?S3] =>
    destruct (read_vars_vector_loops S3) as (s4 & _ & _ & ->);
    change (v2d_arr (self S3)) with (v2d_arr (self s));
    change (v3d_arr (self S3)) with (v3d_arr (self s))
  end.
  split; intros Harr.
  - rewrite v3d_loop_keeps_flag2, Harr, for_each_middle.
    rewrite v2d_loop_flag_elsewhere by exact Hpost.
    rewrite read_v2d_var_target. reflexivity.
  - rewrite Harr, for_each_middle.
    rewrite v3d_loop_flag_elsewhere by exact Hpost.
    rewrite read_v3d_var_target. reflexivity.
Qed.

(** ** The stages of [read] *)

Lemma same_object_arrays (s s' : World) :
  same_object s s' ->
  int_arr (self s') = int_arr (self s)
  /\ BoutReal_arr (self s') = BoutReal_arr (self s)
  /\ f2d_arr (self s') = f2d_arr (self s)
  /\ f3d_arr (self s') = f3d_arr (self s)
  /\ v2d_arr (self s') = v2d_arr (self s)
  /\ v3d_arr (self s') = v3d_arr (self s).
Proof. unfold same_object. intros H. rewrite <- H. repeat split. Qed.

Lemma ints_read_same_object (s : World) : same_object s (ints_read s).
Proof. apply for_each_same_object. object_body. Qed.

Lemma reals_read_same_object (s : World) : same_object s (reals_read s).
Proof.
  eapply same_object_trans; [apply ints_read_same_object|].
  apply for_each_same_object. object_body.
Qed.

Lemma f2d_read_same_object (s : World) : same_object s (f2d_read s).
Proof.
  eapply same_object_trans; [apply reals_read_same_object|].
  apply for_each_same_object. object_body.
Qed.

Lemma f3d_read_same_object (s : World) : same_object s (f3d_read s).
Proof.
  eapply same_object_trans; [apply f2d_read_same_object|].
  apply for_each_same_object. object_body.
Qed.

Lemma v2d_read_same_object (s : World) : same_object s (v2d_read s).
Proof.
  eapply same_object_trans; [apply f3d_read_same_object|].
  apply for_each_same_object. object_body.
Qed.

(** The six loops of [read] walk the sequences the object had when they
    started, one after the other. *)
Lemma read_vars_stages (s : World) :
  snd (read_vars s) = snd (for_each read_v3d_var (v3d_arr (self s)) (v2d_read s)).
Proof.
  unfold read_vars. run_bind. cbn [gets fst snd].
  fold (ints_read s).
  destruct (same_object_arrays s _ (ints_read_same_object s))
    as (_ & -> & _).
  fold (reals_read s).
  destruct (same_object_arrays s _ (reals_read_same_object s))
    as (_ & _ & -> & _).
  fold (f2d_read s).
  destruct (same_object_arrays s _ (f2d_read_same_object s))
    as (_ & _ & _ & -> & _).
  fold (f3d_read s).
  destruct (same_object_arrays s _ (f3d_read_same_object s))
    as (_ & _ & _ & _ & -> & _).
  fold (v2d_read s).
  destruct (same_object_arrays s _ (v2d_read_same_object s))
    as (_ & _ & _ & _ & _ & ->).
  reflexivity.
Qed.

Lemma add_elapsed_output (tstart : BoutReal) (s : World) :
  output (snd (add_elapsed tstart s)) = output s.
Proof. reflexivity. Qed.

Lemma file_close_output (s : World) : output (snd (file_close s)) = output s.
Proof. reflexivity. Qed.

(** What a [read] that got past the open and the validity check leaves in
    the caller's memory and in the log is what its six loops leave there. *)
Lemma read_success_mem (fmt : string) (ap : list va_arg) (s : World) :
  fst (openr (vsprintf fmt ap) (file (self s))) = true ->
  fst (is_valid (snd (openr (vsprintf fmt ap) (file (self s))))) = true ->
  mem (snd (read (Some fmt) ap s)) =
    mem (snd (for_each read_v3d_var (v3d_arr (self s))
                (v2d_read (opened_for_read fmt ap s))))
  /\ output (snd (read (Some fmt) ap s)) =
    output (snd (for_each read_v3d_var (v3d_arr (self s))
                   (v2d_read (opened_for_read fmt ap s)))).
Proof.
  intros Hopen Hvalid.
  rewrite (read_transfers fmt ap s Hopen Hvalid), add_elapsed_mem,
    file_close_mem, add_elapsed_output, file_close_output.
  fold (opened_for_read fmt ap s). rewrite read_vars_stages.
  split; reflexivity.
Qed.

Lemma read_success_calls (fmt : string) (ap : list va_arg) (s : World) :
  fst (openr (vsprintf fmt ap) (file (self s))) = true ->
  fst (is_valid (snd (openr (vsprintf fmt ap) (file (self s))))) = true ->
  calls (snd (read (Some fmt) ap s)) =
  calls s ++ [Copenr (vsprintf fmt ap); Cis_valid; CsetRecord (-1)]
  ++ read_vars_calls (self s) ++ [Cclose].
Proof.
  intros Hopen Hvalid. rewrite (read_transfers fmt ap s Hopen Hvalid).
  rewrite add_elapsed_calls, file_close_calls, read_vars_calls_eq.
  rewrite (read_vars_calls_same_object s).
  - rewrite file_setRecord_calls, file_is_valid_calls, file_openr_calls,
      wall_time_calls, <- !app_assoc.
    reflexivity.
  - unfold same_object. cbn. destruct (self s). reflexivity.
Qed.

Lemma write_success_calls (filename : string) (app : bool) (s : World) :
  enabled s = true ->
  fst (openw filename app (file (self s))) = true ->
  fst (is_valid (snd (openw filename app (file (self s))))) = true ->
  calls (snd (write filename app s)) =
  calls s ++ [Copenw filename app; Cis_valid; CsetRecord (-1)]
  ++ write_vars_calls (self s) (mem s) ++ [Cclose].
Proof.
  intros Hen Hopen Hvalid.
  rewrite (write_transfers filename app s Hen Hopen Hvalid).
  rewrite add_elapsed_calls, file_close_calls, write_vars_calls_eq.
  rewrite (write_vars_calls_same_object s).
  - rewrite file_setRecord_calls, file_is_valid_calls, file_openw_calls,
      wall_time_calls, <- !app_assoc.
    reflexivity.
  - unfold same_object. cbn. destruct (self s). reflexivity.
Qed.

(** ** Fields and vectors that a loop of [read] leaves alone *)






Lemma store_f2d_keeps_f3d (q : fptr) (f : Field2D)
    (m : Memory BoutReal Field2D Field3D) (p : fptr) :
  load_f3d p (store_f2d q f m) = load_f3d p m.
Proof. destruct p, q; reflexivity. Qed.

Lemma store_f3d_keeps_vec2 (q : fptr) (f : Field3D)
    (m : Memory BoutReal Field2D Field3D) (a : addr) :
  m_v2d (store_f3d q f m) a = m_v2d m a.
Proof. destruct q; reflexivity. Qed.

Lemma store_f2d_vec_ne (a' : addr) (c : comp) (f : Field2D)
    (m : Memory BoutReal Field2D Field3D) (a : addr) :
  a' <> a -> m_v2d (store_f2d (CompAt a' c) f m) a = m_v2d m a.
Proof. intros Hne. cbn. apply fn_lookup_insert_ne, Hne. Qed.

Lemma store_f3d_vec_ne (a' : addr) (c : comp) (f : Field3D)
    (m : Memory BoutReal Field2D Field3D) (a : addr) :
  a' <> a -> m_v3d (store_f3d (CompAt a' c) f m) a = m_v3d m a.
Proof. intros Hne. cbn. apply fn_lookup_insert_ne, Hne. Qed.




Lemma read_f2d_keeps_f3d (nm : string) (f : fptr) (g : bool) (p : fptr)
    (s : World) :
  load_f3d p (mem (snd (read_f2d nm f g s))) = load_f3d p (mem s).
Proof. read_field_prelude g; rewrite !store_f2d_keeps_f3d; reflexivity. Qed.

Lemma read_f3d_keeps_vec2 (nm : string) (f : fptr) (g : bool) (a : addr)
    (s : World) :
  m_v2d (mem (snd (read_f3d nm f g s))) a = m_v2d (mem s) a.
Proof. read_field_prelude g; rewrite !store_f3d_keeps_vec2; reflexivity. Qed.

Lemma read_f2d_vec_elsewhere (nm : string) (a' : addr) (c : comp) (g : bool)
    (a : addr) (s : World) :
  a' <> a ->
  m_v2d (mem (snd (read_f2d nm (CompAt a' c) g s))) a = m_v2d (mem s) a.
Proof.
  intros Hne. read_field_prelude g;
    rewrite !(store_f2d_vec_ne _ _ _ _ _ Hne); reflexivity.
Qed.

Lemma read_f3d_vec_elsewhere (nm : string) (a' : addr) (c : comp) (g : bool)
    (a : addr) (s : World) :
  a' <> a ->
  m_v3d (mem (snd (read_f3d nm (CompAt a' c) g s))) a = m_v3d (mem s) a.
Proof.
  intros Hne. read_field_prelude g;
    rewrite !(store_f3d_vec_ne _ _ _ _ _ Hne); reflexivity.
Qed.

(** *** One loop body *)







Lemma read_v3d_var_keeps_vec2 (it : VarStr addr) (a : addr) (s : World) :
  m_v2d (mem (snd (read_v3d_var it s))) a = m_v2d (mem s) a.
Proof.
  unfold read_v3d_var.
  destruct (covar it); run_bind; world_cbn; cbn [m_v2d set_m_v3d];
    rewrite !read_f3d_keeps_vec2; reflexivity.
Qed.

Lemma read_v2d_var_vec_elsewhere (it : VarStr addr) (a : addr) (s : World) :
  ptr it <> a ->
  m_v2d (mem (snd (read_v2d_var it s))) a = m_v2d (mem s) a.
Proof.
  intros Hne. unfold read_v2d_var.
  destruct (covar it); run_bind; world_cbn; cbn [m_v2d set_m_v2d];
    rewrite fn_lookup_insert_ne by exact Hne;
    rewrite !read_f2d_vec_elsewhere by exact Hne; reflexivity.
Qed.

Lemma read_v3d_var_vec_elsewhere (it : VarStr addr) (a : addr) (s : World) :
  ptr it <> a ->
  m_v3d (mem (snd (read_v3d_var it s))) a = m_v3d (mem s) a.
Proof.
  intros Hne. unfold read_v3d_var.
  destruct (covar it); run_bind; world_cbn; cbn [m_v3d set_m_v3d];
    rewrite fn_lookup_insert_ne by exact Hne;
    rewrite !read_f3d_vec_elsewhere by exact Hne; reflexivity.
Qed.




(** *** A whole loop *)

Lemma keeps_f2d_refl (p : fptr) (s : World) : keeps_f2d p s s.
Proof. reflexivity. Qed.

Lemma keeps_f2d_trans (p : fptr) (s1 s2 s3 : World) :
  keeps_f2d p s1 s2 -> keeps_f2d p s2 s3 -> keeps_f2d p s1 s3.
Proof. unfold keeps_f2d. congruence. Qed.

Lemma keeps_f3d_refl (p : fptr) (s : World) : keeps_f3d p s s.
Proof. reflexivity. Qed.

Lemma keeps_f3d_trans (p : fptr) (s1 s2 s3 : World) :
  keeps_f3d p s1 s2 -> keeps_f3d p s2 s3 -> keeps_f3d p s1 s3.
Proof. unfold keeps_f3d. congruence. Qed.

Lemma keeps_vec2_refl (a : addr) (s : World) : keeps_vec2 a s s.
Proof. reflexivity. Qed.

Lemma keeps_vec2_trans (a : addr) (s1 s2 s3 : World) :
  keeps_vec2 a s1 s2 -> keeps_vec2 a s2 s3 -> keeps_vec2 a s1 s3.
Proof. unfold keeps_vec2. congruence. Qed.

Lemma keeps_vec3_refl (a : addr) (s : World) : keeps_vec3 a s s.
Proof. reflexivity. Qed.

Lemma keeps_vec3_trans (a : addr) (s1 s2 s3 : World) :
  keeps_vec3 a s1 s2 -> keeps_vec3 a s2 s3 -> keeps_vec3 a s1 s3.
Proof. unfold keeps_vec3. congruence. Qed.

Ltac field_leaf :=
  intros ?; unfold keeps_f2d, keeps_f3d, keeps_vec2, keeps_vec3; cbn;
  try match goal with
      | |- context [load_f2d ?p _] => destruct p
      | |- context [load_f3d ?p _] => destruct p
      end;
  reflexivity.

(** The two loops over the scalars store no field and no vector. *)
Lemma int_loop_keeps_f2d (l : list (VarStr addr)) (p : fptr) (s : World) :
  load_f2d p (mem (snd (for_each read_int_var l s))) = load_f2d p (mem s).
Proof.
  apply (keeps_for_each (keeps_f2d p) (keeps_f2d_refl p) (keeps_f2d_trans p)
           read_int_var l).
  body_keeps (keeps_f2d_refl p) (keeps_f2d_trans p) field_leaf.
Qed.

Lemma real_loop_keeps_f2d (l : list (VarStr addr)) (p : fptr) (s : World) :
  load_f2d p (mem (snd (for_each read_real_var l s))) = load_f2d p (mem s).
Proof.
  apply (keeps_for_each (keeps_f2d p) (keeps_f2d_refl p) (keeps_f2d_trans p)
           read_real_var l).
  body_keeps (keeps_f2d_refl p) (keeps_f2d_trans p) field_leaf.
Qed.

Lemma int_loop_keeps_f3d (l : list (VarStr addr)) (p : fptr) (s : World) :
  load_f3d p (mem (snd (for_each read_int_var l s))) = load_f3d p (mem s).
Proof.
  apply (keeps_for_each (keeps_f3d p) (keeps_f3d_refl p) (keeps_f3d_trans p)
           read_int_var l).
  body_keeps (keeps_f3d_refl p) (keeps_f3d_trans p) field_leaf.
Qed.

Lemma real_loop_keeps_f3d (l : list (VarStr addr)) (p : fptr) (s : World) :
  load_f3d p (mem (snd (for_each read_real_var l s))) = load_f3d p (mem s).
Proof.
  apply (keeps_for_each (keeps_f3d p) (keeps_f3d_refl p) (keeps_f3d_trans p)
           read_real_var l).
  body_keeps (keeps_f3d_refl p) (keeps_f3d_trans p) field_leaf.
Qed.





(** The same for the 3D fields. *)
Lemma f2d_loop_keeps_f3d (l : list (VarStr fptr)) (p : fptr) (s : World) :
  load_f3d p (mem (snd (for_each read_f2d_var l s))) = load_f3d p (mem s).
Proof.
  apply (keeps_for_each (keeps_f3d p) (keeps_f3d_refl p) (keeps_f3d_trans p)
           read_f2d_var l).
  intros it s'. unfold keeps_f3d, read_f2d_var. run_bind.
  apply read_f2d_keeps_f3d.
Qed.




(** A loop over vectors stores only the vectors of its records, and the
    loop over the 3D vectors no 2D vector. *)
Lemma v2d_loop_vec_elsewhere (l : list (VarStr addr)) (a : addr) (s : World) :
  (forall it, In it l -> ptr it <> a) ->
  m_v2d (mem (snd (for_each read_v2d_var l s))) a = m_v2d (mem s) a.
Proof.
  intros Hl.
  apply (for_each_keeps_in (keeps_vec2 a) read_v2d_var l s
           (keeps_vec2_refl a) (keeps_vec2_trans a)).
  intros it Hin s'. unfold keeps_vec2.
  apply read_v2d_var_vec_elsewhere, Hl, Hin.
Qed.

Lemma v3d_loop_vec_elsewhere (l : list (VarStr addr)) (a : addr) (s : World) :
  (forall it, In it l -> ptr it <> a) ->
  m_v3d (mem (snd (for_each read_v3d_var l s))) a = m_v3d (mem s) a.
Proof.
  intros Hl.
  apply (for_each_keeps_in (keeps_vec3 a) read_v3d_var l s
           (keeps_vec3_refl a) (keeps_vec3_trans a)).
  intros it Hin s'. unfold keeps_vec3.
  apply read_v3d_var_vec_elsewhere, Hl, Hin.
Qed.

Lemma v3d_loop_keeps_vec2 (l : list (VarStr addr)) (a : addr) (s : World) :
  m_v2d (mem (snd (for_each read_v3d_var l s))) a = m_v2d (mem s) a.
Proof.
  apply (keeps_for_each (keeps_vec2 a) (keeps_vec2_refl a) (keeps_vec2_trans a)
           read_v3d_var l).
  intros it s'. apply read_v3d_var_keeps_vec2.
Qed.









(** *** Vectors along the loops before their own *)

Lemma store_f2d_keeps_vec3 (q : fptr) (f : Field2D)
    (m : Memory BoutReal Field2D Field3D) (a : addr) :
  m_v3d (store_f2d q f m) a = m_v3d m a.
Proof. destruct q; reflexivity. Qed.

Lemma read_f2d_keeps_vec3 (nm : string) (f : fptr) (g : bool) (a : addr)
    (s : World) :
  m_v3d (mem (snd (read_f2d nm f g s))) a = m_v3d (mem s) a.
Proof. read_field_prelude g; rewrite !store_f2d_keeps_vec3; reflexivity. Qed.

Lemma read_f2d_var_vec_elsewhere (it : VarStr fptr) (a : addr) (s : World) :
  (forall c, ptr it <> CompAt a c) ->
  m_v2d (mem (snd (read_f2d_var it s))) a = m_v2d (mem s) a.
Proof.
  intros Hp. rewrite read_f2d_var_state.
  destruct (ptr it) as [a0|a' c].
  - read_field_prelude (grow it); reflexivity.
  - apply read_f2d_vec_elsewhere. intros ->. apply (Hp c). reflexivity.
Qed.

Lemma read_f3d_var_vec_elsewhere (it : VarStr fptr) (a : addr) (s : World) :
  (forall c, ptr it <> CompAt a c) ->
  m_v3d (mem (snd (read_f3d_var it s))) a = m_v3d (mem s) a.
Proof.
  intros Hp. rewrite read_f3d_var_state.
  destruct (ptr it) as [a0|a' c].
  - read_field_prelude (grow it); reflexivity.
  - apply read_f3d_vec_elsewhere. intros ->. apply (Hp c). reflexivity.
Qed.

Lemma int_loop_keeps_vec2 (l : list (VarStr addr)) (a : addr) (s : World) :
  m_v2d (mem (snd (for_each read_int_var l s))) a = m_v2d (mem s) a.
Proof.
  apply (keeps_for_each (keeps_vec2 a) (keeps_vec2_refl a) (keeps_vec2_trans a)
           read_int_var l).
  body_keeps (keeps_vec2_refl a) (keeps_vec2_trans a) field_leaf.
Qed.

Lemma real_loop_keeps_vec2 (l : list (VarStr addr)) (a : addr) (s : World) :
  m_v2d (mem (snd (for_each read_real_var l s))) a = m_v2d (mem s) a.
Proof.
  apply (keeps_for_each (keeps_vec2 a) (keeps_vec2_refl a) (keeps_vec2_trans a)
           read_real_var l).
  body_keeps (keeps_vec2_refl a) (keeps_vec2_trans a) field_leaf.
Qed.

Lemma int_loop_keeps_vec3 (l : list (VarStr addr)) (a : addr) (s : World) :
  m_v3d (mem (snd (for_each read_int_var l s))) a = m_v3d (mem s) a.
Proof.
  apply (keeps_for_each (keeps_vec3 a) (keeps_vec3_refl a) (keeps_vec3_trans a)
           read_int_var l).
  body_keeps (keeps_vec3_refl a) (keeps_vec3_trans a) field_leaf.
Qed.

Lemma real_loop_keeps_vec3 (l : list (VarStr addr)) (a : addr) (s : World) :
  m_v3d (mem (snd (for_each read_real_var l s))) a = m_v3d (mem s) a.
Proof.
  apply (keeps_for_each (keeps_vec3 a) (keeps_vec3_refl a) (keeps_vec3_trans a)
           read_real_var l).
  body_keeps (keeps_vec3_refl a) (keeps_vec3_trans a) field_leaf.
Qed.

Lemma f2d_loop_vec_elsewhere (l : list (VarStr fptr)) (a : addr) (s : World) :
  (forall it, In it l -> forall c, ptr it <> CompAt a c) ->
  m_v2d (mem (snd (for_each read_f2d_var l s))) a = m_v2d (mem s) a.
Proof.
  intros Hl.
  apply (for_each_keeps_in (keeps_vec2 a) read_f2d_var l s
           (keeps_vec2_refl a) (keeps_vec2_trans a)).
  intros it Hin s'. unfold keeps_vec2.
  apply read_f2d_var_vec_elsewhere, Hl, Hin.
Qed.

Lemma f3d_loop_vec_elsewhere (l : list (VarStr fptr)) (a : addr) (s : World) :
  (forall it, In it l -> forall c, ptr it <> CompAt a c) ->
  m_v3d (mem (snd (for_each read_f3d_var l s))) a = m_v3d (mem s) a.
Proof.
  intros Hl.
  apply (for_each_keeps_in (keeps_vec3 a) read_f3d_var l s
           (keeps_vec3_refl a) (keeps_vec3_trans a)).
  intros it Hin s'. unfold keeps_vec3.
  apply read_f3d_var_vec_elsewhere, Hl, Hin.
Qed.

Lemma f3d_loop_keeps_vec2 (l : list (VarStr fptr)) (a : addr) (s : World) :
  m_v2d (mem (snd (for_each read_f3d_var l s))) a = m_v2d (mem s) a.
Proof.
  apply (keeps_for_each (keeps_vec2 a) (keeps_vec2_refl a) (keeps_vec2_trans a)
           read_f3d_var l).
  intros it s'. unfold keeps_vec2. rewrite read_f3d_var_state.
  apply read_f3d_keeps_vec2.
Qed.

Lemma f2d_loop_keeps_vec3 (l : list (VarStr fptr)) (a : addr) (s : World) :
  m_v3d (mem (snd (for_each read_f2d_var l s))) a = m_v3d (mem s) a.
Proof.
  apply (keeps_for_each (keeps_vec3 a) (keeps_vec3_refl a) (keeps_vec3_trans a)
           read_f2d_var l).
  intros it s'. unfold keeps_vec3. rewrite read_f2d_var_state.
  apply read_f2d_keeps_vec3.
Qed.

Lemma v2d_loop_keeps_vec3 (l : list (VarStr addr)) (a : addr) (s : World) :
  m_v3d (mem (snd (for_each read_v2d_var l s))) a = m_v3d (mem s) a.
Proof.
  apply (keeps_for_each (keeps_vec3 a) (keeps_vec3_refl a) (keeps_vec3_trans a)
           read_v2d_var l).
  intros it s'. unfold keeps_vec3, read_v2d_var.
  destruct (covar it); run_bind; world_cbn; cbn [m_v3d set_m_v2d];
    rewrite !read_f2d_keeps_vec3; reflexivity.
Qed.

Lemma vector_eta {F} (v : Vector F) :
  v = mkVector (x v) (y v) (z v) (covariant v).
Proof. destruct v. reflexivity. Qed.

(** What the body of the loop leaves in the vector of its record. *)
Lemma read_v2d_var_result (it : VarStr addr) (s : World) :
  let n := component_name (covar it) (name it) in
  let dims := [ngx mesh; ngy mesh] in
  let s1 := snd (read_f2d (n cx) (CompAt (ptr it) cx) (grow it) s) in
  let s2 := snd (read_f2d (n cy) (CompAt (ptr it) cy) (grow it) s1) in
  let v0 := m_v2d (mem s) (ptr it) in
  m_v2d (mem (snd (read_v2d_var it s))) (ptr it) =
  mkVector (member_after_read (grow it) (n cx) dims (x v0) (file (self s)))
           (member_after_read (grow it) (n cy) dims (y v0) (file (self s1)))
           (member_after_read (grow it) (n cz) dims (z v0) (file (self s2)))
           (covar it).
Proof.
  intros n dims s1 s2 v0.
  destruct (read_v2d_var_members it s) as (Hx & Hy & Hz).
  rewrite (vector_eta (m_v2d (mem (snd (read_v2d_var it s))) (ptr it))).
  rewrite Hx, Hy, Hz, read_v2d_var_target. reflexivity.
Qed.

Lemma read_v3d_var_result (it : VarStr addr) (s : World) :
  let n := component_name (covar it) (name it) in
  let dims := [ngx mesh; ngy mesh; ngz mesh] in
  let s1 := snd (read_f3d (n cx) (CompAt (ptr it) cx) (grow it) s) in
  let s2 := snd (read_f3d (n cy) (CompAt (ptr it) cy) (grow it) s1) in
  let v0 := m_v3d (mem s) (ptr it) in
  m_v3d (mem (snd (read_v3d_var it s))) (ptr it) =
  mkVector (member_after_read (grow it) (n cx) dims (x v0) (file (self s)))
           (member_after_read (grow it) (n cy) dims (y v0) (file (self s1)))
           (member_after_read (grow it) (n cz) dims (z v0) (file (self s2)))
           (covar it).
Proof.
  intros n dims s1 s2 v0.
  destruct (read_v3d_var_members it s) as (Hx & Hy & Hz).
  rewrite (vector_eta (m_v3d (mem (snd (read_v3d_var it s))) (ptr it))).
  rewrite Hx, Hy, Hz, read_v3d_var_target. reflexivity.
Qed.

(** C6. Take a [read] that got past the open and the validity check, and a
    record of a 2D or a 3D vector that no later record of its sequence
    shares its target with.  When [read] returns, the vector's basis flag is
    the [covar] recorded by [add], and each member is what its own read left
    there -- the member as it was when the loop reached the record [s0],
    allocated, overwritten by the backend, and assigned zero if that read
    failed -- with no conversion applied; the three reads see the backend
    in the state the previous one left.  The vector the loop finds at the
    record is the caller's, as [read] found it, when no earlier record and
    no field record points into it. *)
Theorem read_vector_sets_flag_without_conversion
    (fmt : string) (ap : list va_arg) (pre : list (VarStr addr))
    (it : VarStr addr) (post : list (VarStr addr)) (s : World) :
  fst (openr (vsprintf fmt ap) (file (self s))) = true ->
  fst (is_valid (snd (openr (vsprintf fmt ap) (file (self s))))) = true ->
  (forall it', In it' post -> ptr it' <> ptr it) ->
  let s3 := opened_for_read fmt ap s in
  let final := snd (read (Some fmt) ap s) in
  let n := component_name (covar it) (name it) in
  (v2d_arr (self s) = pre ++ it :: post ->
   let dims := [ngx mesh; ngy mesh] in
   let s0 := snd (for_each read_v2d_var pre (f3d_read s3)) in
   let s1 := snd (read_f2d (n cx) (CompAt (ptr it) cx) (grow it) s0) in
   let s2 := snd (read_f2d (n cy) (CompAt (ptr it) cy) (grow it) s1) in
   let v0 := m_v2d (mem s0) (ptr it) in
   m_v2d (mem final) (ptr it) =
     mkVector (member_after_read (grow it) (n cx) dims (x v0) (file (self s0)))
              (member_after_read (grow it) (n cy) dims (y v0) (file (self s1)))
              (member_after_read (grow it) (n cz) dims (z v0) (file (self s2)))
              (covar it)
   /\ ((forall it', In it' pre -> ptr it' <> ptr it) ->
       (forall f, In f (f2d_arr (self s)) ->
                  forall c, ptr f <> CompAt (ptr it) c) ->
       v0 = m_v2d (mem s) (ptr it)))
  /\
  (v3d_arr (self s) = pre ++ it :: post ->
   let dims := [ngx mesh; ngy mesh; ngz mesh] in
   let s0 := snd (for_each read_v3d_var pre (v2d_read s3)) in
   let s1 := snd (read_f3d (n cx) (CompAt (ptr it) cx) (grow it) s0) in
   let s2 := snd (read_f3d (n cy) (CompAt (ptr it) cy) (grow it) s1) in
   let v0 := m_v3d (mem s0) (ptr it) in
   m_v3d (mem final) (ptr it) =
     mkVector (member_after_read (grow it) (n cx) dims (x v0) (file (self s0)))
              (member_after_read (grow it) (n cy) dims (y v0) (file (self s1)))
              (member_after_read (grow it) (n cz) dims (z v0) (file (self s2)))
              (covar it)
   /\ ((forall it', In it' pre -> ptr it' <> ptr it) ->
       (forall f, In f (f3d_arr (self s)) ->
                  forall c, ptr f <> CompAt (ptr it) c) ->
       v0 = m_v3d (mem s) (ptr it))).
Proof.
  intros Hopen Hvalid Hpost s3 final n.
  destruct (read_success_mem fmt ap s Hopen Hvalid) as [Hmem _].
  fold s3 in Hmem. fold final in Hmem.
  split.
  - intros Harr dims s0 s1 s2 v0. split.
    + rewrite Hmem, v3d_loop_keeps_vec2. unfold v2d_read.
      change (v2d_arr (self s3)) with (v2d_arr (self s)).
      rewrite Harr, for_each_middle.
      rewrite (v2d_loop_vec_elsewhere post (ptr it) _ Hpost).
      apply read_v2d_var_result.
    + intros Hpre Hfields. subst v0 s0.
      rewrite (v2d_loop_vec_elsewhere pre (ptr it) _ Hpre).
      unfold f3d_read. rewrite f3d_loop_keeps_vec2.
      unfold f2d_read. change (f2d_arr (self s3)) with (f2d_arr (self s)).
      rewrite (f2d_loop_vec_elsewhere _ (ptr it) _ Hfields).
      unfold reals_read. rewrite real_loop_keeps_vec2.
      unfold ints_read. rewrite int_loop_keeps_vec2.
      reflexivity.
  - intros Harr dims s0 s1 s2 v0. split.
    + rewrite Hmem. rewrite Harr, for_each_middle.
      rewrite (v3d_loop_vec_elsewhere post (ptr it) _ Hpost).
      apply read_v3d_var_result.
    + intros Hpre Hfields. subst v0 s0.
      rewrite (v3d_loop_vec_elsewhere pre (ptr it) _ Hpre).
      unfold v2d_read. rewrite v2d_loop_keeps_vec3.
      unfold f3d_read. change (f3d_arr (self s3)) with (f3d_arr (self s)).
      rewrite (f3d_loop_vec_elsewhere _ (ptr it) _ Hfields).
      unfold f2d_read. rewrite f2d_loop_keeps_vec3.
      unfold reals_read. rewrite real_loop_keeps_vec3.
      unfold ints_read. rewrite int_loop_keeps_vec3.
      reflexivity.
Qed.

(** C7. [read] never consults [enabled]: with the flag forced to either
    value it returns the same status and leaves the same state (the flag
    apart), and with a template its first backend call opens the formatted
    name.  So, whatever the flag, a [read] whose open and validity check
    succeed returns 0, makes the open, the check, the selection of the
    latest record, the read of every registered record and the close, and
    leaves in the caller's memory and in the log what its six loops leave.
    The flag gates [write], which with the flag off returns at once. *)
Theorem read_attempts_io_whatever_enabled
    (fmt : string) (ap : list va_arg) (filename : string) (app : bool)
    (b : bool) (s : World) :
  read (Some fmt) ap (set_enabled b s) =
    (fst (read (Some fmt) ap s), set_enabled b (snd (read (Some fmt) ap s)))
  /\ (exists rest,
       calls (snd (read (Some fmt) ap (set_enabled b s))) =
       calls s ++ Copenr (vsprintf fmt ap) :: rest)
  /\ (fst (openr (vsprintf fmt ap) (file (self s))) = true ->
      fst (is_valid (snd (openr (vsprintf fmt ap) (file (self s))))) = true ->
      let final := snd (read (Some fmt) ap (set_enabled b s)) in
      let loops :=
        snd (for_each read_v3d_var (v3d_arr (self s))
               (v2d_read (opened_for_read fmt ap s))) in
      fst (read (Some fmt) ap (set_enabled b s)) = 0
      /\ calls final =
         calls s ++ [Copenr (vsprintf fmt ap); Cis_valid; CsetRecord (-1)]
         ++ read_vars_calls (self s) ++ [Cclose]
      /\ mem final = mem loops
      /\ output final = output loops)
  /\ write filename app (set_enabled false s) = (true, set_enabled false s).
Proof.
  repeat apply conj.
  - apply read_ignores_enabled_flag.
  - apply (read_opens_first fmt ap (set_enabled b s)).
  - intros Hopen Hvalid final loops. subst final.
    rewrite (read_ignores_enabled_flag (Some fmt) ap b s).
    cbn [fst snd set_enabled calls mem output].
    destruct (read_success_mem fmt ap s Hopen Hvalid) as [Hmem Hout].
    split; [apply read_status_ok; assumption|].
    split; [exact (read_success_calls fmt ap s Hopen Hvalid)|].
    split; [exact Hmem | exact Hout].
  - apply write_disabled. reflexivity.
Qed.

(** ** The calls of one record within those of a whole [read] or [write] *)

Lemma block_app_l {C} (m l r : list C) :
  (exists before after, l = before ++ m ++ after) ->
  exists before after, l ++ r = before ++ m ++ after.
Proof.
  intros (b & a & ->). exists b, (a ++ r).
  rewrite <- !app_assoc. reflexivity.
Qed.

Lemma block_app_r {C} (m l r : list C) :
  (exists before after, r = before ++ m ++ after) ->
  exists before after, l ++ r = before ++ m ++ after.
Proof.
  intros (b & a & ->). exists (l ++ b), a.
  rewrite <- !app_assoc. reflexivity.
Qed.

Lemma block_flat_map {A C} (f : A -> list C) (l : list A) (it : A) :
  In it l -> exists before after, flat_map f l = before ++ f it ++ after.
Proof.
  intros Hin. destruct (in_split _ _ Hin) as (pre & post & ->).
  exists (flat_map f pre), (flat_map f post).
  rewrite flat_map_app. reflexivity.
Qed.

Lemma read_calls_of_v2d (fmt : string) (ap : list va_arg) (s : World)
    (it : VarStr addr) :
  fst (openr (vsprintf fmt ap) (file (self s))) = true ->
  fst (is_valid (snd (openr (vsprintf fmt ap) (file (self s))))) = true ->
  In it (v2d_arr (self s)) ->
  exists before after,
    calls (snd (read (Some fmt) ap s)) =
    before
    ++ map (fun n => Cread (grow it) TData n [ngx mesh; ngy mesh])
           (component_names (covar it) (name it))
    ++ after.
Proof.
  intros Hopen Hvalid Hin.
  rewrite (read_success_calls fmt ap s Hopen Hvalid). unfold read_vars_calls.
  apply block_app_r, block_app_r, block_app_l.
  do 4 apply block_app_r. apply block_app_l.
  exact (block_flat_map _ _ it Hin).
Qed.

Lemma read_calls_of_v3d (fmt : string) (ap : list va_arg) (s : World)
    (it : VarStr addr) :
  fst (openr (vsprintf fmt ap) (file (self s))) = true ->
  fst (is_valid (snd (openr (vsprintf fmt ap) (file (self s))))) = true ->
  In it (v3d_arr (self s)) ->
  exists before after,
    calls (snd (read (Some fmt) ap s)) =
    before
    ++ map (fun n => Cread (grow it) TData n [ngx mesh; ngy mesh; ngz mesh])
           (component_names (covar it) (name it))
    ++ after.
Proof.
  intros Hopen Hvalid Hin.
  rewrite (read_success_calls fmt ap s Hopen Hvalid). unfold read_vars_calls.
  apply block_app_r, block_app_r, block_app_l.
  do 5 apply block_app_r.
  exact (block_flat_map _ _ it Hin).
Qed.

Lemma write_calls_of_v2d (filename : string) (app : bool) (s : World)
    (it : VarStr addr) :
  enabled s = true ->
  fst (openw filename app (file (self s))) = true ->
  fst (is_valid (snd (openw filename app (file (self s))))) = true ->
  In it (v2d_arr (self s)) ->
  exists before after,
    calls (snd (write filename app s)) =
    before
    ++ vector_write_calls (grow it) [ngx mesh; ngy mesh] (covar it) (name it)
         (converted_copy (covar it) (m_v2d (mem s) (ptr it)))
    ++ after.
Proof.
  intros Hen Hopen Hvalid Hin.
  rewrite (write_success_calls filename app s Hen Hopen Hvalid).
  unfold write_vars_calls.
  apply block_app_r, block_app_r, block_app_l.
  do 4 apply block_app_r. apply block_app_l.
  exact (block_flat_map _ _ it Hin).
Qed.

Lemma write_calls_of_v3d (filename : string) (app : bool) (s : World)
    (it : VarStr addr) :
  enabled s = true ->
  fst (openw filename app (file (self s))) = true ->
  fst (is_valid (snd (openw filename app (file (self s))))) = true ->
  In it (v3d_arr (self s)) ->
  exists before after,
    calls (snd (write filename app s)) =
    before
    ++ vector_write_calls (grow it) [ngx mesh; ngy mesh; ngz mesh] (covar it)
         (name it) (converted_copy (covar it) (m_v3d (mem s) (ptr it)))
    ++ after.
Proof.
  intros Hen Hopen Hvalid Hin.
  rewrite (write_success_calls filename app s Hen Hopen Hvalid).
  unfold write_vars_calls.
  apply block_app_r, block_app_r, block_app_l.
  do 5 apply block_app_r.
  exact (block_flat_map _ _ it Hin).
Qed.

(** C4. The backend calls [read] and [write] make for a registered vector
    carry the names [component_names] gives for the [covar] of its record:
    the name followed by [_x], [_y], [_z] when it is true, by [x], [y], [z]
    when it is false.  A [read] that got past the open and the validity
    check makes the three reads, one after the other and in that order; an
    enabled [write] that got past them makes, in that order, the writes of
    the members of the converted copy that are allocated. *)
Theorem vector_component_names
    (it : VarStr addr) (fmt : string) (ap : list va_arg)
    (filename : string) (app : bool) (s : World) :
  component_names true (name it) =
    [name it +:+ "_x"; name it +:+ "_y"; name it +:+ "_z"]
  /\ component_names false (name it) =
    [name it +:+ "x"; name it +:+ "y"; name it +:+ "z"]
  /\ (fst (openr (vsprintf fmt ap) (file (self s))) = true ->
      fst (is_valid (snd (openr (vsprintf fmt ap) (file (self s))))) = true ->
      let trace := calls (snd (read (Some fmt) ap s)) in
      let names :=
        if covar it
        then [name it +:+ "_x"; name it +:+ "_y"; name it +:+ "_z"]
        else [name it +:+ "x"; name it +:+ "y"; name it +:+ "z"] in
      trace =
        calls s ++ [Copenr (vsprintf fmt ap); Cis_valid; CsetRecord (-1)]
        ++ read_vars_calls (self s) ++ [Cclose]
      /\ (In it (v2d_arr (self s)) ->
          exists before after,
            trace =
            before
            ++ map (fun n => Cread (grow it) TData n [ngx mesh; ngy mesh])
                   names
            ++ after)
      /\ (In it (v3d_arr (self s)) ->
          exists before after,
            trace =
            before
            ++ map (fun n => Cread (grow it) TData n
                               [ngx mesh; ngy mesh; ngz mesh])
                   names
            ++ after))
  /\ (enabled s = true ->
      fst (openw filename app (file (self s))) = true ->
      fst (is_valid (snd (openw filename app (file (self s))))) = true ->
      let trace := calls (snd (write filename app s)) in
      let sx := if covar it then "_x" else "x" in
      let sy := if covar it then "_y" else "y" in
      let sz := if covar it then "_z" else "z" in
      trace =
        calls s ++ [Copenw filename app; Cis_valid; CsetRecord (-1)]
        ++ write_vars_calls (self s) (mem s) ++ [Cclose]
      /\ (In it (v2d_arr (self s)) ->
          let dims := [ngx mesh; ngy mesh] in
          let copy := converted_copy (covar it) (m_v2d (mem s) (ptr it)) in
          exists before after,
            trace =
            before
            ++ (field_write_calls (grow it) dims (name it +:+ sx) (x copy)
                ++ field_write_calls (grow it) dims (name it +:+ sy) (y copy)
                ++ field_write_calls (grow it) dims (name it +:+ sz) (z copy))
            ++ after)
      /\ (In it (v3d_arr (self s)) ->
          let dims := [ngx mesh; ngy mesh; ngz mesh] in
          let copy := converted_copy (covar it) (m_v3d (mem s) (ptr it)) in
          exists before after,
            trace =
            before
            ++ (field_write_calls (grow it) dims (name it +:+ sx) (x copy)
                ++ field_write_calls (grow it) dims (name it +:+ sy) (y copy)
                ++ field_write_calls (grow it) dims (name it +:+ sz) (z copy))
            ++ after)).
Proof.
  split; [reflexivity|]. split; [reflexivity|]. split.
  - intros Hopen Hvalid trace names.
    assert (Hnames : names = component_names (covar it) (name it)).
    { subst names. destruct (covar it); reflexivity. }
    rewrite Hnames. split; [|split].
    + exact (read_success_calls fmt ap s Hopen Hvalid).
    + exact (read_calls_of_v2d fmt ap s it Hopen Hvalid).
    + exact (read_calls_of_v3d fmt ap s it Hopen Hvalid).
  - intros Hen Hopen Hvalid trace sx sy sz. split; [|split].
    + exact (write_success_calls filename app s Hen Hopen Hvalid).
    + intros Hin dims copy.
      destruct (write_calls_of_v2d filename app s it Hen Hopen Hvalid Hin)
        as (before & after & E).
      exists before, after. subst trace sx sy sz. rewrite E.
      destruct (covar it); reflexivity.
    + intros Hin dims copy.
      destruct (write_calls_of_v3d filename app s it Hen Hopen Hvalid Hin)
        as (before & after & E).
      exists before, after. subst trace sx sy sz. rewrite E.
      destruct (covar it); reflexivity.
Qed.

(** C5. [write] changes nothing in the caller's memory, so every registered
    vector keeps its members and its flag.  What an enabled [write] that
    got past the open and the validity check hands to the backend for a
    registered vector are the members of a copy: of [toCovariant] of the
    vector when the [covar] of its record is set, of [toContravariant] of
    it otherwise; [field_write_calls] is the write of a member with the
    data of the copy, when that member is allocated. *)
Theorem write_works_on_a_copy (filename : string) (app : bool) (s : World) :
  mem (snd (write filename app s)) = mem s
  /\ (enabled s = true ->
      fst (openw filename app (file (self s))) = true ->
      fst (is_valid (snd (openw filename app (file (self s))))) = true ->
      let final := snd (write filename app s) in
      calls final =
        calls s ++ [Copenw filename app; Cis_valid; CsetRecord (-1)]
        ++ write_vars_calls (self s) (mem s) ++ [Cclose]
      /\ (forall it, In it (v2d_arr (self s)) ->
          let v := m_v2d (mem s) (ptr it) in
          let copy := if covar it then toCovariant v else toContravariant v in
          let n := component_name (covar it) (name it) in
          let dims := [ngx mesh; ngy mesh] in
          m_v2d (mem final) (ptr it) = v
          /\ exists before after,
               calls final =
               before
               ++ (field_write_calls (grow it) dims (n cx) (x copy)
                   ++ field_write_calls (grow it) dims (n cy) (y copy)
                   ++ field_write_calls (grow it) dims (n cz) (z copy))
               ++ after)
      /\ (forall it, In it (v3d_arr (self s)) ->
          let v := m_v3d (mem s) (ptr it) in
          let copy := if covar it then toCovariant v else toContravariant v in
          let n := component_name (covar it) (name it) in
          let dims := [ngx mesh; ngy mesh; ngz mesh] in
          m_v3d (mem final) (ptr it) = v
          /\ exists before after,
               calls final =
               before
               ++ (field_write_calls (grow it) dims (n cx) (x copy)
                   ++ field_write_calls (grow it) dims (n cy) (y copy)
                   ++ field_write_calls (grow it) dims (n cz) (z copy))
               ++ after)).
Proof.
  split; [apply (write_same_mem filename app s)|].
  intros Hen Hopen Hvalid final. split; [|split].
  - exact (write_success_calls filename app s Hen Hopen Hvalid).
  - intros it Hin v copy n dims. split.
    + subst final v. rewrite (write_same_mem filename app s). reflexivity.
    + exact (write_calls_of_v2d filename app s it Hen Hopen Hvalid Hin).
  - intros it Hin v copy n dims. split.
    + subst final v. rewrite (write_same_mem filename app s). reflexivity.
    + exact (write_calls_of_v3d filename app s it Hen Hopen Hvalid Hin).
Qed.

(** ** Where the write calls of [write] come from *)

(** A write call among those of the six loops of [write] is the write of a
    registered scalar, of a registered field that is allocated, or of a
    member, that is allocated, of the converted copy of a registered
    vector. *)
Lemma write_vars_calls_origin (d : Datafile)
    (m : Memory BoutReal Field2D Field3D)
    (g : bool) (nm : string) (dims : list Z) (p : Payload BoutReal) :
  In (Cwrite g nm dims p) (write_vars_calls d m) ->
  (exists it, In it (int_arr d) /\ nm = name it)
  \/ (exists it, In it (BoutReal_arr d) /\ nm = name it)
  \/ (exists it, In it (f2d_arr d) /\ nm = name it
        /\ isAllocated (load_f2d (ptr it) m) = true
        /\ p = PData (getData (load_f2d (ptr it) m)))
  \/ (exists it, In it (f3d_arr d) /\ nm = name it
        /\ isAllocated (load_f3d (ptr it) m) = true
        /\ p = PData (getData (load_f3d (ptr it) m)))
  \/ (exists it c, In it (v2d_arr d)
        /\ nm = component_name (covar it) (name it) c
        /\ let f := get_comp c (converted_copy (covar it) (m_v2d m (ptr it))) in
           isAllocated f = true /\ p = PData (getData f))
  \/ (exists it c, In it (v3d_arr d)
        /\ nm = component_name (covar it) (name it) c
        /\ let f := get_comp c (converted_copy (covar it) (m_v3d m (ptr it))) in
           isAllocated f = true /\ p = PData (getData f)).
Proof.
  unfold write_vars_calls. intros H.
  apply in_app_or in H. destruct H as [H|H].
  { left. apply in_map_iff in H. destruct H as (it & E & Hin).
    injection E as _ <- _ _. exists it. split; [exact Hin | reflexivity]. }
  apply in_app_or in H. destruct H as [H|H].
  { right. left. apply in_map_iff in H. destruct H as (it & E & Hin).
    injection E as _ <- _ _. exists it. split; [exact Hin | reflexivity]. }
  apply in_app_or in H. destruct H as [H|H].
  { right. right. left. apply in_flat_map in H. destruct H as (it & Hin & Hc).
    unfold field_write_calls in Hc.
    destruct (isAllocated (load_f2d (ptr it) m)) eqn:Ha; [|destruct Hc].
    destruct Hc as [E|[]]. injection E as _ <- _ <-.
    exists it. repeat split; assumption. }
  apply in_app_or in H. destruct H as [H|H].
  { do 3 right. left. apply in_flat_map in H. destruct H as (it & Hin & Hc).
    unfold field_write_calls in Hc.
    destruct (isAllocated (load_f3d (ptr it) m)) eqn:Ha; [|destruct Hc].
    destruct Hc as [E|[]]. injection E as _ <- _ <-.
    exists it. repeat split; assumption. }
  apply in_app_or in H. destruct H as [H|H].
  { do 4 right. left. apply in_flat_map in H. destruct H as (it & Hin & Hc).
    unfold vector_write_calls, field_write_calls in Hc.
    apply in_app_or in Hc. destruct Hc as [Hc|Hc];
      [|apply in_app_or in Hc; destruct Hc as [Hc|Hc]];
      match type of Hc with
      | In _ (if isAllocated ?f then _ else _) =>
          destruct (isAllocated f) eqn:Ha; [|destruct Hc]
      end;
      destruct Hc as [E|[]]; injection E as _ <- _ <-;
      [exists it, cx | exists it, cy | exists it, cz];
      repeat split; assumption. }
  do 5 right. apply in_flat_map in H. destruct H as (it & Hin & Hc).
  unfold vector_write_calls, field_write_calls in Hc.
  apply in_app_or in Hc. destruct Hc as [Hc|Hc];
    [|apply in_app_or in Hc; destruct Hc as [Hc|Hc]];
    match type of Hc with
    | In _ (if isAllocated ?f then _ else _) =>
        destruct (isAllocated f) eqn:Ha; [|destruct Hc]
    end;
    destruct Hc as [E|[]]; injection E as _ <- _ <-;
    [exists it, cx | exists it, cy | exists it, cz];
    repeat split; assumption.
Qed.

Lemma flat_map_without {A C} (f : A -> list C) (pre : list A) (it : A)
    (post : list A) :
  f it = [] -> flat_map f (pre ++ it :: post) = flat_map f (pre ++ post).
Proof.
  intros E. rewrite !flat_map_app. cbn [flat_map]. rewrite E. reflexivity.
Qed.

(** A record of a field that is not allocated adds nothing to the calls of
    the six loops. *)
Lemma write_vars_calls_without_f2d (d : Datafile)
    (m : Memory BoutReal Field2D Field3D)
    (pre : list (VarStr fptr)) (it : VarStr fptr) (post : list (VarStr fptr)) :
  f2d_arr d = pre ++ it :: post ->
  isAllocated (load_f2d (ptr it) m) = false ->
  write_vars_calls (set_f2d_arr (pre ++ post) d) m = write_vars_calls d m.
Proof.
  intros Harr Hf. unfold write_vars_calls.
  cbn [set_f2d_arr int_arr BoutReal_arr f2d_arr f3d_arr v2d_arr v3d_arr].
  rewrite Harr, (flat_map_without _ pre it post); [reflexivity|].
  unfold field_write_calls. rewrite Hf. reflexivity.
Qed.

Lemma write_vars_calls_without_f3d (d : Datafile)
    (m : Memory BoutReal Field2D Field3D)
    (pre : list (VarStr fptr)) (it : VarStr fptr) (post : list (VarStr fptr)) :
  f3d_arr d = pre ++ it :: post ->
  isAllocated (load_f3d (ptr it) m) = false ->
  write_vars_calls (set_f3d_arr (pre ++ post) d) m = write_vars_calls d m.
Proof.
  intros Harr Hf. unfold write_vars_calls.
  cbn [set_f3d_arr int_arr BoutReal_arr f2d_arr f3d_arr v2d_arr v3d_arr].
  rewrite Harr, (flat_map_without _ pre it post); [reflexivity|].
  unfold field_write_calls. rewrite Hf. reflexivity.
Qed.

(** C8. [write_f2d] and [write_f3d] on a field that is not allocated return
    without any effect, so without a backend call.  In an enabled [write]
    that got past the open and the validity check this shows as follows:
    the backend calls are the open, the check, the selection of the record,
    those of [write_vars_calls] and the close; a write call among them is
    that of a scalar, of a registered field that is allocated, or of a
    member, that is allocated, of the converted copy of a registered
    vector; the calls are those [write] would make if the record of a field
    that is not allocated were not registered at all; and [write] returns
    [true] whatever the fields are. *)
Theorem unallocated_field_is_skipped
    (filename : string) (app : bool) (s : World) :
  enabled s = true ->
  fst (openw filename app (file (self s))) = true ->
  fst (is_valid (snd (openw filename app (file (self s))))) = true ->
  let trace := calls (snd (write filename app s)) in
  ((forall (nm : string) (f : Field2D) (g : bool) (s' : World),
      isAllocated f = false -> write_f2d nm f g s' = (false, s'))
   /\
   (forall (nm : string) (f : Field3D) (g : bool) (s' : World),
      isAllocated f = false -> write_f3d nm f g s' = (false, s')))
  /\ fst (write filename app s) = true
  /\ trace =
     calls s ++ [Copenw filename app; Cis_valid; CsetRecord (-1)]
     ++ write_vars_calls (self s) (mem s) ++ [Cclose]
  /\ (forall (g : bool) (nm : string) (dims : list Z) (p : Payload BoutReal),
        In (Cwrite g nm dims p) trace ->
        In (Cwrite g nm dims p) (calls s)
        \/ (exists it, In it (int_arr (self s)) /\ nm = name it)
        \/ (exists it, In it (BoutReal_arr (self s)) /\ nm = name it)
        \/ (exists it, In it (f2d_arr (self s)) /\ nm = name it
              /\ isAllocated (load_f2d (ptr it) (mem s)) = true
              /\ p = PData (getData (load_f2d (ptr it) (mem s))))
        \/ (exists it, In it (f3d_arr (self s)) /\ nm = name it
              /\ isAllocated (load_f3d (ptr it) (mem s)) = true
              /\ p = PData (getData (load_f3d (ptr it) (mem s))))
        \/ (exists it c, In it (v2d_arr (self s))
              /\ nm = component_name (covar it) (name it) c
              /\ let f := get_comp c (converted_copy (covar it)
                                        (m_v2d (mem s) (ptr it))) in
                 isAllocated f = true /\ p = PData (getData f))
        \/ (exists it c, In it (v3d_arr (self s))
              /\ nm = component_name (covar it) (name it) c
              /\ let f := get_comp c (converted_copy (covar it)
                                        (m_v3d (mem s) (ptr it))) in
                 isAllocated f = true /\ p = PData (getData f)))
  /\ (forall (pre : list (VarStr fptr)) (it : VarStr fptr)
             (post : list (VarStr fptr)),
        f2d_arr (self s) = pre ++ it :: post ->
        isAllocated (load_f2d (ptr it) (mem s)) = false ->
        trace =
        calls (snd (write filename app
                      (set_self (set_f2d_arr (pre ++ post) (self s)) s))))
  /\ (forall (pre : list (VarStr fptr)) (it : VarStr fptr)
             (post : list (VarStr fptr)),
        f3d_arr (self s) = pre ++ it :: post ->
        isAllocated (load_f3d (ptr it) (mem s)) = false ->
        trace =
        calls (snd (write filename app
                      (set_self (set_f3d_arr (pre ++ post) (self s)) s)))).
Proof.
  intros Hen Hopen Hvalid trace.
  assert (Htrace : trace =
            calls s ++ [Copenw filename app; Cis_valid; CsetRecord (-1)]
            ++ write_vars_calls (self s) (mem s) ++ [Cclose])
    by exact (write_success_calls filename app s Hen Hopen Hvalid).
  split; [split; [apply write_f2d_unallocated | apply write_f3d_unallocated]|].
  split; [apply write_status_ok; assumption|].
  split; [exact Htrace|]. split; [|split].
  - intros g nm dims p Hin. rewrite Htrace in Hin.
    apply in_app_or in Hin. destruct Hin as [Hin|Hin]; [left; exact Hin|].
    right. apply in_app_or in Hin. destruct Hin as [Hin|Hin].
    { destruct Hin as [E|[E|[E|[]]]]; discriminate E. }
    apply in_app_or in Hin. destruct Hin as [Hin|Hin].
    + exact (write_vars_calls_origin _ _ _ _ _ _ Hin).
    + destruct Hin as [E|[]]. discriminate E.
  - intros pre it post Harr Hf. rewrite Htrace.
    rewrite (write_success_calls filename app
               (set_self (set_f2d_arr (pre ++ post) (self s)) s)
               Hen Hopen Hvalid).
    cbn [self mem calls set_self].
    rewrite (write_vars_calls_without_f2d _ _ pre it post Harr Hf).
    reflexivity.
  - intros pre it post Harr Hf. rewrite Htrace.
    rewrite (write_success_calls filename app
               (set_self (set_f3d_arr (pre ++ post) (self s)) s)
               Hen Hopen Hvalid).
    cbn [self mem calls set_self].
    rewrite (write_vars_calls_without_f3d _ _ pre it post Harr Hf).
    reflexivity.
Qed.

(** An enabled [write] starts with the open of the name it is given. *)
Lemma write_opens_first (filename : string) (app : bool) (s : World) :
  enabled s = true ->
  exists rest,
    calls (snd (write filename app s)) =
    calls s ++ Copenw filename app :: rest.
Proof.
  intros Hen.
  destruct (fst (openw filename app (file (self s)))) eqn:Hopen.
  - destruct (fst (is_valid (snd (openw filename app (file (self s))))))
      eqn:Hvalid.
    + rewrite (write_success_calls filename app s Hen Hopen Hvalid).
      eexists. reflexivity.
    + rewrite (write_invalid filename app s Hen Hopen Hvalid).
      cbn [snd].
      rewrite file_is_valid_calls, file_openw_calls, wall_time_calls,
        <- !app_assoc.
      eexists. reflexivity.
  - rewrite (write_open_failed filename app s Hen Hopen). cbn [snd].
    rewrite file_openw_calls, wall_time_calls.
    eexists. reflexivity.
Qed.

(** C9, as the code has it.  With a null template [read], the printf-style
    [write] and [append] return 1 and leave the whole state as it was, so
    they call no backend primitive; [setFilename], which has no status to
    return, empties [def_filename] and changes nothing else.  A template
    that is not null is a template like any other, the empty one too:
    [read] hands the formatted name to [openr] as its first backend call;
    [write] and [append] return 0 or 1 as [write] on the formatted name,
    without and with the append flag, returns [true] or [false], and leave
    the state that call leaves.  So with the empty template and [enabled]
    false they return 0 at once, and with [enabled] true their first
    backend call opens the formatted name for writing. *)
Theorem null_template_is_refused (fmt : string) (ap : list va_arg) (s : World) :
  read None ap s = (1, s)
  /\ write_fmt None ap s = (1, s)
  /\ append None ap s = (1, s)
  /\ setFilename None ap s =
     (tt, set_self (set_def_filename EmptyString (self s)) s)
  /\ (let s' := snd (setFilename None ap s) in
      def_filename (self s') = EmptyString
      /\ registry (self s') = registry (self s)
      /\ low_prec (self s') = low_prec (self s)
      /\ file (self s') = file (self s)
      /\ mem s' = mem s /\ enabled s' = enabled s /\ wtime s' = wtime s
      /\ clock s' = clock s /\ output s' = output s /\ calls s' = calls s)
  /\ (exists rest,
        calls (snd (read (Some EmptyString) ap s)) =
        calls s ++ Copenr (vsprintf EmptyString ap) :: rest)
  /\ write_fmt (Some fmt) ap s =
     ((if fst (write (vsprintf fmt ap) false s) then 0 else 1),
      snd (write (vsprintf fmt ap) false s))
  /\ append (Some fmt) ap s =
     ((if fst (write (vsprintf fmt ap) true s) then 0 else 1),
      snd (write (vsprintf fmt ap) true s))
  /\ (enabled s = false ->
        write_fmt (Some EmptyString) ap s = (0, s)
        /\ append (Some EmptyString) ap s = (0, s))
  /\ (enabled s = true ->
        (exists rest,
           calls (snd (write_fmt (Some EmptyString) ap s)) =
           calls s ++ Copenw (vsprintf EmptyString ap) false :: rest)
        /\
        (exists rest,
           calls (snd (append (Some EmptyString) ap s)) =
           calls s ++ Copenw (vsprintf EmptyString ap) true :: rest)).
Proof.
  assert (Ha : forall f, append (Some f) ap s =
            ((if fst (write (vsprintf f ap) true s) then 0 else 1),
             snd (write (vsprintf f ap) true s))).
  { intros f. unfold append. cbv zeta. rewrite bind_eq.
    destruct (fst (write (vsprintf f ap) true s)); reflexivity. }
  assert (Hw' : forall f, write_fmt (Some f) ap s =
            ((if fst (write (vsprintf f ap) false s) then 0 else 1),
             snd (write (vsprintf f ap) false s))).
  { intros f. unfold write_fmt. cbv zeta. rewrite bind_eq.
    destruct (fst (write (vsprintf f ap) false s)); reflexivity. }
  split; [reflexivity|]. split; [reflexivity|]. split; [reflexivity|].
  split; [reflexivity|].
  split; [cbn; destruct (self s); repeat split|].
  split; [apply read_opens_first|].
  split; [apply Hw'|]. split; [apply Ha|]. split.
  - intros Hen. rewrite Hw', Ha, !(write_disabled _ _ _ Hen).
    split; reflexivity.
  - intros Hen. rewrite Hw', Ha. cbn [snd].
    split; apply write_opens_first, Hen.
Qed.

End Properties.


(** * The properties at concrete inputs *)

Import Double.

Example component_names_of_v :
  component_names true "v" = ["v_x"; "v_y"; "v_z"]
  /\ component_names false "v" = ["vx"; "vy"; "vz"].
Proof. split; reflexivity. Qed.

(** Nothing of [world1] is in the file: every read fails, five warnings are
    written, and the status is still 0. *)
Example read_world1 :
  fst (read (Some "restart") [] world1) = 0
  /\ calls (snd (read (Some "restart") [] world1)) =
     [Copenr "restart"; Cis_valid; CsetRecord (-1);
      Cread false TInt "n" []; Cread true TData "f" [2; 1];
      Cread false TData "vx" [2; 1]; Cread false TData "vy" [2; 1];
      Cread false TData "vz" [2; 1]; Cclose]
  /\ length (output (snd (read (Some "restart") [] world1))) = 5%nat
  /\ m_int (mem (snd (read (Some "restart") [] world1))) 1%N = 0
  /\ m_f2d (mem (snd (read (Some "restart") [] world1))) 2%N = Some [0; 0]
  /\ m_v2d (mem (snd (read (Some "restart") [] world1))) 3%N =
     mkVector (Some [0; 0]) (Some [0; 0]) (Some [0; 0]) false.
Proof. vm_compute. repeat split. Qed.

(** The integer is written, the unallocated field and vector are not. *)
Example write_world1 :
  fst (write "dump" false world1) = true
  /\ calls (snd (write "dump" false world1)) =
     [Copenw "dump" false; Cis_valid; CsetRecord (-1);
      Cwrite false "n" [] (PInt 5); Cclose].
Proof. vm_compute. repeat split. Qed.


Lemma read_vector_sets_flag_without_conversion_witness :
  let s := Scenario.world in
  let final := snd (read (Some "restart") [] s) in
  fst (openr "restart" (file (self s))) = true
  /\ v2d_arr (self s) = [Scenario.v2d_u] ++ Scenario.v2d_v :: [Scenario.v2d_w]
  /\ covariant (m_v2d (mem s) (ptr Scenario.v2d_v)) = true
  /\ m_v2d (mem final) (ptr Scenario.v2d_v) =
     mkVector (Some [1; 1]) (Some [0; 0]) (Some [3; 3]) false
  /\ v3d_arr (self s) = [Scenario.v3d_m] ++ Scenario.v3d_n :: [Scenario.v3d_o]
  /\ covariant (m_v3d (mem s) (ptr Scenario.v3d_n)) = false
  /\ m_v3d (mem final) (ptr Scenario.v3d_n) =
     mkVector (Some [1; 0]) (Some [0; 1]) (Some [0; 0]) true.
Proof.
  intros s final.
  destruct (read_vector_sets_flag_without_conversion "restart" []
              [Scenario.v2d_u] Scenario.v2d_v [Scenario.v2d_w] Scenario.world)
    as [H2 _]; [reflexivity | reflexivity | |].
  { intros it' [<-|[]]. discriminate. }
  destruct (read_vector_sets_flag_without_conversion "restart" []
              [Scenario.v3d_m] Scenario.v3d_n [Scenario.v3d_o] Scenario.world)
    as [_ H3]; [reflexivity | reflexivity | |].
  { intros it' [<-|[]]. discriminate. }
  destruct (H2 eq_refl) as [H2v _].
  destruct (H3 eq_refl) as [H3v _].
  split; [reflexivity|]. split; [reflexivity|]. split; [reflexivity|].
  split; [subst final s; rewrite H2v; reflexivity|].
  split; [reflexivity|]. split; [reflexivity|].
  subst final s. rewrite H3v. reflexivity.
Defined.

Lemma add_duplicate_throws_fresh_appends_witness :
  In "n" (registered_names (self world1))
  /\ add_Field2D (FieldAt 9%N) "n" 1 world1 = Thrown (already_added "n") world1
  /\ ~ In "m" (registered_names (self world1))
  /\ exists s' d, add_int 4%N "m" 1 world1 = Returned s' /\ ptr d = 4%N
       /\ name d = "m"
       /\ registry (self s') =
          (int_arr (self world1) ++ [d], BoutReal_arr (self world1),
           f2d_arr (self world1), f3d_arr (self world1),
           v2d_arr (self world1), v3d_arr (self world1)).
Proof.
  assert (Hin : In "n" (registered_names (self world1))) by (left; reflexivity).
  assert (Hfresh : ~ In "m" (registered_names (self world1))).
  { intros H. vm_compute in H. destruct H as [H|[H|[H|[]]]]; discriminate. }
  destruct (add_duplicate_throws_fresh_appends world1 "n" 1 4%N 5%N
              (FieldAt 9%N) (FieldAt 9%N) 6%N 7%N) as [Hdup _].
  destruct (add_duplicate_throws_fresh_appends world1 "m" 1 4%N 5%N
              (FieldAt 9%N) (FieldAt 9%N) 6%N 7%N) as [_ Hnew].
  split; [exact Hin|]. split; [apply (Hdup Hin)|].
  split; [exact Hfresh|]. apply (Hnew Hfresh).
Defined.

Lemma write_disabled_touches_nothing_witness :
  enabled (set_enabled false world1) = false
  /\ fst (write "dump" true (set_enabled false world1)) = true
  /\ snd (write "dump" true (set_enabled false world1)) = set_enabled false world1
  /\ calls (snd (write "dump" true (set_enabled false world1))) =
     calls (set_enabled false world1).
Proof.
  split; [reflexivity|].
  apply (write_disabled_touches_nothing "dump" true (set_enabled false world1)).
  reflexivity.
Defined.

Lemma read_attempts_io_whatever_enabled_witness :
  let s := Scenario.world in
  let final := snd (read (Some "restart") [] (set_enabled false s)) in
  fst (openr "restart" (file (self s))) = true
  /\ fst (read (Some "restart") [] (set_enabled false s)) = 0
  /\ calls final =
     calls s ++ [Copenr "restart"; Cis_valid; CsetRecord (-1)]
     ++ read_vars_calls (self s) ++ [Cclose]
  /\ m_int (mem final) (ptr Scenario.int_a) = 1
  /\ m_int (mem s) (ptr Scenario.int_a) = 5.
Proof.
  intros s final.
  destruct (read_attempts_io_whatever_enabled "restart" [] "dump" false false
              Scenario.world) as (_ & _ & Htransfer & _).
  destruct Htransfer as (Hstatus & Hcalls & Hmem & _);
    [reflexivity | reflexivity |].
  split; [reflexivity|]. split; [exact Hstatus|]. split; [exact Hcalls|].
  split; [|reflexivity].
  subst final s. rewrite Hmem. vm_compute. reflexivity.
Defined.

Lemma vector_component_names_witness :
  let s := Scenario.world in
  In Scenario.v2d_v (v2d_arr (self s))
  /\ (exists before after,
        calls (snd (read (Some "restart") [] s)) =
        before
        ++ map (fun n => Cread false TData n [2; 1]) ["vx"; "vy"; "vz"]
        ++ after)
  /\ (exists before after,
        calls (snd (write "dump" false s)) =
        before
        ++ [Cwrite false "vx" [2; 1] (PData [5; 6]);
            Cwrite false "vz" [2; 1] (PData [7; 8])]
        ++ after)
  /\ In Scenario.v3d_n (v3d_arr (self s))
  /\ (exists before after,
        calls (snd (read (Some "restart") [] s)) =
        before
        ++ map (fun n => Cread false TData n [2; 1; 1]) ["n_x"; "n_y"; "n_z"]
        ++ after)
  /\ (exists before after,
        calls (snd (write "dump" false s)) =
        before ++ [Cwrite false "n_y" [2; 1; 1] (PData [9; 9])] ++ after).
Proof.
  intros s.
  assert (Hin2 : In Scenario.v2d_v (v2d_arr (self s)))
    by (vm_compute; right; left; reflexivity).
  assert (Hin3 : In Scenario.v3d_n (v3d_arr (self s)))
    by (vm_compute; right; left; reflexivity).
  destruct (vector_component_names Scenario.v2d_v "restart" [] "dump" false
              Scenario.world) as (_ & _ & Hread2 & Hwrite2).
  destruct (vector_component_names Scenario.v3d_n "restart" [] "dump" false
              Scenario.world) as (_ & _ & Hread3 & Hwrite3).
  destruct Hread2 as (_ & Hread2 & _); [reflexivity | reflexivity |].
  destruct Hread3 as (_ & _ & Hread3); [reflexivity | reflexivity |].
  destruct Hwrite2 as (_ & Hwrite2 & _);
    [reflexivity | reflexivity | reflexivity |].
  destruct Hwrite3 as (_ & _ & Hwrite3);
    [reflexivity | reflexivity | reflexivity |].
  destruct (Hread2 Hin2) as (b1 & a1 & E1).
  destruct (Hwrite2 Hin2) as (b2 & a2 & E2).
  destruct (Hread3 Hin3) as (b3 & a3 & E3).
  destruct (Hwrite3 Hin3) as (b4 & a4 & E4).
  split; [exact Hin2|].
  split; [exists b1, a1; subst s; rewrite E1; reflexivity|].
  split; [exists b2, a2; subst s; rewrite E2; reflexivity|].
  split; [exact Hin3|].
  split; [exists b3, a3; subst s; rewrite E3; reflexivity|].
  exists b4, a4. subst s. rewrite E4. reflexivity.
Defined.

Lemma write_works_on_a_copy_witness :
  let s := Scenario.world in
  let final := snd (write "dump" false s) in
  enabled s = true
  /\ In Scenario.v2d_v (v2d_arr (self s))
  /\ covar Scenario.v2d_v = false
  /\ covariant (m_v2d (mem s) (ptr Scenario.v2d_v)) = true
  /\ m_v2d (mem final) (ptr Scenario.v2d_v) =
     mkVector (Some [5; 6]) None (Some [7; 8]) true
  /\ (exists before after,
        calls final =
        before
        ++ [Cwrite false "vx" [2; 1] (PData [5; 6]);
            Cwrite false "vz" [2; 1] (PData [7; 8])]
        ++ after).
Proof.
  intros s final.
  assert (Hin2 : In Scenario.v2d_v (v2d_arr (self s)))
    by (vm_compute; right; left; reflexivity).
  destruct (write_works_on_a_copy "dump" false Scenario.world)
    as (_ & Hsuccess).
  destruct Hsuccess as (_ & H2 & _);
    [reflexivity | reflexivity | reflexivity |].
  destruct (H2 Scenario.v2d_v Hin2) as (Hkept & b & a & E).
  split; [reflexivity|]. split; [exact Hin2|]. split; [reflexivity|].
  split; [reflexivity|].
  split; [subst final s; rewrite Hkept; reflexivity|].
  exists b, a. subst final s. rewrite E. reflexivity.
Defined.

Ltac origin_case :=
  repeat match goal with
         | H : exists _, _ |- _ => destruct H
         | H : _ /\ _ |- _ => destruct H
         | E : ?l = _, H : In _ ?l |- _ => rewrite E in H; cbn [In] in H
         | H : _ \/ _ |- _ => destruct H
         | H : False |- _ => destruct H
         | H : let _ := _ in _ |- _ => cbv zeta in H
         end;
  subst;
  try match goal with c : comp |- _ => destruct c end;
  repeat match goal with
         | H : _ = _ |- _ => vm_compute in H; discriminate H
         end.

Lemma unallocated_field_is_skipped_witness :
  let s := Scenario.world in
  let trace := calls (snd (write "dump" false s)) in
  enabled s = true
  /\ f2d_arr (self s) = [Scenario.f2d_1] ++ Scenario.f2d_2 :: [Scenario.f2d_3]
  /\ isAllocated (load_f2d (ptr Scenario.f2d_2) (mem s)) = false
  /\ fst (write "dump" false s) = true
  /\ trace =
     calls (snd (write "dump" false
                   (set_self (set_f2d_arr ([Scenario.f2d_1] ++ [Scenario.f2d_3])
                                (self s)) s)))
  /\ (forall g dims p, ~ In (Cwrite g "f2" dims p) trace)
  /\ y (m_v2d (mem s) (ptr Scenario.v2d_v)) = None
  /\ (forall g dims p, ~ In (Cwrite g "vy" dims p) trace)
  /\ In (Cwrite false "f3" [2; 1] (PData [2; 1])) trace
  /\ In (Cwrite false "vz" [2; 1] (PData [7; 8])) trace.
Proof.
  intros s trace. subst trace s.
  destruct (unallocated_field_is_skipped "dump" false Scenario.world)
    as (_ & Hstatus & _ & Horigin & Hwithout & _);
    [reflexivity | reflexivity | reflexivity |].
  assert (Hcalls : calls Scenario.world = []) by reflexivity.
  assert (Hi : int_arr (self Scenario.world) =
               [Scenario.int_a; Scenario.int_b; Scenario.int_c])
    by (vm_compute; reflexivity).
  assert (Hr : BoutReal_arr (self Scenario.world) =
               [mkVarStr 1%N "r" false false])
    by (vm_compute; reflexivity).
  assert (H2 : f2d_arr (self Scenario.world) =
               [Scenario.f2d_1; Scenario.f2d_2; Scenario.f2d_3])
    by (vm_compute; reflexivity).
  assert (H3 : f3d_arr (self Scenario.world) =
               [mkVarStr (FieldAt 7%N) "g1" false false;
                mkVarStr (FieldAt 8%N) "g2" false false;
                mkVarStr (FieldAt 9%N) "g3" false false])
    by (vm_compute; reflexivity).
  assert (Hv2 : v2d_arr (self Scenario.world) =
                [Scenario.v2d_u; Scenario.v2d_v; Scenario.v2d_w])
    by (vm_compute; reflexivity).
  assert (Hv3 : v3d_arr (self Scenario.world) =
                [Scenario.v3d_m; Scenario.v3d_n; Scenario.v3d_o])
    by (vm_compute; reflexivity).
  split; [reflexivity|]. split; [reflexivity|]. split; [reflexivity|].
  split; [exact Hstatus|].
  split.
  { apply (Hwithout [Scenario.f2d_1] Scenario.f2d_2 [Scenario.f2d_3]);
      reflexivity. }
  split.
  { intros g dims p Hin. apply Horigin in Hin. clear Horigin Hwithout Hstatus.
    destruct Hin as [Hin|[Hin|[Hin|[Hin|[Hin|[Hin|Hin]]]]]]; origin_case. }
  split; [reflexivity|].
  split.
  { intros g dims p Hin. apply Horigin in Hin. clear Horigin Hwithout Hstatus.
    destruct Hin as [Hin|[Hin|[Hin|[Hin|[Hin|[Hin|Hin]]]]]]; origin_case. }
  split; vm_compute; tauto.
Defined.

Lemma null_template_is_refused_witness :
  let s := set_self (set_def_filename "data" (self Scenario.world))
             Scenario.world in
  def_filename (self s) = "data"
  /\ read None [] s = (1, s)
  /\ def_filename (self (snd (setFilename None [] s))) = EmptyString
  /\ enabled s = true
  /\ fst (write_fmt (Some EmptyString) [] s) = 0
  /\ (exists rest,
        calls (snd (write_fmt (Some EmptyString) [] s)) =
        calls s ++ Copenw EmptyString false :: rest)
  /\ write_fmt (Some EmptyString) [] (set_enabled false s) =
     (0, set_enabled false s).
Proof.
  intros s.
  destruct (null_template_is_refused EmptyString [] s)
    as (Hread & _ & _ & _ & (Hname & _) & _ & Hwrite & _ & _ & Hfirst).
  destruct (null_template_is_refused EmptyString [] (set_enabled false s))
    as (_ & _ & _ & _ & _ & _ & _ & _ & Hoff & _).
  destruct Hfirst as [Hfirst _]; [reflexivity|].
  destruct Hoff as [Hoff _]; [reflexivity|].
  split; [reflexivity|]. split; [exact Hread|]. split; [exact Hname|].
  split; [reflexivity|].
  split; [rewrite Hwrite; vm_compute; reflexivity|].
  split; [exact Hfirst | exact Hoff].
Defined.

Lemma grow_recorded_iff_positive_witness :
  add_int 4%N "k" 3 world1 = Returned (state_of (add_int 4%N "k" 3 world1))
  /\ exists d,
       int_arr (self (state_of (add_int 4%N "k" 3 world1))) =
       int_arr (self world1) ++ [d]
       /\ (grow d = true <-> 0 < 3).
Proof.
  split; [reflexivity|].
  apply (grow_recorded_iff_positive world1
           (state_of (add_int 4%N "k" 3 world1)) "k" 3 4%N 5%N
           (FieldAt 9%N) (FieldAt 9%N) 6%N 7%N).
  reflexivity.
Defined.

(** C9 as stated fails: on the double, [read] with the empty template does
    not return failure and does call the backend. *)
Lemma empty_template_reaches_backend :
  ~ (fst (read (Some EmptyString) [] world0) = 1
     /\ calls (snd (read (Some EmptyString) [] world0)) = calls world0).
Proof.
  intros [Hstatus _]. vm_compute in Hstatus. discriminate.
Qed.

(** ** Further properties at concrete inputs *)

Lemma add_all_keeps_names_unique_witness :
  List.NoDup (registered_names (self world0))
  /\ List.NoDup (registered_names (self
       (add_all [AddInt 1%N "n" 0; AddField2D (FieldAt 2%N) "n" 1;
                 AddVector2D 3%N "v" 0] world0))).
Proof.
  split; [constructor|].
  apply (add_all_keeps_names_unique
           [AddInt 1%N "n" 0; AddField2D (FieldAt 2%N) "n" 1;
            AddVector2D 3%N "v" 0] world0).
  constructor.
Defined.

Lemma add_then_varAdded_witness :
  add (AddInt 4%N "k" 3) world1 =
    Returned (outcome_state (add (AddInt 4%N "k" 3) world1))
  /\ varAdded "k" (self (outcome_state (add (AddInt 4%N "k" 3) world1))) = true.
Proof.
  split; [reflexivity|].
  apply (add_then_varAdded (AddInt 4%N "k" 3) world1
           (outcome_state (add (AddInt 4%N "k" 3) world1))).
  reflexivity.
Defined.

Lemma read_fails_before_any_transfer_witness :
  fst (openr "restart" (file (self (Gate.world (Gate.Build_gate false true)))))
    = false
  /\ fst (read (Some "restart") [] (Gate.world (Gate.Build_gate false true))) = 1
  /\ fst (openr "restart" (file (self (Gate.world (Gate.Build_gate true false)))))
     = true
  /\ calls (snd (read (Some "restart") []
                   (Gate.world (Gate.Build_gate true false)))) =
     calls (Gate.world (Gate.Build_gate true false))
     ++ [Copenr "restart"; Cis_valid].
Proof.
  destruct (read_fails_before_any_transfer "restart" []
              (Gate.world (Gate.Build_gate false true)))
    as (_ & _ & Hclosed & _).
  destruct (read_fails_before_any_transfer "restart" []
              (Gate.world (Gate.Build_gate true false)))
    as (_ & _ & _ & Hinvalid).
  split; [reflexivity|]. split; [apply Hclosed; reflexivity|].
  split; [reflexivity|]. apply Hinvalid; reflexivity.
Defined.

Lemma write_status_and_failures_witness :
  enabled (Gate.world (Gate.Build_gate false true)) = true
  /\ fst (openw "dump" false (file (self (Gate.world (Gate.Build_gate false true)))))
     = false
  /\ calls (snd (write "dump" false (Gate.world (Gate.Build_gate false true)))) =
     calls (Gate.world (Gate.Build_gate false true)) ++ [Copenw "dump" false]
  /\ fst (write "dump" false (Gate.world (Gate.Build_gate true true))) = true.
Proof.
  destruct (write_status_and_failures "dump" false "dump" []
              (Gate.world (Gate.Build_gate false true)))
    as (_ & Hclosed & _).
  destruct (write_status_and_failures "dump" false "dump" []
              (Gate.world (Gate.Build_gate true true)))
    as ([_ Hok] & _).
  split; [reflexivity|]. split; [reflexivity|].
  split; [apply Hclosed; reflexivity|].
  apply Hok. right. split; reflexivity.
Defined.

Lemma io_time_is_accounted_witness :
  fst (openr "restart" (file (self world1))) = true
  /\ wtime (snd (read (Some "restart") [] world1)) =
     real_add (wtime world1)
       (real_sub (MPI_Wtime (S (clock world1))) (MPI_Wtime (clock world1)))
  /\ enabled world1 = true
  /\ clock (snd (write "dump" false world1)) = S (S (clock world1)).
Proof.
  destruct (io_time_is_accounted "restart" [] "dump" false world1)
    as [Hread Hwrite].
  split; [reflexivity|]. split; [apply Hread; reflexivity|].
  split; [reflexivity|]. apply Hwrite; reflexivity.
Defined.

Lemma read_call_sequence_witness :
  fst (openr "restart" (file (self world1))) = true
  /\ calls (snd (read (Some "restart") [] world1)) =
     calls world1 ++ [Copenr "restart"; Cis_valid; CsetRecord (-1)]
     ++ read_vars_calls (self world1) ++ [Cclose].
Proof.
  split; [reflexivity|].
  exact (read_call_sequence "restart" [] world1 eq_refl eq_refl).
Defined.

Lemma write_call_sequence_witness :
  enabled world1 = true
  /\ fst (openw "dump" false (file (self world1))) = true
  /\ calls (snd (write "dump" false world1)) =
     calls world1 ++ [Copenw "dump" false; Cis_valid; CsetRecord (-1)]
     ++ write_vars_calls (self world1) (mem world1) ++ [Cclose].
Proof.
  split; [reflexivity|]. split; [reflexivity|].
  exact (write_call_sequence "dump" false world1 eq_refl eq_refl eq_refl).
Defined.

Lemma read_scalar_results_witness :
  int_arr (self world1) = [] ++ mkVarStr 1%N "n" false false :: []
  /\ m_int (mem (snd (read (Some "restart") [] world1))) 1%N = 0.
Proof.
  split; [reflexivity|].
  destruct (read_scalar_results "restart" [] [] (mkVarStr 1%N "n" false false)
              [] world1) as [Hint _].
  - reflexivity.
  - reflexivity.
  - intros it' [].
  - apply Hint. reflexivity.
Defined.

Lemma read_leaves_unregistered_scalars_witness :
  (forall it, In it (int_arr (self world1)) -> ptr it <> 8%N)
  /\ m_int (mem (snd (read (Some "restart") [] world1))) 8%N = 5.
Proof.
  assert (H : forall it, In it (int_arr (self world1)) -> ptr it <> 8%N).
  { intros it [<-|[]]. discriminate. }
  split; [exact H|].
  destruct (read_leaves_unregistered_scalars (Some "restart") [] 8%N world1)
    as [Hint _].
  apply (Hint H).
Defined.

Lemma read_vector_flags_witness :
  let s := Scenario.world in
  let final := snd (read (Some "restart") [] s) in
  v2d_arr (self s) = [Scenario.v2d_u] ++ Scenario.v2d_v :: [Scenario.v2d_w]
  /\ covariant (m_v2d (mem s) (ptr Scenario.v2d_v)) = true
  /\ covariant (m_v2d (mem final) (ptr Scenario.v2d_v)) = false
  /\ v3d_arr (self s) = [Scenario.v3d_m] ++ Scenario.v3d_n :: [Scenario.v3d_o]
  /\ covariant (m_v3d (mem s) (ptr Scenario.v3d_n)) = false
  /\ covariant (m_v3d (mem final) (ptr Scenario.v3d_n)) = true.
Proof.
  intros s final.
  destruct (read_vector_flags "restart" [] [Scenario.v2d_u] Scenario.v2d_v
              [Scenario.v2d_w] Scenario.world) as [Hv2 _];
    [reflexivity | reflexivity | |].
  { intros it' [<-|[]]. discriminate. }
  destruct (read_vector_flags "restart" [] [Scenario.v3d_m] Scenario.v3d_n
              [Scenario.v3d_o] Scenario.world) as [_ Hv3];
    [reflexivity | reflexivity | |].
  { intros it' [<-|[]]. discriminate. }
  split; [reflexivity|]. split; [reflexivity|].
  split; [exact (Hv2 eq_refl)|].
  split; [reflexivity|]. split; [reflexivity|].
  exact (Hv3 eq_refl).
Defined.
